(** * The download pipeline of discord-downloader-go (downloads.go)

    A shallow embedding of [getDownloadLinks], [startDownload] and
    [tryDownload].  Go values are modelled as follows:
    - [int] as [Z]; [string] and [[]byte] as [string] (a sequence of bytes);
    - [float64] as [spec_float], the IEEE 754 values with their comparison;
    - a pointer that the source tests against [nil] as [option]; a pointer
      that the source dereferences without a test as the value itself (the
      configuration loader fills those fields before the pipeline runs);
    - an [error] as [option error], [None] being [nil];
    - [map[string]string] as [gmap string string], [nil] being the empty map;
    - the file system, the database, the image store, the download counter and
      the outward actions (messages, reactions, sleeps) as fields of [World],
      threaded through every effectful step.
    Calls into the Go standard library, discordgo, duplo and into files of the
    repository other than downloads.go are fields of [Externals].
    [log.Println] only prints and is left out. *)

From Stdlib Require Import ZArith Lia Bool Ascii SpecFloat DecimalString DecimalPos DecimalZ.
From Stdlib Require String.
From stdpp Require Import base option list gmap strings.

Local Open Scope Z_scope.

(** ** Statuses (downloads.go, lines 35-78) *)

(** [type downloadStatus int] with its [iota] constants, in source order. *)
Inductive downloadStatus : Type :=
  | downloadSuccess
  | downloadIgnored
  | downloadSkipped
  | downloadSkippedDuplicate
  | downloadSkippedUnpermittedDomain
  | downloadSkippedUnpermittedType
  | downloadSkippedUnpermittedExtension
  | downloadSkippedDetectedDuplicate
  | downloadFailed
  | downloadFailed404
  | downloadFailedInvalidSource
  | downloadFailedInvalidPath
  | downloadFailedCreatingFolder
  | downloadFailedRequesting
  | downloadFailedDownloadingResponse
  | downloadFailedReadResponse
  | downloadFailedCreatingSubfolder
  | downloadFailedWritingFile
  | downloadFailedWritingDatabase.

(** The integer each constant stands for: [iota] counts from 0. *)
Definition statusCode (s : downloadStatus) : Z :=
  match s with
  | downloadSuccess => 0
  | downloadIgnored => 1
  | downloadSkipped => 2
  | downloadSkippedDuplicate => 3
  | downloadSkippedUnpermittedDomain => 4
  | downloadSkippedUnpermittedType => 5
  | downloadSkippedUnpermittedExtension => 6
  | downloadSkippedDetectedDuplicate => 7
  | downloadFailed => 8
  | downloadFailed404 => 9
  | downloadFailedInvalidSource => 10
  | downloadFailedInvalidPath => 11
  | downloadFailedCreatingFolder => 12
  | downloadFailedRequesting => 13
  | downloadFailedDownloadingResponse => 14
  | downloadFailedReadResponse => 15
  | downloadFailedCreatingSubfolder => 16
  | downloadFailedWritingFile => 17
  | downloadFailedWritingDatabase => 18
  end.

Definition allStatuses : list downloadStatus :=
  [ downloadSuccess; downloadIgnored; downloadSkipped; downloadSkippedDuplicate;
    downloadSkippedUnpermittedDomain; downloadSkippedUnpermittedType;
    downloadSkippedUnpermittedExtension; downloadSkippedDetectedDuplicate;
    downloadFailed; downloadFailed404; downloadFailedInvalidSource;
    downloadFailedInvalidPath; downloadFailedCreatingFolder;
    downloadFailedRequesting; downloadFailedDownloadingResponse;
    downloadFailedReadResponse; downloadFailedCreatingSubfolder;
    downloadFailedWritingFile; downloadFailedWritingDatabase ].

(** The comparisons the source writes on statuses are integer comparisons. *)
Definition status_ltb (a b : downloadStatus) : bool := statusCode a <? statusCode b.
Definition status_geb (a b : downloadStatus) : bool := statusCode a >=? statusCode b.
Definition status_gtb (a b : downloadStatus) : bool := statusCode a >? statusCode b.
Definition status_eqb (a b : downloadStatus) : bool := statusCode a =? statusCode b.

(** The named skip and failure reasons of the specification's data model. *)
Definition skippedVariants : list downloadStatus :=
  [ downloadSkippedDuplicate; downloadSkippedUnpermittedDomain;
    downloadSkippedUnpermittedType; downloadSkippedUnpermittedExtension;
    downloadSkippedDetectedDuplicate ].

Definition failedVariants : list downloadStatus :=
  [ downloadFailed; downloadFailed404; downloadFailedInvalidSource;
    downloadFailedInvalidPath; downloadFailedCreatingFolder;
    downloadFailedRequesting; downloadFailedDownloadingResponse;
    downloadFailedReadResponse; downloadFailedCreatingSubfolder;
    downloadFailedWritingFile; downloadFailedWritingDatabase ].

Definition error : Type := string.

Record downloadStatusStruct : Type := mkStatus {
  Status : downloadStatus;
  Error : option error
}.

(** [mDownloadStatus(status, _error...)]: the first variadic argument, when
    there is one, is the error (it may itself be [nil]). *)
Definition mDownloadStatus (status : downloadStatus) (_error : list (option error))
  : downloadStatusStruct :=
  match _error with
  | [] => {| Status := status; Error := None |}
  | e :: _ => {| Status := status; Error := e |}
  end.

(** The stop test of the retry loop (line 428):
    [status.Status < downloadFailed || status.Status == downloadFailed404]. *)
Definition stopsRetry (s : downloadStatus) : bool :=
  status_ltb s downloadFailed || status_eqb s downloadFailed404.

(** ** Data of the pipeline *)

(** [downloadItem]: the record handed to the database. *)
Record downloadItem : Type := mkDownloadItem {
  item_URL : string;
  item_Time : Z;
  item_Destination : string;
  item_Filename : string;
  item_ChannelID : string;
  item_UserID : string
}.

(** The fields of [discordgo.User], [discordgo.Message], [discordgo.Channel],
    [discordgo.Emoji] and [discordgo.Guild] that downloads.go reads. *)
Record User : Type := mkUser {
  user_ID : string;
  Username : string;
  Discriminator : string
}.

Record Message : Type := mkMessage {
  msg_ID : string;
  ChannelID : string;
  GuildID : string;
  Author : option User;
  Timestamp : string
}.

Inductive ChannelType : Type :=
  | ChannelTypeGuildText
  | ChannelTypeDM
  | ChannelTypeGroupDM
  | ChannelTypeOther.

Record Channel : Type := mkChannel {
  chan_Name : string;
  chan_Type : ChannelType;
  chan_GuildID : string;
  chan_ParentID : string
}.

Record Emoji : Type := mkEmoji {
  APIName : string;
  Animated : bool
}.

Record Guild : Type := mkGuild {
  guild_Name : string;
  Emojis : list Emoji
}.

(** [downloadRequestStruct] (lines 411-420). *)
Record downloadRequestStruct : Type := mkRequest {
  InputURL : string;
  Filename : string;
  Path : string;
  Message_ : Message;
  FileTime : Z;
  HistoryCmd : bool;
  EmojiCmd : bool;
  ManualDownload : bool
}.

(** The channel configuration (declared in config.go): the fields that
    downloads.go reads.  A field is an [option] exactly when downloads.go
    compares it with [nil] before use. *)
Record configurationChannel_Filters : Type := mkFilters {
  AllowedExtensions : option (list string);
  BlockedExtensions : option (list string);
  AllowedDomains : option (list string);
  BlockedDomains : option (list string)
}.

Record configurationChannel_Log : Type := mkLogLinks {
  Destination : string;
  DestinationIsFolder : bool;
  DivideLogsByServer : bool;
  DivideLogsByChannel : bool;
  DivideLogsByUser : bool;
  DivideLogsByStatus : bool;
  LogDownloads : bool;
  LogFailures : bool;
  FilterDuplicates : option bool;
  Prefix : option string;
  Suffix : option string;
  UserData : option bool
}.

Record configurationChannel : Type := mkChannelConfig {
  ErrorMessages : bool;
  LogLinks : option configurationChannel_Log;
  Filters : configurationChannel_Filters;
  SaveImages : bool;
  SaveVideos : bool;
  SaveAudioFiles : bool;
  SaveTextFiles : bool;
  SaveOtherFiles : bool;
  DivideFoldersByServer : bool;
  DivideFoldersByChannel : bool;
  DivideFoldersByUser : bool;
  DivideFoldersByType : bool;
  OverwriteFilenameDateFormat : option string;
  SavePossibleDuplicates : bool;
  ReactWhenDownloaded : option bool;
  ReactWhenDownloadedHistory : option bool;
  ReactWhenDownloadedEmoji : string;
  BlacklistReactEmojis : list string;
  UpdatePresence : bool
}.

(** The global [config] (config.go): the fields that downloads.go reads. *)
Record configuration : Type := mkConfig {
  DownloadRetryMax : Z;
  DownloadTimeout : Z;
  FilterDuplicateImages : bool;
  FilterDuplicateImagesThreshold : spec_float;
  FilenameDateFormat : string;
  cfg_ReactWhenDownloaded : bool;
  GoogleDriveCredentialsJSON : string
}.

(** duplo: a perceptual hash, a decoded image, and a query match.  The store
    is represented by the entries added to it, in order. *)
Definition Hash : Type := string.
Definition Image : Type := string.

Record Match : Type := mkMatch {
  match_ID : Z;
  Score : spec_float
}.

(** Outward actions, recorded in the order they happen. *)
Inductive Effect : Type :=
  | EvSleep (seconds : Z)
  | EvMkdirAll (path : string)
  | EvChtimes (path : string) (t : Z)
  | EvFailureNotice (channel : string) (mention : string) (url : string)
      (attempts : Z) (status : downloadStatus) (err : option error)
  | EvLogErrorMessage (status : downloadStatus) (err : error)
  | EvReactionAdd (channel : string) (message : string) (reaction : string)
  | EvUpdatePresence
  | EvPersistImgStore (entries : list (Z * Hash)).

(** The state the pipeline reads and changes.  Directories are not tracked:
    [os.MkdirAll] is recorded as an action, and whether a path names a
    directory is asked of the environment.  [clock] counts the seeds taken
    from the system time, so that successive random draws may differ. *)
Record World : Type := mkWorld {
  files : gmap string string;      (* regular files by path, with their content *)
  db : list downloadItem;
  imgStore : list (Z * Hash);
  cachedDownloadID : Z;
  clock : nat;
  effects : list Effect
}.

Definition emit (e : Effect) (w : World) : World :=
  {| files := files w; db := db w; imgStore := imgStore w;
     cachedDownloadID := cachedDownloadID w; clock := clock w;
     effects := effects w ++ [e] |}.

Definition tick (w : World) : World :=
  {| files := files w; db := db w; imgStore := imgStore w;
     cachedDownloadID := cachedDownloadID w; clock := S (clock w);
     effects := effects w |}.

Definition setFile (p : string) (content : string) (w : World) : World :=
  {| files := <[p := content]> (files w); db := db w; imgStore := imgStore w;
     cachedDownloadID := cachedDownloadID w; clock := clock w;
     effects := effects w |}.

Definition addRecord (it : downloadItem) (w : World) : World :=
  {| files := files w; db := db w ++ [it]; imgStore := imgStore w;
     cachedDownloadID := cachedDownloadID w; clock := clock w;
     effects := effects w |}.

Definition addHash (id : Z) (h : Hash) (w : World) : World :=
  {| files := files w; db := db w; imgStore := imgStore w ++ [(id, h)];
     cachedDownloadID := cachedDownloadID w; clock := clock w;
     effects := effects w |}.

(** [int] is 64 bits wide on the platforms the bot runs on. *)
Definition wrapInt (z : Z) : Z := (z + 2 ^ 63) mod 2 ^ 64 - 2 ^ 63.

Definition nextDownloadID (w : World) : World :=
  {| files := files w; db := db w; imgStore := imgStore w;
     cachedDownloadID := wrapInt (cachedDownloadID w + 1); clock := clock w;
     effects := effects w |}.

(** ** What the pipeline calls but does not define *)

Inductive statResult : Type :=
  | StatOk            (* [err == nil]: the path exists *)
  | StatNotExist      (* [os.IsNotExist(err)] *)
  | StatOtherError.   (* any other error: permission, name too long, ... *)

(** What [client.Do] and [ioutil.ReadAll] deliver for one request. *)
Record httpResponse : Type := mkResponse {
  StatusCode : Z;
  Body : string + error;               (* [ioutil.ReadAll(response.Body)] *)
  RequestURL : string;                 (* [response.Request.URL.String()] *)
  Header : gmap string (list string)
}.

Inductive httpResult : Type :=
  | NewRequestError (e : error)        (* [http.NewRequest] failed *)
  | DoError (e : error)                (* [client.Do] failed *)
  | Responded (r : httpResponse).

(** One site resolver of [getDownloadLinks]: the guard of its [if] (a regular
    expression matched against the URL; two of them for Mastodon; together
    with the test of the credentials for Google Drive) and the function it
    calls with the URL and the channel, which returns links or an error. *)
Record siteResolver : Type := mkResolver {
  guard : string -> bool;
  fetch : string -> string -> gmap string string + error
}.

Class Externals : Type := {
  (* other files of the repository *)
  config : configuration;
  stringInSlice : string -> list string -> bool;
  filepathExtension : string -> string;
  filenameFromURL : string -> string;
  getAllChannels : list string;
  isChannelRegistered : string -> bool;
  getChannelConfig : string -> configurationChannel;
  channelDefault : configurationChannel;
  trimDownloadedLinks : gmap string string -> string -> gmap string string;
  siteResolvers : list siteResolver;
  hasPerms : string -> string -> bool;
  botUserID : string;
  defaultReact : string;
  stripPathBlacklist : string -> string;
  dbInsertDownload_err : World -> downloadItem -> option error;
  imgStorePath : string;                  (* the file the image store is kept in *)
  (* discordgo state *)
  State_Channel : string -> option Channel;
  State_Guild : string -> option Guild;
  (* Go standard library *)
  url_ParseRequestURI_err : string -> option error;
  url_Hostname : string -> option string;      (* [None]: [url.Parse] failed *)
  url_stripQuery : string -> option string;    (* Parse, RawQuery = "", String *)
  url_QueryUnescape : string -> option string;
  mime_ParseMediaType : string -> option (gmap string string);
  mime_ExtensionsByType : string -> list string;
  http_DetectContentType : string -> string;
  strings_ToLower : string -> string;
  filepath_Ext : string -> string;
  formatTime : World -> string -> string -> string;
    (* [messageTime.Format(layout)], [messageTime] being the parsed timestamp
       of the message, or [time.Now()] when there is none *)
  time_Now : World -> Z;
  rand_Intn : nat -> Z -> Z;              (* the draw made at a clock tick *)
  http_Get : World -> string -> httpResult;
  os_MkdirAll_err : World -> string -> option error;
  os_Stat_err : World -> string -> bool;        (* stat fails, not with ENOENT *)
  os_Stat_dir : World -> string -> bool;
    (* the path names a directory, or anything else that exists and is not a
       regular file *)
  os_OpenFile_err : World -> string -> bool;
  ioutil_WriteFile_err : World -> string -> option error;
  ioutil_ReadFile_err : World -> string -> bool;
  file_WriteString_err : World -> string -> bool;
  file_Write_err : World -> string -> bool;
  os_Chtimes_ok : World -> string -> bool;
  (* duplo and image *)
  image_Decode : string -> option Image;
  duplo_CreateHash : Image -> Hash;
  imgStore_Query : list (Z * Hash) -> Hash -> list Match;
  imgStore_GobEncode : list (Z * Hash) -> string + error
}.

(** ** A monad for the body of a Go function

    A step either falls through to the next statement with a value, executes
    [return], panics, or never finishes (a loop ran out of the fuel it was
    given). *)
Inductive result (R A : Type) : Type :=
  | Next (a : A) (w : World)
  | Return (r : R) (w : World)
  | Panic (w : World)
  | Hang.

Arguments Next {R A} a w.
Arguments Return {R A} r w.
Arguments Panic {R A} w.
Arguments Hang {R A}.

Definition M (R A : Type) : Type := World -> result R A.

Definition pure {R A} (a : A) : M R A := fun w => Next a w.

Definition bindM {R A B} (m : M R A) (k : A -> M R B) : M R B :=
  fun w =>
    match m w with
    | Next a w' => k a w'
    | Return r w' => Return r w'
    | Panic w' => Panic w'
    | Hang => Hang
    end.

Definition returnWith {R A} (r : R) : M R A := fun w => Return r w.
Definition panic {R A} : M R A := fun w => Panic w.
Definition getWorld {R} : M R World := fun w => Next w w.
Definition modify {R} (f : World -> World) : M R unit := fun w => Next tt (f w).
Definition when_ {R} (c : bool) (m : M R unit) : M R unit :=
  if c then m else pure tt.

Notation "x <~ m ;; k" := (bindM m (fun x => k))
  (at level 100, m at next level, right associativity).
Notation "m ;;; k" := (bindM m (fun _ => k))
  (at level 100, right associativity).

(** What a function call leaves behind: the value it returned, or a panic,
    or no return at all. *)
Inductive outcome (R : Type) : Type :=
  | Returned (r : R) (w : World)
  | Panicked (w : World)
  | Diverged.

Arguments Returned {R} r w.
Arguments Panicked {R} w.
Arguments Diverged {R}.

(** Running a function body whose last statement is [return r]. *)
Definition call {R} (body : M R R) (w : World) : outcome R :=
  match body w with
  | Next r w' | Return r w' => Returned r w'
  | Panic w' => Panicked w'
  | Hang => Diverged
  end.

(** A step of [startDownload] or [tryDownload]: both return a status. *)
Abbreviation Step A := (M downloadStatusStruct A).

(** ** Strings: the functions of [strings], [strconv] and slicing that the
    pipeline uses on paths and URLs *)

Definition strLen (s : string) : nat := String.length s.

(** [strings.HasPrefix(s, p)]. *)
Definition strings_HasPrefix (s p : string) : bool := String.prefix p s.

(** [strings.HasSuffix(s, suf)]. *)
Definition strings_HasSuffix (s suf : string) : bool :=
  (strLen suf <=? strLen s)%nat &&
  String.eqb (String.substring (strLen s - strLen suf) (strLen suf) s) suf.

(** [strings.Contains(s, sub)]. *)
Fixpoint strings_Contains (s sub : string) : bool :=
  String.prefix sub s ||
  match s with
  | EmptyString => false
  | String _ rest => strings_Contains rest sub
  end.

(** [strings.Split(s, "/")[0]]: what precedes the first slash. *)
Fixpoint beforeSlash (s : string) : string :=
  match s with
  | EmptyString => EmptyString
  | String c rest =>
      if Ascii.eqb c "/"%char then EmptyString else String c (beforeSlash rest)
  end.

(** [strconv.Itoa]. *)
Definition strconv_Itoa (i : Z) : string := NilZero.string_of_int (Z.to_int i).

(** [s[0:n]] for an [int] [n] that is at most [len(s)]: a negative bound
    panics (slice bounds out of range). *)
Definition sliceTo (s : string) (n : Z) : option string :=
  if n <? 0 then None else Some (String.substring 0 (Z.to_nat n) s).

Definition pathSeparator : string := "/".

(** The one-character strings holding a double quote and a line feed. *)
Definition newline : string := String (Ascii.ascii_of_nat 10) EmptyString.
Definition quote : string := String (Ascii.ascii_of_nat 34) EmptyString.

(** ** Resolver dispatch (lines 198-377) *)

Section Pipeline.
Context {E : Externals}.

(** The chain of [if regex.MatchString(inputURL) { links, err := get...; if
    err != nil { log } else if len(links) > 0 { return trimDownloadedLinks(
    links, channelID) } }] blocks, in the order of [siteResolvers]: a resolver
    that fails or finds nothing lets the next one try.  [None] means that the
    chain fell through. *)
Fixpoint tryResolvers (rs : list siteResolver) (inputURL channelID : string)
  : option (gmap string string) :=
  match rs with
  | [] => None
  | r :: rest =>
      if guard r inputURL then
        match fetch r inputURL channelID with
        | inr _ => tryResolvers rest inputURL channelID
        | inl links =>
            if (0 <? size links)%nat
            then Some (trimDownloadedLinks links channelID)
            else tryResolvers rest inputURL channelID
        end
      else tryResolvers rest inputURL channelID
  end.

Definition emojiPrefix : string := "https://cdn.discordapp.com/emojis/".

(** [getDownloadLinks]; the recursion of line 372 consumes fuel, and [None]
    means that the fuel ran out. *)
Fixpoint getDownloadLinks (fuel : nat) (inputURL channelID : string)
  : option (gmap string string) :=
  match fuel with
  | O => None
  | S fuel' =>
      match tryResolvers siteResolvers inputURL channelID with
      | Some links => Some links
      | None =>
          if strings_HasPrefix inputURL emojiPrefix then Some ∅
          else
            let fallback := Some (trimDownloadedLinks {[ inputURL := "" ]} channelID) in
            match url_stripQuery inputURL with
            | Some inputURLWithoutQueries =>
                if negb (String.eqb inputURLWithoutQueries inputURL) then
                  match getDownloadLinks fuel' inputURLWithoutQueries channelID with
                  | Some links => Some (trimDownloadedLinks links channelID)
                  | None => None
                  end
                else fallback
            | None => fallback
            end
      end
  end.

(** ** The executor: [tryDownload] (lines 581-1078), block by block *)

(** [return mDownloadStatus(status, err...)]. *)
Definition fail {A} (status : downloadStatus) (_error : list (option error)) : Step A :=
  returnWith (mDownloadStatus status _error).

(** Lines 601-605, "Source validation". *)
Definition validateSource (download : downloadRequestStruct) : Step unit :=
  match url_ParseRequestURI_err (InputURL download) with
  | Some err => fail downloadFailedInvalidSource [Some err]
  | None => pure tt
  end.

Definition setPath (download : downloadRequestStruct) (p : string) : downloadRequestStruct :=
  {| InputURL := InputURL download; Filename := Filename download; Path := p;
     Message_ := Message_ download; FileTime := FileTime download;
     HistoryCmd := HistoryCmd download; EmojiCmd := EmojiCmd download;
     ManualDownload := ManualDownload download |}.

Definition setFilename (download : downloadRequestStruct) (f : string) : downloadRequestStruct :=
  {| InputURL := InputURL download; Filename := f; Path := Path download;
     Message_ := Message_ download; FileTime := FileTime download;
     HistoryCmd := HistoryCmd download; EmojiCmd := EmojiCmd download;
     ManualDownload := ManualDownload download |}.

(** Lines 607-614, "Clean/fix path"; [err] is [nil] at line 610. *)
Definition cleanPath (download : downloadRequestStruct) : Step downloadRequestStruct :=
  if String.eqb (Path download) "" || String.eqb (Path download) pathSeparator
  then fail downloadFailedInvalidPath [None]
  else if negb (strings_HasSuffix (Path download) pathSeparator)
  then pure (setPath download (Path download +:+ pathSeparator))
  else pure download.

(** [os.MkdirAll(path, 0755)] followed by [return mDownloadStatus(status,
    err)] when it fails (lines 617-621, 845-849, 864-868, 884-888, 911-915). *)
Definition mkdirAll (path : string) (status : downloadStatus) : Step unit :=
  w <~ getWorld ;;
  modify (emit (EvMkdirAll path)) ;;;
  match os_MkdirAll_err w path with
  | Some err => fail status [Some err]
  | None => pure tt
  end.

(** Lines 623-655, "Request", "Read" and "404".  [request.Header.Set] at
    line 629 comes before the test of [err], so a failing [http.NewRequest]
    (whose request is [nil]) panics.  At line 654 [err] is [nil]. *)
Definition request (download : downloadRequestStruct) : Step (httpResponse * string) :=
  w <~ getWorld ;;
  match http_Get w (InputURL download) with
  | NewRequestError _ => panic
  | DoError err => fail downloadFailedDownloadingResponse [Some err]
  | Responded response =>
      match Body response with
      | inr err => fail downloadFailedReadResponse [Some err]
      | inl bodyOfResp =>
          if StatusCode response =? 404
          then fail downloadFailed404 [None]
          else pure (response, bodyOfResp)
      end
  end.

(** Lines 657-674, "Filename". *)
Definition chooseFilename (download : downloadRequestStruct) (response : httpResponse)
  : Step downloadRequestStruct :=
  if String.eqb (Filename download) "" then
    let download := setFilename download (filenameFromURL (RequestURL response)) in
    match Header response !! "Content-Disposition" with
    | None => pure download
    | Some [] => panic                                   (* [iHeader[0]] *)
    | Some (h0 :: _) =>
        match mime_ParseMediaType h0 with
        | None => pure download
        | Some params =>
            let raw := default "" (params !! "filename") in
            let newFilename := default raw (url_QueryUnescape raw) in
            if negb (String.eqb newFilename "")
            then pure (setFilename download newFilename)
            else pure download
        end
    end
  else pure download.

(** The allow/deny decision of lines 689-703 and 737-751: [shouldAbort]
    after each of the three assignments. *)
Definition filterShouldAbort (allowed blocked : option (list string)) (key : string) : bool :=
  let shouldAbort := false in
  let shouldAbort := match allowed with Some _ => true | None => shouldAbort end in
  let shouldAbort :=
    match blocked with
    | Some bl => if stringInSlice key bl then true else shouldAbort
    | None => shouldAbort
    end in
  let shouldAbort :=
    match allowed with
    | Some al => if stringInSlice key al then false else shouldAbort
    | None => shouldAbort
    end in
  shouldAbort.

(** Lines 687-712, "Check extension". *)
Definition checkExtension (channelConfig : configurationChannel) (extension : string)
  : Step unit :=
  let f := Filters channelConfig in
  if bool_decide (AllowedExtensions f <> None) || bool_decide (BlockedExtensions f <> None)
  then
    if filterShouldAbort (AllowedExtensions f) (BlockedExtensions f) extension
    then fail downloadSkippedUnpermittedExtension []
    else pure tt
  else pure tt.

(** Lines 714-725, "Fix content type". *)
Definition fixContentType (extension contentTypeFound : string) : string :=
  if stringInSlice extension [".mov"] || stringInSlice extension [".mp4"]
     || stringInSlice extension [".webm"]
  then "video"
  else if stringInSlice extension [".psd"] || stringInSlice extension [".nef"]
     || stringInSlice extension [".dng"] || stringInSlice extension [".tif"]
     || stringInSlice extension [".tiff"]
  then "image"
  else contentTypeFound.

(** Lines 727-733, "Filename extension fix". *)
Definition fixFilenameExtension (download : downloadRequestStruct) (contentType : string)
  : downloadRequestStruct :=
  if String.eqb (filepath_Ext (Filename download)) "" then
    match mime_ExtensionsByType contentType with
    | possible :: _ => setFilename download (Filename download +:+ possible)
    | [] => download
    end
  else download.

(** Lines 735-760, "Check Domain".  [parsedURL] is [nil] when [url.Parse]
    failed at line 682; [parsedURL.Hostname()] then panics, and it is
    evaluated whenever one of the two lists is configured. *)
Definition checkDomain (channelConfig : configurationChannel) (parsedHost : option string)
  : Step unit :=
  let f := Filters channelConfig in
  if bool_decide (AllowedDomains f <> None) || bool_decide (BlockedDomains f <> None)
  then
    match parsedHost with
    | None => panic
    | Some hostname =>
        if filterShouldAbort (AllowedDomains f) (BlockedDomains f) hostname
        then fail downloadSkippedUnpermittedDomain []
        else pure tt
    end
  else pure tt.

(** Lines 762-772, "Check content type". *)
Definition checkContentType (channelConfig : configurationChannel) (contentTypeFound : string)
  : Step unit :=
  if negb ((SaveImages channelConfig && String.eqb contentTypeFound "image")
        || (SaveVideos channelConfig && String.eqb contentTypeFound "video")
        || (SaveAudioFiles channelConfig && String.eqb contentTypeFound "audio")
        || (SaveTextFiles channelConfig && String.eqb contentTypeFound "text")
        || (SaveOtherFiles channelConfig && String.eqb contentTypeFound "application"))
  then fail downloadSkippedUnpermittedType []
  else pure tt.

(** [sort.Sort(matches)]: duplo orders matches by [Less(i, j) = m[i].Score <
    m[j].Score]; an insertion sort by that comparison. *)
Fixpoint insertMatch (m : Match) (ms : list Match) : list Match :=
  match ms with
  | [] => [m]
  | m' :: rest =>
      if SFltb (Score m') (Score m) then m' :: insertMatch m rest else m :: ms
  end.

Definition sortMatches (ms : list Match) : list Match := foldr insertMatch [] ms.

(** The loop of lines 783-791: does some match score below the threshold? *)
Fixpoint anyScoreBelow (threshold : spec_float) (matches : list Match) : bool :=
  match matches with
  | [] => false
  | m :: rest =>
      if SFltb (Score m) threshold then true else anyScoreBelow threshold rest
  end.

(** Lines 774-794, "Duplicate Image Filter". *)
Definition duplicateImageFilter (bodyOfResp extension contentTypeFound : string) : Step unit :=
  if FilterDuplicateImages config && String.eqb contentTypeFound "image"
     && negb (String.eqb extension ".gif") && negb (String.eqb extension ".webp")
  then
    match image_Decode bodyOfResp with
    | None => pure tt
    | Some img =>
        let hash := duplo_CreateHash img in
        w <~ getWorld ;;
        let matches := sortMatches (imgStore_Query (imgStore w) hash) in
        if anyScoreBelow (FilterDuplicateImagesThreshold config) matches
        then fail downloadSkippedDetectedDuplicate []
        else modify (addHash (cachedDownloadID w) hash)
    end
  else pure tt.

(** Lines 796-828, "Names": the server name and the channel name. *)
Definition sourceNames (download : downloadRequestStruct) : string * string :=
  let sourceChannelName := ChannelID (Message_ download) in
  let sourceName := "UNKNOWN" in
  match State_Channel (ChannelID (Message_ download)) with
  | None => (sourceName, sourceChannelName)
  | Some sourceChannel =>
      let sourceChannelName :=
        if negb (String.eqb (chan_Name sourceChannel) "")
        then chan_Name sourceChannel else sourceChannelName in
      match chan_Type sourceChannel with
      | ChannelTypeGuildText =>
          let sourceName :=
            if negb (String.eqb (chan_GuildID sourceChannel) "") then
              match State_Guild (chan_GuildID sourceChannel) with
              | Some sourceGuild =>
                  if negb (String.eqb (guild_Name sourceGuild) "")
                  then quote +:+ guild_Name sourceGuild +:+ quote
                  else sourceName
              | None => sourceName
              end
            else sourceName in
          let sourceChannelName :=
            if negb (String.eqb (chan_ParentID sourceChannel) "") then
              match State_Channel (chan_ParentID sourceChannel) with
              | Some sourceParent =>
                  if negb (String.eqb (chan_Name sourceParent) "")
                  then chan_Name sourceParent +:+ " - " +:+ sourceChannelName
                  else sourceChannelName
              | None => sourceChannelName
              end
            else sourceChannelName in
          (sourceName, sourceChannelName)
      | ChannelTypeDM => ("Direct Messages", sourceChannelName)
      | ChannelTypeGroupDM => ("Group Messages", sourceChannelName)
      | ChannelTypeOther => (sourceName, sourceChannelName)
      end
  end.

(** One subfolder segment: when [subfolderSuffix] is not empty it is appended
    with a separator and the directory is created. *)
Definition addSubfolder (download : downloadRequestStruct) (subfolder subfolderSuffix : string)
  : Step string :=
  if negb (String.eqb subfolderSuffix "") then
    let subfolder := subfolder +:+ subfolderSuffix +:+ pathSeparator in
    mkdirAll (Path download +:+ subfolder) downloadFailedCreatingSubfolder ;;;
    pure subfolder
  else pure subfolder.

(** Lines 830-917: the server, channel, user and content type segments. *)
Definition buildSubfolder (download : downloadRequestStruct)
    (channelConfig : configurationChannel)
    (sourceName sourceChannelName contentTypeFound : string) : Step string :=
  let subfolder := "" in
  subfolder <~
    match Author (Message_ download) with
    | Some author =>
        subfolder <~
          (if DivideFoldersByServer channelConfig then
             addSubfolder download subfolder
               (if negb (String.eqb sourceName "") && negb (String.eqb sourceName "UNKNOWN")
                then stripPathBlacklist sourceName else "")
           else pure subfolder) ;;
        subfolder <~
          (if DivideFoldersByChannel channelConfig then
             addSubfolder download subfolder
               (if negb (String.eqb sourceChannelName "")
                then stripPathBlacklist sourceChannelName else "")
           else pure subfolder) ;;
        (if DivideFoldersByUser channelConfig then
           addSubfolder download subfolder
             (if negb (String.eqb (Username author) "")
              then stripPathBlacklist (Username author +:+ "#" +:+ Discriminator author)
              else user_ID author)
         else pure subfolder)
    | None => pure subfolder
    end ;;
  if DivideFoldersByType channelConfig && bool_decide (Author (Message_ download) <> None) then
    addSubfolder download subfolder
      (if String.eqb contentTypeFound "image" then "images"
       else if String.eqb contentTypeFound "video" then "videos"
       else if String.eqb contentTypeFound "audio" then "audio"
       else if String.eqb contentTypeFound "text" then "text"
       else if String.eqb contentTypeFound "application" then "applications"
       else "")
  else pure subfolder.

(** Lines 919-933, "Format filename/path". *)
Definition composePath (download : downloadRequestStruct)
    (channelConfig : configurationChannel) (subfolder : string) : Step string :=
  let filenameDateFormat :=
    match OverwriteFilenameDateFormat channelConfig with
    | Some f => if negb (String.eqb f "") then f else FilenameDateFormat config
    | None => FilenameDateFormat config
    end in
  w <~ getWorld ;;
  pure (Path download +:+ subfolder
        +:+ formatTime w (Timestamp (Message_ download)) filenameDateFormat
        +:+ Filename download).

(** [os.Stat(path)]: the path exists when it is a regular file or names a
    directory, unless the call itself fails for another reason. *)
Definition os_Stat (w : World) (path : string) : statResult :=
  if os_Stat_err w path then StatOtherError
  else match files w !! path with
       | Some _ => StatOk
       | None => if os_Stat_dir w path then StatOk else StatNotExist
       end.

(** Lines 942-943: [tmpPath[0:len(tmpPath)-len(filepathExtension(tmpPath))] +
    "-" + strconv.Itoa(i) + filepathExtension(tmpPath)]; [None] is the panic
    of a slice whose upper bound is negative. *)
Definition suffixedPath (tmpPath : string) (i : Z) : option string :=
  let ext := filepathExtension tmpPath in
  match sliceTo tmpPath (Z.of_nat (strLen tmpPath) - Z.of_nat (strLen ext)) with
  | Some stem => Some (stem +:+ "-" +:+ strconv_Itoa i +:+ ext)
  | None => None
  end.

(** The loop of lines 940-948, entered with [i]. *)
Fixpoint probeFreePath (fuel : nat) (tmpPath : string) (i : Z) : Step string :=
  match fuel with
  | O => fun _ => Hang
  | S fuel' =>
      match suffixedPath tmpPath i with
      | None => panic
      | Some completePath =>
          w <~ getWorld ;;
          match os_Stat w completePath with
          | StatNotExist => pure completePath
          | _ => probeFreePath fuel' tmpPath (wrapInt (i + 1))
          end
      end
  end.

(** Lines 935-958, "Check if exists". *)
Definition resolveCollision (fuel : nat) (channelConfig : configurationChannel)
    (completePath : string) : Step string :=
  w <~ getWorld ;;
  match os_Stat w completePath with
  | StatOk =>
      if SavePossibleDuplicates channelConfig
      then probeFreePath fuel completePath 1
      else fail downloadSkippedDuplicate []
  | _ => pure completePath
  end.

(** Lines 960-971, "Write" and "Change file time".  A write that fails is
    taken to leave the file system as it was. *)
Definition writeFile (download : downloadRequestStruct) (completePath bodyOfResp : string)
  : Step unit :=
  w <~ getWorld ;;
  match ioutil_WriteFile_err w completePath with
  | Some err => fail downloadFailedWritingFile [Some err]
  | None =>
      modify (setFile completePath bodyOfResp) ;;;
      w <~ getWorld ;;
      when_ (os_Chtimes_ok w completePath)
        (modify (emit (EvChtimes completePath (FileTime download))))
  end.

(** Lines 976-988: the record for the database. *)
Definition recordFor (download : downloadRequestStruct) (completePath : string)
    (w : World) : downloadItem :=
  let userID :=
    match Author (Message_ download) with
    | Some author => user_ID author
    | None => botUserID
    end in
  {| item_URL := InputURL download; item_Time := time_Now w;
     item_Destination := completePath; item_Filename := Filename download;
     item_ChannelID := ChannelID (Message_ download); item_UserID := userID |}.

(** Lines 976-992, "Store in db". *)
Definition storeRecord (download : downloadRequestStruct) (completePath : string)
  : Step unit :=
  w <~ getWorld ;;
  let item := recordFor download completePath w in
  match dbInsertDownload_err w item with
  | Some err => fail downloadFailedWritingDatabase [Some err]
  | None => modify (addRecord item)
  end.

(** The loop of lines 1014-1022: seed, draw, keep the emoji when it is not
    animated and not blacklisted, else draw again.  An index outside the
    slice panics. *)
Fixpoint pickRandomEmoji (fuel : nat) (emojis : list Emoji) (blacklist : list string)
  : Step string :=
  match fuel with
  | O => fun _ => Hang
  | S fuel' =>
      w <~ getWorld ;;
      modify tick ;;;
      let k := rand_Intn (clock w) (Z.of_nat (length emojis)) in
      if (0 <=? k) && (k <? Z.of_nat (length emojis)) then
        match emojis !! Z.to_nat k with
        | None => panic
        | Some chosenEmoji =>
            let formattedEmoji := APIName chosenEmoji in
            if negb (Animated chosenEmoji) && negb (stringInSlice formattedEmoji blacklist)
            then pure formattedEmoji
            else pickRandomEmoji fuel' emojis blacklist
        end
      else panic
  end.

(** Lines 1005-1032: which reaction to add. *)
Definition chooseReaction (fuel : nat) (download : downloadRequestStruct)
    (channelConfig : configurationChannel) : Step string :=
  let reaction := "" in
  if String.eqb (ReactWhenDownloadedEmoji channelConfig) "" then
    if negb (String.eqb (GuildID (Message_ download)) "") then
      match State_Guild (GuildID (Message_ download)) with
      | None => pure reaction
      | Some guild =>
          let emojis := Emojis guild in
          if (1 <? length emojis)%nat
          then pickRandomEmoji fuel emojis (BlacklistReactEmojis channelConfig)
          else pure defaultReact
      end
    else pure defaultReact
  else pure (ReactWhenDownloadedEmoji channelConfig).

(** Lines 994-1042, "React". *)
Definition react (fuel : nat) (download : downloadRequestStruct)
    (channelConfig : configurationChannel) : Step unit :=
  let shouldReact := cfg_ReactWhenDownloaded config in
  let shouldReact := default shouldReact (ReactWhenDownloaded channelConfig) in
  let shouldReact :=
    match ReactWhenDownloadedHistory channelConfig with
    | Some h => if HistoryCmd download && negb h then false else shouldReact
    | None => shouldReact
    end in
  if bool_decide (Author (Message_ download) <> None) && shouldReact then
    reaction <~ chooseReaction fuel download channelConfig ;;
    when_ (hasPerms (ChannelID (Message_ download)) "AddReactions")
      (modify (emit (EvReactionAdd (ChannelID (Message_ download))
                       (msg_ID (Message_ download)) reaction)))
  else pure tt.

(** Lines 1055-1070: the image store written back to its own file.  The
    attempt is recorded as an action.  [os.OpenFile] with [O_CREATE] and
    [O_TRUNC] creates the file or empties it; when it fails [f] is [nil], and
    [f.Write] and [f.Close] only return an error.  A write that fails is
    taken to leave the file empty. *)
Definition persistImgStore : Step unit :=
  w <~ getWorld ;;
  modify (emit (EvPersistImgStore (imgStore w))) ;;;
  match imgStore_GobEncode (imgStore w) with
  | inr _ => pure tt
  | inl encodedStore =>
      if os_OpenFile_err w imgStorePath then pure tt
      else
        modify (setFile imgStorePath "") ;;;
        w <~ getWorld ;;
        when_ (negb (file_Write_err w imgStorePath))
          (modify (setFile imgStorePath encodedStore))
  end.

(** Lines 1044-1072: presence, and the image store.  [timeLastUpdated] is
    read elsewhere only. *)
Definition afterSuccess (download : downloadRequestStruct)
    (channelConfig : configurationChannel) (thisDownloadID : Z) : Step unit :=
  when_ (negb (HistoryCmd download) && UpdatePresence channelConfig)
    (modify (emit EvUpdatePresence)) ;;;
  when_ ((0 <? thisDownloadID) && FilterDuplicateImages config) persistImgStore.

(** The body of [tryDownload]. *)
Definition tryDownloadBody (fuel : nat) (download : downloadRequestStruct)
  : Step downloadStatusStruct :=
  modify nextDownloadID ;;;
  w <~ getWorld ;;
  let thisDownloadID := cachedDownloadID w in
  if stringInSlice (ChannelID (Message_ download)) getAllChannels
     || EmojiCmd download || ManualDownload download
  then
    let channelConfig :=
      if isChannelRegistered (ChannelID (Message_ download))
      then getChannelConfig (ChannelID (Message_ download))
      else channelDefault in
    validateSource download ;;;
    download <~ cleanPath download ;;
    mkdirAll (Path download) downloadFailedCreatingFolder ;;;
    resp <~ request download ;;
    let response := fst resp in
    let bodyOfResp := snd resp in
    download <~ chooseFilename download response ;;
    let extension := strings_ToLower (filepath_Ext (Filename download)) in
    let contentType := http_DetectContentType bodyOfResp in
    let contentTypeFound := beforeSlash contentType in
    let parsedHost := url_Hostname (InputURL download) in
    checkExtension channelConfig extension ;;;
    let contentTypeFound := fixContentType extension contentTypeFound in
    let download := fixFilenameExtension download contentType in
    checkDomain channelConfig parsedHost ;;;
    checkContentType channelConfig contentTypeFound ;;;
    duplicateImageFilter bodyOfResp extension contentTypeFound ;;;
    let names := sourceNames download in
    subfolder <~ buildSubfolder download channelConfig (fst names) (snd names)
                   contentTypeFound ;;
    completePath <~ composePath download channelConfig subfolder ;;
    completePath <~ resolveCollision fuel channelConfig completePath ;;
    writeFile download completePath bodyOfResp ;;;
    storeRecord download completePath ;;;
    react fuel download channelConfig ;;;
    afterSuccess download channelConfig thisDownloadID ;;;
    pure (mDownloadStatus downloadSuccess [])
  else pure (mDownloadStatus downloadIgnored []).

Definition tryDownload (fuel : nat) (download : downloadRequestStruct) (w : World)
  : outcome downloadStatusStruct :=
  call (tryDownloadBody fuel download) w.

(** The blocks of [tryDownload] from "Source validation" to "Format
    filename/path" (lines 599-933), on their own: they fall through with the
    request as they leave it, the body of the response and the composed
    path. *)
Definition composeDestination (download : downloadRequestStruct)
    (channelConfig : configurationChannel)
  : Step (downloadRequestStruct * string * string) :=
  validateSource download ;;;
  download <~ cleanPath download ;;
  mkdirAll (Path download) downloadFailedCreatingFolder ;;;
  resp <~ request download ;;
  let response := fst resp in
  let bodyOfResp := snd resp in
  download <~ chooseFilename download response ;;
  let extension := strings_ToLower (filepath_Ext (Filename download)) in
  let contentType := http_DetectContentType bodyOfResp in
  let contentTypeFound := beforeSlash contentType in
  let parsedHost := url_Hostname (InputURL download) in
  checkExtension channelConfig extension ;;;
  let contentTypeFound := fixContentType extension contentTypeFound in
  let download := fixFilenameExtension download contentType in
  checkDomain channelConfig parsedHost ;;;
  checkContentType channelConfig contentTypeFound ;;;
  duplicateImageFilter bodyOfResp extension contentTypeFound ;;;
  let names := sourceNames download in
  subfolder <~ buildSubfolder download channelConfig (fst names) (snd names)
                 contentTypeFound ;;
  completePath <~ composePath download channelConfig subfolder ;;
  pure (download, bodyOfResp, completePath).

(** ** The retry controller: [startDownload] (lines 422-579) *)

(** A call of the executor from inside [startDownload]. *)
Definition invoke (executor : downloadRequestStruct -> World -> outcome downloadStatusStruct)
    (download : downloadRequestStruct) : Step downloadStatusStruct :=
  fun w =>
    match executor download w with
    | Returned r w' => Next r w'
    | Panicked w' => Panic w'
    | Diverged => Hang
    end.

(** The loop of lines 426-433, entered with [i] and the current [status];
    it falls through with the status it ends with. *)
Fixpoint retryLoop (executor : downloadRequestStruct -> World -> outcome downloadStatusStruct)
    (fuel : nat) (i : Z) (download : downloadRequestStruct)
    (status : downloadStatusStruct) : Step downloadStatusStruct :=
  match fuel with
  | O => fun _ => Hang
  | S fuel' =>
      if i <? DownloadRetryMax config then
        status <~ invoke executor download ;;
        if stopsRetry (Status status)
        then pure status
        else
          modify (emit (EvSleep 5)) ;;;
          retryLoop executor fuel' (wrapInt (i + 1)) download status
      else pure status
  end.

(** Lines 435-465, "Any kind of failure".  [download.Message.Author.ID] at
    line 451 panics when the author is [nil]. *)
Definition reportFailure (download : downloadRequestStruct) (status : downloadStatusStruct)
  : Step unit :=
  let channel := ChannelID (Message_ download) in
  if status_geb (Status status) downloadFailed
     && negb (HistoryCmd download) && negb (EmojiCmd download)
  then
    if isChannelRegistered channel then
      let channelConfig := getChannelConfig channel in
      (if negb (HistoryCmd download) && ErrorMessages channelConfig then
         if hasPerms channel "SendMessages" then
           match Author (Message_ download) with
           | None => panic
           | Some author =>
               modify (emit (EvFailureNotice channel (user_ID author) (InputURL download)
                               (DownloadRetryMax config) (Status status) (Error status)))
           end
         else pure tt
       else pure tt) ;;;
      match Error status with
      | Some err => modify (emit (EvLogErrorMessage (Status status) err))
      | None => pure tt
      end
    else pure tt
  else pure tt.

(** Lines 472-517: the path of the log file.  [download.Message.Author.ID]
    at line 502 panics when the author is [nil]. *)
Definition logLinksPath (download : downloadRequestStruct) (logLinks : configurationChannel_Log)
    (status : downloadStatusStruct) : Step string :=
  let message := Message_ download in
  let logPath := Destination logLinks in
  if DestinationIsFolder logLinks then
    let logPath :=
      if negb (strings_HasSuffix logPath pathSeparator)
      then logPath +:+ pathSeparator else logPath in
    w <~ getWorld ;;
    modify (emit (EvMkdirAll logPath)) ;;;
    logPath <~
      match os_MkdirAll_err w logPath with
      | Some _ => pure logPath
      | None =>
          let logPath := logPath +:+ "Log_Links" in
          let logPath :=
            if DivideLogsByServer logLinks then
              if String.eqb (GuildID message) "" then
                match State_Channel (ChannelID message) with
                | Some ch =>
                    match chan_Type ch with
                    | ChannelTypeDM => logPath +:+ " DM"
                    | ChannelTypeGroupDM => logPath +:+ " GroupDM"
                    | _ => logPath +:+ " Unknown"
                    end
                | None => logPath +:+ " Unknown"
                end
              else logPath +:+ " SID_" +:+ GuildID message
            else logPath in
          let logPath :=
            if DivideLogsByChannel logLinks
            then logPath +:+ " CID_" +:+ ChannelID message else logPath in
          logPath <~
            (if DivideLogsByUser logLinks then
               match Author message with
               | Some author => pure (logPath +:+ " UID_" +:+ user_ID author)
               | None => panic
               end
             else pure logPath) ;;
          pure
            (if DivideLogsByStatus logLinks then
               if status_geb (Status status) downloadFailed then logPath +:+ " - FAILED"
               else if status_geb (Status status) downloadSkipped then logPath +:+ " - SKIPPED"
               else if status_eqb (Status status) downloadIgnored then logPath +:+ " - IGNORED"
               else if status_eqb (Status status) downloadSuccess then logPath +:+ " - DOWNLOADED"
               else logPath
             else logPath)
      end ;;
    pure (logPath +:+ ".txt")
  else pure logPath.

(** Lines 532-548: [shouldLog] after "Log Failures" and "Filter Duplicates". *)
Definition shouldLogLink (logLinks : configurationChannel_Log) (status : downloadStatus)
    (currentLogS inputURL : string) : bool :=
  let shouldLog := true in
  let shouldLog :=
    if status_gtb status downloadSuccess then LogFailures logLinks
    else if LogDownloads logLinks then true
    else shouldLog in
  let shouldLog :=
    match FilterDuplicates logLinks with
    | Some true => if strings_Contains currentLogS inputURL then false else shouldLog
    | _ => shouldLog
    end in
  shouldLog.

(** Lines 550-568: the line that is appended. *)
Definition logLine (download : downloadRequestStruct) (logLinks : configurationChannel_Log)
  : Step string :=
  let message := Message_ download in
  let prefix := default "" (Prefix logLinks) in
  additionalInfo <~
    match UserData logLinks with
    | Some true =>
        match Author message with
        | None => panic
        | Some author =>
            pure ("[" +:+ GuildID message +:+ "/" +:+ ChannelID message +:+ "] "
                  +:+ quote +:+ Username author +:+ quote +:+ "#" +:+ Discriminator author
                  +:+ " (" +:+ user_ID author +:+ ") @ " +:+ Timestamp message +:+ ": ")
        end
    | _ => pure ""
    end ;;
  let suffix := default "" (Suffix logLinks) in
  pure (newline +:+ prefix +:+ additionalInfo +:+ InputURL download +:+ suffix).

(** Lines 467-576, "Log Links to File".  Opening with [O_CREATE] creates a
    missing file; when the open fails [f] is [nil] and the write at line 570
    only returns an error. *)
Definition logLink (download : downloadRequestStruct) (status : downloadStatusStruct)
  : Step unit :=
  let channel := ChannelID (Message_ download) in
  if isChannelRegistered channel then
    match LogLinks (getChannelConfig channel) with
    | None => pure tt
    | Some logLinks =>
        if negb (String.eqb (Destination logLinks) "") then
          logPath <~ logLinksPath download logLinks status ;;
          w <~ getWorld ;;
          let currentLogS :=
            if ioutil_ReadFile_err w logPath then ""
            else default "" (files w !! logPath) in
          let opened := negb (os_OpenFile_err w logPath) in
          when_ (opened && bool_decide (files w !! logPath = None))
            (modify (setFile logPath "")) ;;;
          if shouldLogLink logLinks (Status status) currentLogS (InputURL download) then
            newLine <~ logLine download logLinks ;;
            w <~ getWorld ;;
            when_ (opened && negb (file_WriteString_err w logPath))
              (modify (setFile logPath (default "" (files w !! logPath) +:+ newLine)))
          else pure tt
        else pure tt
    end
  else pure tt.

(** [startDownload], over any executor. *)
Definition startDownloadBody
    (executor : downloadRequestStruct -> World -> outcome downloadStatusStruct)
    (fuel : nat) (download : downloadRequestStruct) : Step downloadStatusStruct :=
  let status := mDownloadStatus downloadFailed [] in
  status <~ retryLoop executor fuel 0 download status ;;
  reportFailure download status ;;;
  logLink download status ;;;
  pure status.

(** [startDownload] as the source has it: the executor is [tryDownload]. *)
Definition startDownload (fuel : nat) (download : downloadRequestStruct) (w : World)
  : outcome downloadStatusStruct :=
  call (startDownloadBody (tryDownload fuel) fuel download) w.

End Pipeline.

(** ** The status as text (lines 80-125) *)

(** [getDownloadStatusString]: a [switch] over the constants; the argument is
    an [int], so any number may come in. *)
Definition getDownloadStatusString (status : Z) : string :=
  if status =? statusCode downloadSuccess then "Download Succeeded"
  else if status =? statusCode downloadIgnored then "Download Ignored"
  else if status =? statusCode downloadSkipped then "Download Skipped"
  else if status =? statusCode downloadSkippedDuplicate
  then "Download Skipped - Duplicate"
  else if status =? statusCode downloadSkippedUnpermittedDomain
  then "Download Skipped - Unpermitted Domain"
  else if status =? statusCode downloadSkippedUnpermittedType
  then "Download Skipped - Unpermitted File Type"
  else if status =? statusCode downloadSkippedUnpermittedExtension
  then "Download Skipped - Unpermitted File Extension"
  else if status =? statusCode downloadSkippedDetectedDuplicate
  then "Download Skipped - Detected Duplicate"
  else if status =? statusCode downloadFailed then "Download Failed"
  else if status =? statusCode downloadFailed404
  then "Download Failed - 404 NOT FOUND"
  else if status =? statusCode downloadFailedInvalidSource
  then "Download Failed - Invalid Source"
  else if status =? statusCode downloadFailedInvalidPath
  then "Download Failed - Invalid Path"
  else if status =? statusCode downloadFailedCreatingFolder
  then "Download Failed - Error Creating Folder"
  else if status =? statusCode downloadFailedRequesting
  then "Download Failed - Error Requesting URL Data"
  else if status =? statusCode downloadFailedDownloadingResponse
  then "Download Failed - Error Downloading URL Response"
  else if status =? statusCode downloadFailedReadResponse
  then "Download Failed - Error Reading URL Response"
  else if status =? statusCode downloadFailedCreatingSubfolder
  then "Download Failed - Error Creating Subfolder for Type"
  else if status =? statusCode downloadFailedWritingFile
  then "Download Failed - Error Writing File"
  else if status =? statusCode downloadFailedWritingDatabase
  then "Download Failed - Error Writing to Database"
  else "Unknown Error".

(** ** Link collection (lines 127-196 and 379-409) *)

(** [fileItem] (declared outside downloads.go): a link, the file name that
    came with it, and a time; [None] is the zero [time.Time]. *)
Record fileItem : Type := mkFileItem {
  Link : string;
  link_Filename : string;
  link_Time : option Z
}.

(** The fields of [discordgo.MessageAttachment] and [discordgo.MessageEmbed]
    that [getRawLinks] reads; [embed_Image] and [embed_Video] are pointers. *)
Record Attachment : Type := mkAttachment {
  att_URL : string;
  att_Filename : string
}.

Record Embed : Type := mkEmbed {
  embed_URL : string;
  embed_Image : option string;      (* [embed.Image.URL] *)
  embed_Video : option string       (* [embed.Video.URL] *)
}.

(** The fields of [discordgo.Message] that only link collection reads. *)
Record MessageBody : Type := mkMessageBody {
  Attachments : list Attachment;
  Content : string;
  Embeds : list Embed
}.

(** What link collection calls but does not define. *)
Class CollectorExternals : Type := {
  xurls_FindAllString : string -> list string;   (* [xurls.Strict().FindAllString(s, -1)] *)
  Timestamp_Parse : string -> option Z;          (* [None]: the parse failed *)
  collector_Now : Z;                             (* [time.Now()] *)
  (* the order in which [range] walks a map: unspecified in Go *)
  rangeMap : gmap string string -> list (string * string)
}.

(** [trimDuplicateLinks]: the loop of lines 132-139, entered with [seen] and
    [result]. *)
Fixpoint trimDuplicateLinksLoop (seen : gmap string bool) (result fileItems : list fileItem)
  : list fileItem :=
  match fileItems with
  | [] => result
  | item :: rest =>
      if default false (seen !! Link item)
      then trimDuplicateLinksLoop seen result rest
      else trimDuplicateLinksLoop (<[Link item := true]> seen) (result ++ [item]) rest
  end.

Definition trimDuplicateLinks (fileItems : list fileItem) : list fileItem :=
  trimDuplicateLinksLoop ∅ [] fileItems.

Definition setAuthor (m : Message) (a : option User) : Message :=
  {| msg_ID := msg_ID m; ChannelID := ChannelID m; GuildID := GuildID m;
     Author := a; Timestamp := Timestamp m |}.

(** The links of one embed (lines 166-192): its URL, the URL of its image,
    the URL of its video, each when it is there and not empty. *)
Definition embedLinks (embed : Embed) : list fileItem :=
  (if negb (String.eqb (embed_URL embed) "")
   then [ {| Link := embed_URL embed; link_Filename := ""; link_Time := None |} ] else [])
  ++ match embed_Image embed with
     | Some url => if negb (String.eqb url "")
                   then [ {| Link := url; link_Filename := ""; link_Time := None |} ] else []
     | None => []
     end
  ++ match embed_Video embed with
     | Some url => if negb (String.eqb url "")
                   then [ {| Link := url; link_Filename := ""; link_Time := None |} ] else []
     | None => []
     end.

(** [getRawLinks]: the message as the function leaves it (a missing author is
    replaced by an empty user), and the links: attachments, then the URLs of
    the text, then the embeds. *)
Definition getRawLinks {C : CollectorExternals} (m : Message) (body : MessageBody)
  : Message * list fileItem :=
  let m :=
    match Author m with
    | None => setAuthor m (Some {| user_ID := ""; Username := ""; Discriminator := "" |})
    | Some _ => m
    end in
  let links :=
    map (fun attachment => {| Link := att_URL attachment;
                              link_Filename := att_Filename attachment;
                              link_Time := None |}) (Attachments body) in
  let links :=
    links ++ map (fun foundLink => {| Link := foundLink; link_Filename := "";
                                      link_Time := None |})
               (xurls_FindAllString (Content body)) in
  let links := links ++ concat (map embedLinks (Embeds body)) in
  (m, links).

(** The inner loop of [getFileLinks] (lines 393-403) over the links that
    dispatch found for one raw link. *)
Definition fileItemsOf {C : CollectorExternals} (rawLink : fileItem) (linkTime : Z)
    (downloadLinks : gmap string string) : list fileItem :=
  map (fun entry =>
         {| Link := fst entry;
            link_Filename := if negb (String.eqb (link_Filename rawLink) "")
                             then link_Filename rawLink else snd entry;
            link_Time := Some linkTime |})
      (rangeMap downloadLinks).

(** The outer loop of [getFileLinks] (lines 388-404); [None] when a call of
    [getDownloadLinks] ran out of fuel. *)
Fixpoint collectFileItems {E : Externals} {C : CollectorExternals} (fuel : nat)
    (channelID : string) (linkTime : Z) (fileItems rawLinks : list fileItem)
  : option (list fileItem) :=
  match rawLinks with
  | [] => Some fileItems
  | rawLink :: rest =>
      match getDownloadLinks fuel (Link rawLink) channelID with
      | None => None
      | Some downloadLinks =>
          collectFileItems fuel channelID linkTime
            (fileItems ++ fileItemsOf rawLink linkTime downloadLinks) rest
      end
  end.

(** [getFileLinks]. *)
Definition getFileLinks {E : Externals} {C : CollectorExternals} (fuel : nat)
    (m : Message) (body : MessageBody) : option (Message * list fileItem) :=
  let linkTime := default collector_Now (Timestamp_Parse (Timestamp m)) in
  let raw := getRawLinks m body in
  match collectFileItems fuel (ChannelID (fst raw)) linkTime [] (snd raw) with
  | Some fileItems => Some (fst raw, trimDuplicateLinks fileItems)
  | None => None
  end.

(** ** A concrete environment, for running the pipeline on examples *)

Module Demo.

(** Exact membership. *)
Definition member (a : string) (l : list string) : bool := existsb (String.eqb a) l.

Fixpoint hasSlash (s : string) : bool :=
  match s with
  | EmptyString => false
  | String c rest => Ascii.eqb c "/"%char || hasSlash rest
  end.

(** The extension of a path: from the last dot of its last element. *)
Fixpoint ext (s : string) : string :=
  match s with
  | EmptyString => EmptyString
  | String c rest =>
      if negb (String.eqb (ext rest) "") then ext rest
      else if hasSlash rest then ""
      else if Ascii.eqb c "."%char then s
      else ""
  end.

(** What follows the last slash. *)
Fixpoint base (s : string) : string :=
  match s with
  | EmptyString => EmptyString
  | String c rest => if hasSlash s then base rest else s
  end.

(** What precedes the first question mark. *)
Fixpoint beforeQuery (s : string) : string :=
  match s with
  | EmptyString => EmptyString
  | String c rest =>
      if Ascii.eqb c "?"%char then EmptyString else String c (beforeQuery rest)
  end.

Definition float (m : positive) : spec_float := S754_finite false m 0.

(** The distance of two hashes: ten times the difference of their lengths. *)
Definition distance (h h' : Hash) : spec_float :=
  match (10 * (strLen h - strLen h' + (strLen h' - strLen h)))%nat with
  | O => S754_zero false
  | S n => float (Pos.of_succ_nat n)
  end.

Definition query (store : list (Z * Hash)) (h : Hash) : list Match :=
  map (fun entry => {| match_ID := fst entry; Score := distance (snd entry) h |}) store.

(** The directories of the examples: the destination folder, and in it a
    folder whose name ends like a picture's. *)
Definition directories : list string := ["dl"; "dl/"; "dl/folder.png"].

(** The image store as text: its hashes, each followed by a semicolon. *)
Definition encode (store : list (Z * Hash)) : string :=
  fold_right (fun entry rest => snd entry +:+ ";" +:+ rest) "" store.

(** A world whose image store holds the given hashes. *)
Definition worldIndexed (hashes : list (Z * Hash)) : World :=
  {| files := ∅; db := []; imgStore := hashes; cachedDownloadID := 9; clock := 0;
     effects := [] |}.

Definition logLinks : configurationChannel_Log :=
  {| Destination := "links.txt"; DestinationIsFolder := false;
     DivideLogsByServer := false; DivideLogsByChannel := false;
     DivideLogsByUser := false; DivideLogsByStatus := false;
     LogDownloads := false; LogFailures := false; FilterDuplicates := None;
     Prefix := None; Suffix := None; UserData := None |}.

Definition channelConfig (keepDuplicates : bool) : configurationChannel :=
  {| ErrorMessages := true; LogLinks := Some logLinks;
     Filters := {| AllowedExtensions := None; BlockedExtensions := None;
                   AllowedDomains := None; BlockedDomains := None |};
     SaveImages := true; SaveVideos := true; SaveAudioFiles := true;
     SaveTextFiles := true; SaveOtherFiles := true;
     DivideFoldersByServer := false; DivideFoldersByChannel := false;
     DivideFoldersByUser := false; DivideFoldersByType := false;
     OverwriteFilenameDateFormat := None;
     SavePossibleDuplicates := keepDuplicates;
     ReactWhenDownloaded := Some true; ReactWhenDownloadedHistory := None;
     ReactWhenDownloadedEmoji := ""; BlacklistReactEmojis := [];
     UpdatePresence := false |}.

(** The same configuration with an allow-list and a deny-list of extensions. *)
Definition withExtensions (allowed blocked : option (list string))
    (cc : configurationChannel) : configurationChannel :=
  {| ErrorMessages := ErrorMessages cc; LogLinks := LogLinks cc;
     Filters := {| AllowedExtensions := allowed; BlockedExtensions := blocked;
                   AllowedDomains := AllowedDomains (Filters cc);
                   BlockedDomains := BlockedDomains (Filters cc) |};
     SaveImages := SaveImages cc; SaveVideos := SaveVideos cc;
     SaveAudioFiles := SaveAudioFiles cc; SaveTextFiles := SaveTextFiles cc;
     SaveOtherFiles := SaveOtherFiles cc;
     DivideFoldersByServer := DivideFoldersByServer cc;
     DivideFoldersByChannel := DivideFoldersByChannel cc;
     DivideFoldersByUser := DivideFoldersByUser cc;
     DivideFoldersByType := DivideFoldersByType cc;
     OverwriteFilenameDateFormat := OverwriteFilenameDateFormat cc;
     SavePossibleDuplicates := SavePossibleDuplicates cc;
     ReactWhenDownloaded := ReactWhenDownloaded cc;
     ReactWhenDownloadedHistory := ReactWhenDownloadedHistory cc;
     ReactWhenDownloadedEmoji := ReactWhenDownloadedEmoji cc;
     BlacklistReactEmojis := BlacklistReactEmojis cc;
     UpdatePresence := UpdatePresence cc |}.

Definition guild : Guild :=
  {| guild_Name := "server";
     Emojis := [ {| APIName := "party:1"; Animated := true |};
                 {| APIName := "dance:2"; Animated := true |} ] |}.

(** A network that answers every request with status [code] and the body
    "PNG"; one that refuses every connection; one that refuses the first
    download attempt of the process and answers from then on. *)
Definition answers (code : Z) : World -> string -> httpResult :=
  fun _ u =>
    Responded {| StatusCode := code; Body := inl "PNG"; RequestURL := u; Header := ∅ |}.

Definition refuses : World -> string -> httpResult :=
  fun _ _ => DoError "connection refused".

Definition flaky : World -> string -> httpResult :=
  fun w u => if cachedDownloadID w =? 1 then refuses w u else answers 200 w u.

(** A bot enrolled in channel "chan" with the channel configuration [cc], a
    database that fails when [dbFails], the network [network], and a guild
    "guild" whose two emojis are animated. *)
Definition env (cc : configurationChannel) (dbFails : bool)
    (network : World -> string -> httpResult) (retryMax : Z) : Externals :=
  {| config := {| DownloadRetryMax := retryMax; DownloadTimeout := 60;
                  FilterDuplicateImages := true;
                  FilterDuplicateImagesThreshold := float 50;
                  FilenameDateFormat := ""; cfg_ReactWhenDownloaded := true;
                  GoogleDriveCredentialsJSON := "" |};
     stringInSlice := member;
     filepathExtension := ext;
     filenameFromURL := base;
     getAllChannels := ["chan"];
     isChannelRegistered := fun c => String.eqb c "chan";
     getChannelConfig := fun _ => cc;
     channelDefault := cc;
     trimDownloadedLinks := fun links _ => links;
     siteResolvers := [];
     hasPerms := fun _ _ => true;
     botUserID := "bot";
     defaultReact := "ok";
     stripPathBlacklist := fun s => s;
     dbInsertDownload_err := fun _ _ => if dbFails then Some "database is locked" else None;
     imgStorePath := "cache/imgStore";
     State_Channel := fun _ => None;
     State_Guild := fun g => if String.eqb g "guild" then Some guild else None;
     url_ParseRequestURI_err := fun _ => None;
     url_Hostname := fun _ => Some "example.com";
     url_stripQuery := fun u => Some (beforeQuery u);
     url_QueryUnescape := fun s => Some s;
     mime_ParseMediaType := fun _ => None;
     mime_ExtensionsByType := fun _ => [".png"];
     http_DetectContentType := fun _ => "image/png";
     strings_ToLower := fun s => s;
     filepath_Ext := ext;
     formatTime := fun _ _ _ => "";
     time_Now := fun w => Z.of_nat (clock w);
     rand_Intn := fun _ _ => 0;
     http_Get := network;
     os_MkdirAll_err := fun _ _ => None;
     os_Stat_err := fun _ _ => false;
     os_Stat_dir := fun _ p => member p directories;
     os_OpenFile_err := fun _ _ => false;
     ioutil_WriteFile_err := fun _ _ => None;
     ioutil_ReadFile_err := fun _ _ => false;
     file_WriteString_err := fun _ _ => false;
     file_Write_err := fun _ _ => false;
     os_Chtimes_ok := fun _ _ => true;
     image_Decode := fun b => Some b;
     duplo_CreateHash := fun img => img;
     imgStore_Query := query;
     imgStore_GobEncode := fun store => inl (encode store) |}.

(** The environments of the examples: everything works and three attempts
    are allowed; the same with a locked database; with a resource that is
    gone; with no attempt allowed. *)
Definition standard : Externals := env (channelConfig true) false (answers 200) 3.
Definition lockedDatabase : Externals := env (channelConfig true) true (answers 200) 3.
Definition gone : Externals := env (channelConfig true) false (answers 404) 3.
Definition noAttempts : Externals := env (channelConfig true) false (answers 200) 0.

Definition isSleep (e : Effect) : bool :=
  match e with EvSleep _ => true | _ => false end.

Definition emptyWorld : World :=
  {| files := ∅; db := []; imgStore := []; cachedDownloadID := 0; clock := 0;
     effects := [] |}.

(** A world whose file system holds the given paths. *)
Definition worldWith (paths : list string) : World :=
  {| files := list_to_map (map (fun p => (p, "old")) paths); db := [];
     imgStore := []; cachedDownloadID := 0; clock := 0; effects := [] |}.

Definition message (guildID : string) : Message :=
  {| msg_ID := "m1"; ChannelID := "chan"; GuildID := guildID;
     Author := Some {| user_ID := "u1"; Username := "ann"; Discriminator := "0001" |};
     Timestamp := "" |}.

Definition download (url guildID : string) : downloadRequestStruct :=
  {| InputURL := url; Filename := ""; Path := "dl"; Message_ := message guildID;
     FileTime := 0; HistoryCmd := false; EmojiCmd := false;
     ManualDownload := false |}.

End Demo.


(** ** A concrete collector, for running link collection on examples *)

Module Sample.

(** A text is taken to be one URL, unless it is empty; a map is walked in the
    order of its list of entries; no timestamp parses, and the clock reads 7. *)
Definition collector : CollectorExternals :=
  {| xurls_FindAllString := fun s => if String.eqb s "" then [] else [s];
     Timestamp_Parse := fun _ => None;
     collector_Now := 7;
     rangeMap := map_to_list |}.

Definition item (link name : string) : fileItem :=
  {| Link := link; link_Filename := name; link_Time := None |}.

(** A message with one attachment, whose URL is also its text, and one embed
    that repeats the URL and adds an image. *)
Definition body : MessageBody :=
  {| Attachments := [ {| att_URL := "http://example.com/a.png";
                         att_Filename := "cat.png" |} ];
     Content := "http://example.com/a.png";
     Embeds := [ {| embed_URL := "http://example.com/a.png";
                    embed_Image := Some "http://example.com/b.png";
                    embed_Video := Some "" |} ] |}.

Definition anonymous : Message :=
  {| msg_ID := "m2"; ChannelID := "chan"; GuildID := ""; Author := None;
     Timestamp := "" |}.


(** Four resolvers, in this order: one whose guard fails, one whose function
    fails, one that finds nothing, and one that finds a picture. *)
Definition deaf : siteResolver :=
  {| guard := fun _ => false; fetch := fun _ _ => inl {[ "http://wrong/" := "" ]} |}.
Definition broken : siteResolver :=
  {| guard := fun _ => true; fetch := fun _ _ => inr "suspended" |}.
Definition blind : siteResolver :=
  {| guard := fun _ => true; fetch := fun _ _ => inl ∅ |}.
Definition finder : siteResolver :=
  {| guard := fun _ => true;
     fetch := fun _ _ => inl {[ "http://cdn.example.com/x.png" := "x.png" ]} |}.

(** The standard environment with the resolvers [rs]. *)
Definition withResolvers (rs : list siteResolver) : Externals :=
  {|
     config := @config Demo.standard;
     stringInSlice := @stringInSlice Demo.standard;
     filepathExtension := @filepathExtension Demo.standard;
     filenameFromURL := @filenameFromURL Demo.standard;
     getAllChannels := @getAllChannels Demo.standard;
     isChannelRegistered := @isChannelRegistered Demo.standard;
     getChannelConfig := @getChannelConfig Demo.standard;
     channelDefault := @channelDefault Demo.standard;
     trimDownloadedLinks := @trimDownloadedLinks Demo.standard;
     siteResolvers := rs;
     hasPerms := @hasPerms Demo.standard;
     botUserID := @botUserID Demo.standard;
     defaultReact := @defaultReact Demo.standard;
     stripPathBlacklist := @stripPathBlacklist Demo.standard;
     dbInsertDownload_err := @dbInsertDownload_err Demo.standard;
     imgStorePath := @imgStorePath Demo.standard;
     State_Channel := @State_Channel Demo.standard;
     State_Guild := @State_Guild Demo.standard;
     url_ParseRequestURI_err := @url_ParseRequestURI_err Demo.standard;
     url_Hostname := @url_Hostname Demo.standard;
     url_stripQuery := @url_stripQuery Demo.standard;
     url_QueryUnescape := @url_QueryUnescape Demo.standard;
     mime_ParseMediaType := @mime_ParseMediaType Demo.standard;
     mime_ExtensionsByType := @mime_ExtensionsByType Demo.standard;
     http_DetectContentType := @http_DetectContentType Demo.standard;
     strings_ToLower := @strings_ToLower Demo.standard;
     filepath_Ext := @filepath_Ext Demo.standard;
     formatTime := @formatTime Demo.standard;
     time_Now := @time_Now Demo.standard;
     rand_Intn := @rand_Intn Demo.standard;
     http_Get := @http_Get Demo.standard;
     os_MkdirAll_err := @os_MkdirAll_err Demo.standard;
     os_Stat_err := @os_Stat_err Demo.standard;
     os_Stat_dir := @os_Stat_dir Demo.standard;
     os_OpenFile_err := @os_OpenFile_err Demo.standard;
     ioutil_WriteFile_err := @ioutil_WriteFile_err Demo.standard;
     ioutil_ReadFile_err := @ioutil_ReadFile_err Demo.standard;
     file_WriteString_err := @file_WriteString_err Demo.standard;
     file_Write_err := @file_Write_err Demo.standard;
     os_Chtimes_ok := @os_Chtimes_ok Demo.standard;
     image_Decode := @image_Decode Demo.standard;
     duplo_CreateHash := @duplo_CreateHash Demo.standard;
     imgStore_Query := @imgStore_Query Demo.standard;
     imgStore_GobEncode := @imgStore_GobEncode Demo.standard |}.

(** The standard environment with an [os.Stat] that always fails. *)
Definition statFails : Externals :=
  {|
     config := @config Demo.standard;
     stringInSlice := @stringInSlice Demo.standard;
     filepathExtension := @filepathExtension Demo.standard;
     filenameFromURL := @filenameFromURL Demo.standard;
     getAllChannels := @getAllChannels Demo.standard;
     isChannelRegistered := @isChannelRegistered Demo.standard;
     getChannelConfig := @getChannelConfig Demo.standard;
     channelDefault := @channelDefault Demo.standard;
     trimDownloadedLinks := @trimDownloadedLinks Demo.standard;
     siteResolvers := @siteResolvers Demo.standard;
     hasPerms := @hasPerms Demo.standard;
     botUserID := @botUserID Demo.standard;
     defaultReact := @defaultReact Demo.standard;
     stripPathBlacklist := @stripPathBlacklist Demo.standard;
     dbInsertDownload_err := @dbInsertDownload_err Demo.standard;
     imgStorePath := @imgStorePath Demo.standard;
     State_Channel := @State_Channel Demo.standard;
     State_Guild := @State_Guild Demo.standard;
     url_ParseRequestURI_err := @url_ParseRequestURI_err Demo.standard;
     url_Hostname := @url_Hostname Demo.standard;
     url_stripQuery := @url_stripQuery Demo.standard;
     url_QueryUnescape := @url_QueryUnescape Demo.standard;
     mime_ParseMediaType := @mime_ParseMediaType Demo.standard;
     mime_ExtensionsByType := @mime_ExtensionsByType Demo.standard;
     http_DetectContentType := @http_DetectContentType Demo.standard;
     strings_ToLower := @strings_ToLower Demo.standard;
     filepath_Ext := @filepath_Ext Demo.standard;
     formatTime := @formatTime Demo.standard;
     time_Now := @time_Now Demo.standard;
     rand_Intn := @rand_Intn Demo.standard;
     http_Get := @http_Get Demo.standard;
     os_MkdirAll_err := @os_MkdirAll_err Demo.standard;
     os_Stat_err := fun _ _ => true;
     os_Stat_dir := @os_Stat_dir Demo.standard;
     os_OpenFile_err := @os_OpenFile_err Demo.standard;
     ioutil_WriteFile_err := @ioutil_WriteFile_err Demo.standard;
     ioutil_ReadFile_err := @ioutil_ReadFile_err Demo.standard;
     file_WriteString_err := @file_WriteString_err Demo.standard;
     file_Write_err := @file_Write_err Demo.standard;
     os_Chtimes_ok := @os_Chtimes_ok Demo.standard;
     image_Decode := @image_Decode Demo.standard;
     duplo_CreateHash := @duplo_CreateHash Demo.standard;
     imgStore_Query := @imgStore_Query Demo.standard;
     imgStore_GobEncode := @imgStore_GobEncode Demo.standard |}.

(** The standard environment with the image store kept in the file that the
    download of a.png goes to. *)
Definition storeInDownloads : Externals :=
  {|
     config := @config Demo.standard;
     stringInSlice := @stringInSlice Demo.standard;
     filepathExtension := @filepathExtension Demo.standard;
     filenameFromURL := @filenameFromURL Demo.standard;
     getAllChannels := @getAllChannels Demo.standard;
     isChannelRegistered := @isChannelRegistered Demo.standard;
     getChannelConfig := @getChannelConfig Demo.standard;
     channelDefault := @channelDefault Demo.standard;
     trimDownloadedLinks := @trimDownloadedLinks Demo.standard;
     siteResolvers := @siteResolvers Demo.standard;
     hasPerms := @hasPerms Demo.standard;
     botUserID := @botUserID Demo.standard;
     defaultReact := @defaultReact Demo.standard;
     stripPathBlacklist := @stripPathBlacklist Demo.standard;
     dbInsertDownload_err := @dbInsertDownload_err Demo.standard;
     imgStorePath := "dl/a.png";
     State_Channel := @State_Channel Demo.standard;
     State_Guild := @State_Guild Demo.standard;
     url_ParseRequestURI_err := @url_ParseRequestURI_err Demo.standard;
     url_Hostname := @url_Hostname Demo.standard;
     url_stripQuery := @url_stripQuery Demo.standard;
     url_QueryUnescape := @url_QueryUnescape Demo.standard;
     mime_ParseMediaType := @mime_ParseMediaType Demo.standard;
     mime_ExtensionsByType := @mime_ExtensionsByType Demo.standard;
     http_DetectContentType := @http_DetectContentType Demo.standard;
     strings_ToLower := @strings_ToLower Demo.standard;
     filepath_Ext := @filepath_Ext Demo.standard;
     formatTime := @formatTime Demo.standard;
     time_Now := @time_Now Demo.standard;
     rand_Intn := @rand_Intn Demo.standard;
     http_Get := @http_Get Demo.standard;
     os_MkdirAll_err := @os_MkdirAll_err Demo.standard;
     os_Stat_err := @os_Stat_err Demo.standard;
     os_Stat_dir := @os_Stat_dir Demo.standard;
     os_OpenFile_err := @os_OpenFile_err Demo.standard;
     ioutil_WriteFile_err := @ioutil_WriteFile_err Demo.standard;
     ioutil_ReadFile_err := @ioutil_ReadFile_err Demo.standard;
     file_WriteString_err := @file_WriteString_err Demo.standard;
     file_Write_err := @file_Write_err Demo.standard;
     os_Chtimes_ok := @os_Chtimes_ok Demo.standard;
     image_Decode := @image_Decode Demo.standard;
     duplo_CreateHash := @duplo_CreateHash Demo.standard;
     imgStore_Query := @imgStore_Query Demo.standard;
     imgStore_GobEncode := @imgStore_GobEncode Demo.standard |}.

End Sample.

(** * Statements

    The vocabulary of the theorems: what a loop run, a step or a call is said
    to guarantee. *)

(** The calls that a run of the loop makes from the world [w] to the world
    [w'], oldest first, with the statuses they return.  Every call is a call
    of the executor: the first on [w], each later one on the world that the
    call before it left and the sleep of five seconds then changed.  A call
    whose status ends the loop is the last one, and no sleep follows it. *)
Inductive attemptsFrom
    (executor : downloadRequestStruct -> World -> outcome downloadStatusStruct)
    (download : downloadRequestStruct)
  : World -> list downloadStatusStruct -> World -> Prop :=
  | attempts_none w : attemptsFrom executor download w [] w
  | attempts_last w r w1 :
      executor download w = Returned r w1 ->
      stopsRetry (Status r) = true ->
      attemptsFrom executor download w [r] w1
  | attempts_retry w r w1 rest w' :
      executor download w = Returned r w1 ->
      stopsRetry (Status r) = false ->
      attemptsFrom executor download (emit (EvSleep 5) w1) rest w' ->
      attemptsFrom executor download w (r :: rest) w'.

(** A status after which the loop sleeps and goes on. *)
Definition retried (a : downloadStatusStruct) : bool := negb (stopsRetry (Status a)).


(** A step that neither executes [return] nor hangs, and that panics only on
    a message without author. *)
Definition fallsThrough {A} (download : downloadRequestStruct) (m : Step A) : Prop :=
  forall w,
    match m w with
    | Next _ _ => True
    | Return _ _ => False
    | Panic _ => Author (Message_ download) = None
    | Hang => False
    end.



(** The rule as the specification words it: with an allow-list, a key is
    permitted exactly when the list holds it; without one, exactly when the
    deny-list (if any) does not hold it. *)
Definition permitted {E : Externals} (allowed blocked : option (list string))
    (key : string) : bool :=
  match allowed with
  | Some al => stringInSlice key al
  | None =>
      match blocked with
      | Some bl => negb (stringInSlice key bl)
      | None => true
      end
  end.

(** What the filter does to an image it applies to. *)
Definition nearDuplicateGuarantee {E : Externals} (bodyOfResp extension : string)
    (img : Image) (w : World) : Prop :=
  let hash := duplo_CreateHash img in
  let matches := imgStore_Query (imgStore w) hash in
  let threshold := FilterDuplicateImagesThreshold config in
  let run := duplicateImageFilter bodyOfResp extension "image" w in
  let rejected :=
    Return {| Status := downloadSkippedDetectedDuplicate; Error := None |} w in
  (* some score strictly below the threshold: rejected, nothing indexed *)
  ((exists m, In m matches /\ SFltb (Score m) threshold = true) -> run = rejected)
  (* in particular when the best match, the first after sorting, is below *)
  /\ (forall m, head (sortMatches matches) = Some m ->
        SFltb (Score m) threshold = true -> run = rejected)
  (* every score at least the threshold: accepted, and the hash is indexed
     under the current download id *)
  /\ ((forall m, In m matches -> SFleb threshold (Score m) = true) ->
      exists w', run = Next tt w'
        /\ imgStore w' = imgStore w ++ [(cachedDownloadID w, hash)]
        /\ files w' = files w)
  (* a score equal to the threshold counts as at least the threshold *)
  /\ (forall m, SFeqb (Score m) threshold = true ->
        SFleb threshold (Score m) = true /\ SFltb (Score m) threshold = false).

(** What a call makes of a URL when no resolver has links for it, short of
    the recursion: [inl] is the result, [inr] the URL to recurse on. *)
Definition afterResolvers {E : Externals} (channelID inputURL : string)
  : gmap string string + string :=
  if strings_HasPrefix inputURL emojiPrefix then inl ∅
  else
    match url_stripQuery inputURL with
    | Some inputURLWithoutQueries =>
        if String.eqb inputURLWithoutQueries inputURL
        then inl (trimDownloadedLinks {[ inputURL := "" ]} channelID)
        else inr inputURLWithoutQueries
    | None => inl (trimDownloadedLinks {[ inputURL := "" ]} channelID)
    end.

(** Stripping the query of [u], which is [url.Parse], [RawQuery = ""] and
    [String], gives [u] back (or fails). *)
Definition stripIsFinal {E : Externals} (u : string) : Prop :=
  url_stripQuery u = Some u \/ url_stripQuery u = None.

(** Stripping the query is idempotent after one pass: what it returns, it
    leaves as it is. *)
Definition stripIdempotent {E : Externals} : Prop :=
  forall u stripped, url_stripQuery u = Some stripped -> stripIsFinal stripped.

(** What dispatch returns for a URL. *)
Definition dispatchGuarantee {E : Externals} (inputURL channelID : string) : Prop :=
  let trim := fun links => trimDownloadedLinks links channelID in
  let noLinks := fun u => tryResolvers siteResolvers u channelID = None in
  (* one level of recursion is enough, and more fuel changes nothing *)
  (exists links,
     getDownloadLinks 2 inputURL channelID = Some links
     /\ forall fuel, (2 <= fuel)%nat -> getDownloadLinks fuel inputURL channelID = Some links)
  (* an emoji link that no resolver takes: nothing, and no fallback *)
  /\ (noLinks inputURL -> strings_HasPrefix inputURL emojiPrefix = true ->
      getDownloadLinks 2 inputURL channelID = Some ∅)
  (* stripping gives the URL back, or fails: the fallback is the input URL *)
  /\ (noLinks inputURL -> strings_HasPrefix inputURL emojiPrefix = false ->
      stripIsFinal inputURL ->
      getDownloadLinks 2 inputURL channelID = Some (trim {[ inputURL := "" ]}))
  (* stripping gives another URL: the fallback is that URL, trimmed twice *)
  /\ (forall stripped,
        noLinks inputURL -> strings_HasPrefix inputURL emojiPrefix = false ->
        url_stripQuery inputURL = Some stripped -> stripped <> inputURL ->
        noLinks stripped ->
        getDownloadLinks 2 inputURL channelID
        = Some (if strings_HasPrefix stripped emojiPrefix
                then trim ∅
                else trim (trim {[ stripped := "" ]}))).

(** ** Statements about the other functions *)

(** An item that is a link and nothing else. *)
Definition linkOnly (l : string) : fileItem :=
  {| Link := l; link_Filename := ""; link_Time := None |}.

(** The URLs that an embed carries, in the order URL, image, video, and
    those of them that are listed: the ones that are not empty. *)
Definition embedURLs (embed : Embed) : list string :=
  [ embed_URL embed ] ++ option_list (embed_Image embed)
  ++ option_list (embed_Video embed).

Definition listedURLs (embed : Embed) : list string :=
  List.filter (fun u => negb (String.eqb u "")) (embedURLs embed).

(** What [getFileLinks] returns: [m'] is the message as [getRawLinks] leaves
    it, [items] the links to download. *)
Definition fileLinksGuarantee {E : Externals} {C : CollectorExternals} (fuel : nat)
    (m : Message) (body : MessageBody) (m' : Message) (items : list fileItem) : Prop :=
  let linkTime := default collector_Now (Timestamp_Parse (Timestamp m)) in
  let raws := snd (getRawLinks m body) in
  let resolved := fun raw => getDownloadLinks fuel (Link raw) (ChannelID m) in
  m' = fst (getRawLinks m body)
  (* no link twice *)
  /\ NoDup (Link <$> items)
  (* every item is a link that dispatch found for a raw link, stamped with
     the time of the message; its name is the name the raw link came with,
     or else the name dispatch suggests *)
  /\ (forall x, In x items ->
        link_Time x = Some linkTime
        /\ exists raw links name,
             In raw raws /\ resolved raw = Some links
             /\ links !! Link x = Some name
             /\ link_Filename x
                = (if negb (String.eqb (link_Filename raw) "")
                   then link_Filename raw else name))
  (* and every link that dispatch found is there *)
  /\ (forall raw links k, In raw raws -> resolved raw = Some links ->
        is_Some (links !! k) -> In k (Link <$> items)).

(** A resolver that gives nothing for a URL: its guard fails, or its function
    fails, or it finds no link. *)
Definition fruitless (r : siteResolver) (inputURL channelID : string) : Prop :=
  guard r inputURL = false
  \/ (exists err, fetch r inputURL channelID = inr err)
  \/ (exists links, fetch r inputURL channelID = inl links /\ size links = 0%nat).

(** What the chain of resolvers does when [r], after the resolvers [before],
    is the first that has links. *)
Definition firstResolverWins {E : Externals} (before : list siteResolver)
    (r : siteResolver) (after : list siteResolver) (links : gmap string string)
    (inputURL channelID : string) : Prop :=
  tryResolvers (before ++ r :: after) inputURL channelID
  = Some (trimDownloadedLinks links channelID)
  (* whatever the resolvers after it would have found *)
  /\ (forall after', tryResolvers (before ++ r :: after') inputURL channelID
                     = Some (trimDownloadedLinks links channelID))
  (* and dispatch returns just that, without stripping the query and also for
     an emoji link *)
  /\ (siteResolvers = before ++ r :: after ->
      forall fuel, getDownloadLinks (S fuel) inputURL channelID
                   = Some (trimDownloadedLinks links channelID)).

(** The postconditions of a step at a world: [Qn] for falling through, [Qr]
    for [return], [Qp] for a panic; a step that hangs promises nothing. *)
Definition wp {A} (m : Step A) (Qn : A -> World -> Prop)
    (Qr : downloadStatusStruct -> World -> Prop) (Qp : World -> Prop) (w : World) : Prop :=
  match m w with
  | Next a w' => Qn a w'
  | Return r w' => Qr r w'
  | Panic w' => Qp w'
  | Hang => True
  end.

(** The actions of the executor itself: not the sleep, the failure notice
    and the error log, which are [startDownload]'s. *)
Definition executorAction (e : Effect) : Prop :=
  match e with
  | EvSleep _ | EvFailureNotice _ _ _ _ _ _ | EvLogErrorMessage _ _ => False
  | _ => True
  end.

(** A relation between the world before and the world after that the
    blocks of the executor keep: it is a preorder, and recording an action in
    [may], taking a seed and indexing a hash under the current download id
    stay inside it. *)
Record Frame (may : Effect -> Prop) (R : World -> World -> Prop) : Prop := {
  frame_refl : forall w, R w w;
  frame_trans : forall a b c, R a b -> R b c -> R a c;
  frame_emit : forall e w, may e -> R w (emit e w);
  frame_tick : forall w, R w (tick w);
  frame_hash : forall h w, R w (addHash (cachedDownloadID w) h w)
}.

(** A step that stays inside [R], returns only statuses in [allowed], and
    falls through only with values in [val]. *)
Definition stageOk {A} (R : World -> World -> Prop) (allowed : downloadStatus -> Prop)
    (val : A -> World -> Prop) (m : Step A) : Prop :=
  forall w, wp m (fun a w' => R w w' /\ val a w')
               (fun r w' => R w w' /\ allowed (Status r))
               (fun w' => R w w') w.

(** The statuses of the blocks before the write. *)
Definition preStatuses : list downloadStatus :=
  [ downloadFailedInvalidSource; downloadFailedInvalidPath;
    downloadFailedCreatingFolder; downloadFailedDownloadingResponse;
    downloadFailedReadResponse; downloadFailed404;
    downloadSkippedUnpermittedExtension; downloadSkippedUnpermittedDomain;
    downloadSkippedUnpermittedType; downloadSkippedDetectedDuplicate;
    downloadFailedCreatingSubfolder; downloadSkippedDuplicate ].

Definition inPreStatuses (s : downloadStatus) : Prop := In s preStatuses.

(** No condition on the value a step falls through with. *)
Definition anyValue {A} : A -> World -> Prop := fun _ _ => True.
Definition anyResult {A} : A -> Prop := fun _ => True.

(** Two requests that differ at most in [Path] and [Filename], the fields
    the executor reassigns. *)
Definition sameRequest (a b : downloadRequestStruct) : Prop :=
  InputURL a = InputURL b /\ Message_ a = Message_ b /\ FileTime a = FileTime b
  /\ HistoryCmd a = HistoryCmd b /\ EmojiCmd a = EmojiCmd b
  /\ ManualDownload a = ManualDownload b.

(** The test of line 591: is the request processed at all? *)
Definition enrolled {E : Externals} (download : downloadRequestStruct) : bool :=
  stringInSlice (ChannelID (Message_ download)) getAllChannels
  || EmojiCmd download || ManualDownload download.

(** The channel configuration the executor works with (lines 592-597). *)
Definition configOf {E : Externals} (download : downloadRequestStruct)
  : configurationChannel :=
  if isChannelRegistered (ChannelID (Message_ download))
  then getChannelConfig (ChannelID (Message_ download))
  else channelDefault.

(** [bodyOfResp] is a body that the network gave for the URL of the request,
    in a response whose status is not 404. *)
Definition fetched {E : Externals} (download : downloadRequestStruct)
    (bodyOfResp : string) : Prop :=
  exists w response,
    http_Get w (InputURL download) = Responded response
    /\ Body response = inl bodyOfResp /\ StatusCode response <> 404.

(** The executor from the write on (lines 960-1074). *)
Definition fromWrite {E : Externals} (fuel : nat) (download : downloadRequestStruct)
    (channelConfig : configurationChannel) (completePath bodyOfResp : string)
    (thisDownloadID : Z) : Step downloadStatusStruct :=
  writeFile download completePath bodyOfResp ;;;
  storeRecord download completePath ;;;
  react fuel download channelConfig ;;;
  afterSuccess download channelConfig thisDownloadID ;;;
  pure (mDownloadStatus downloadSuccess []).

(** The world a call leaves behind, when it ends at all. *)
Definition worldAfter {R} (o : outcome R) : option World :=
  match o with
  | Returned _ w | Panicked w => Some w
  | Diverged => None
  end.

(** The world after a write that worked: the body is at the path, and the
    change of the file time is recorded when it worked too. *)
Definition written {E : Externals} (download : downloadRequestStruct)
    (completePath bodyOfResp : string) (w w1 : World) : Prop :=
  ioutil_WriteFile_err w completePath = None
  /\ (w1 = setFile completePath bodyOfResp w
      \/ w1 = emit (EvChtimes completePath (FileTime download))
                (setFile completePath bodyOfResp w)).

(** The statuses a call of the executor can return. *)
Definition executorStatuses : list downloadStatus :=
  downloadIgnored :: downloadSuccess :: downloadFailedWritingFile
  :: downloadFailedWritingDatabase :: preStatuses.

(** Two worlds of one call of the executor: the download id is the same,
    and the image store has at most grown, by hashes under that id. *)
Definition sameCall (a b : World) : Prop :=
  cachedDownloadID b = cachedDownloadID a
  /\ exists added, imgStore b = imgStore a ++ added
                   /\ Forall (fun entry => fst entry = cachedDownloadID a) added.

(** Two worlds with the same files and the same database. *)
Definition sameStorage (a b : World) : Prop :=
  db b = db a /\ files b = files a.

(** The user a record is filed under (lines 977-980). *)
Definition recordUser {E : Externals} (download : downloadRequestStruct) : string :=
  match Author (Message_ download) with
  | Some author => user_ID author
  | None => botUserID
  end.

(** ** Statements about the write *)

(** Two worlds with the same database and the same files, but for the file
    of the image store, which a successful download rewrites. *)
Definition sameButStore {E : Externals} (a b : World) : Prop :=
  db b = db a /\ forall p, p <> imgStorePath -> files b !! p = files a !! p.

(** The files [w'] after [bodyOfResp] has been written at [path] in [w]: the
    body is there and every other file is as it was; the file of the image
    store is left out of this. *)
Definition wroteOnly {E : Externals} (path bodyOfResp : string) (w w' : World) : Prop :=
  (path <> imgStorePath -> files w' !! path = Some bodyOfResp)
  /\ (forall p, p <> path -> p <> imgStorePath -> files w' !! p = files w !! p).

(** What a call of the executor that has ended has done to the files and to
    the database; [r] is what it returned, [None] for a panic.  Either it
    has stored nothing, and then it did not return success or the database
    failure.  Or it has written one file, at a path that [os.Stat] did not
    report as existing, with a body that the network gave for the request;
    then the database failed, and the call returned that failure in the
    world the write left; or the record was stored, and the call went on to
    what follows a success, which changes no file but that of the image
    store. *)
Definition storageAfter {E : Externals} (download : downloadRequestStruct) (w : World)
    (r : option downloadStatusStruct) (w' : World) : Prop :=
  (sameStorage w w'
   /\ forall s, r = Some s ->
        Status s <> downloadSuccess /\ Status s <> downloadFailedWritingDatabase)
  \/ exists download' path bodyOfResp w1 w2,
       sameStorage w w1 /\ sameRequest download download'
       /\ os_Stat w1 path <> StatOk /\ fetched download bodyOfResp
       /\ written download' path bodyOfResp w1 w2
       /\ let item := recordFor download' path w2 in
          (exists err,
             dbInsertDownload_err w2 item = Some err
             /\ r = Some {| Status := downloadFailedWritingDatabase; Error := Some err |}
             /\ w' = w2)
          \/ (dbInsertDownload_err w2 item = None
              /\ (r = None \/ r = Some (mDownloadStatus downloadSuccess []))
              /\ sameButStore (addRecord item w2) w').

(** What a call of the executor does that goes on from "Check if exists" in
    the world [w1] with the path [q], the request [download'] and the body
    [bodyOfResp]. *)
Definition writesAt {E : Externals} (fuel : nat) (download : downloadRequestStruct)
    (w : World) (download' : downloadRequestStruct) (bodyOfResp q : string)
    (w1 : World) : Prop :=
  (* the call is the write at [q] and what follows it *)
  tryDownload fuel download w
  = call (fromWrite fuel download' (configOf download) q bodyOfResp
            (cachedDownloadID (nextDownloadID w))) w1
  (* a write that fails ends the call, and nothing is written *)
  /\ (forall err, ioutil_WriteFile_err w1 q = Some err ->
        tryDownload fuel download w
        = Returned {| Status := downloadFailedWritingFile; Error := Some err |} w1)
  (* a write that works puts the body at [q] and leaves the other files as
     they were, however the call ends *)
  /\ (ioutil_WriteFile_err w1 q = None ->
      match tryDownload fuel download w with
      | Returned r w' =>
          (Status r = downloadSuccess \/ Status r = downloadFailedWritingDatabase)
          /\ wroteOnly q bodyOfResp w w'
      | Panicked w' => wroteOnly q bodyOfResp w w'
      | Diverged => True
      end).

(** What a call of the executor does when the blocks before "Check if
    exists" fall through, in the world [w1], with the request [download'],
    the body [bodyOfResp] and the composed path [completePath], and that path
    exists. *)
Definition collisionGuarantee {E : Externals} (fuel : nat)
    (download : downloadRequestStruct) (w : World)
    (download' : downloadRequestStruct) (bodyOfResp completePath : string)
    (w1 : World) : Prop :=
  let channelConfig := configOf download in
  (* up to here no file has been written *)
  files w1 = files w
  (* duplicates are not kept: the call returns "skipped" in that world *)
  /\ (SavePossibleDuplicates channelConfig = false ->
      tryDownload fuel download w
      = Returned {| Status := downloadSkippedDuplicate; Error := None |} w1)
  (* duplicates are kept: the call writes at the path of the first suffix
     that does not exist, a path that holds no file *)
  /\ (SavePossibleDuplicates channelConfig = true ->
      forall n q, 1 <= n < 2 ^ 63 -> (Z.to_nat n <= fuel)%nat ->
        suffixedPath completePath n = Some q ->
        os_Stat w1 q = StatNotExist ->
        (forall j qj, 1 <= j < n -> suffixedPath completePath j = Some qj ->
           os_Stat w1 qj <> StatNotExist) ->
        files w !! q = None
        /\ writesAt fuel download w download' bodyOfResp q w1)
  (* in particular, after the suffixes 1 to N, the suffix N + 1 *)
  /\ (SavePossibleDuplicates channelConfig = true ->
      forall N q, 0 <= N -> N + 1 < 2 ^ 63 -> (Z.to_nat (N + 1) <= fuel)%nat ->
        (forall j qj, 1 <= j <= N -> suffixedPath completePath j = Some qj ->
           os_Stat w1 qj = StatOk) ->
        suffixedPath completePath (N + 1) = Some q ->
        os_Stat w1 q = StatNotExist ->
        files w !! q = None
        /\ writesAt fuel download w download' bodyOfResp q w1)
  (* the suffix goes in front of the extension, when [filepathExtension]
     returns the tail of the path *)
  /\ (forall stem ext i,
        completePath = stem +:+ ext -> filepathExtension completePath = ext ->
        suffixedPath completePath i
        = Some (stem +:+ "-" +:+ strconv_Itoa i +:+ ext))
  (* such a suffix is found, within one step per file, when [os.Stat] does
     not fail and no suffixed path names a directory *)
  /\ (SavePossibleDuplicates channelConfig = true ->
      (forall q, os_Stat_err w1 q = false) ->
      (forall j q, suffixedPath completePath j = Some q -> os_Stat_dir w1 q = false) ->
      (strLen (filepathExtension completePath) <= strLen completePath)%nat ->
      Z.of_nat (size (files w)) + 1 < 2 ^ 63 ->
      (size (files w) < fuel)%nat ->
      exists n q, 1 <= n <= Z.of_nat (size (files w)) + 1
        /\ suffixedPath completePath n = Some q
        /\ os_Stat w1 q = StatNotExist
        /\ writesAt fuel download w download' bodyOfResp q w1).

(** What every call of the executor that returns has done about a path that
    exists: returning "skipped duplicate" it has written nothing; returning
    success or the database failure it has written one file, at a path that
    [os.Stat] did not report as existing. *)
Definition neverReuses {E : Externals} : Prop :=
  forall fuel download w r w',
    tryDownload fuel download w = Returned r w' ->
    (Status r = downloadSkippedDuplicate -> files w' = files w)
    /\ (Status r = downloadSuccess \/ Status r = downloadFailedWritingDatabase ->
        exists path bodyOfResp w1,
          files w1 = files w /\ os_Stat w1 path <> StatOk
          /\ wroteOnly path bodyOfResp w w').

(** What a call of the executor does when it reaches the write with the path
    [completePath], the write works and leaves the world [w2], and the
    database then refuses the record with [err]. *)
Definition sinkFailureGuarantee {E : Externals} (fuel : nat)
    (download : downloadRequestStruct) (w : World) (bodyOfResp completePath : string)
    (w2 : World) (err : error) : Prop :=
  (* the call returns the database failure, with the error of the database,
     in the world the write left: no later block has run *)
  tryDownload fuel download w
  = Returned {| Status := downloadFailedWritingDatabase; Error := Some err |} w2
  (* the file is on disk, every other path is as it was, no record is kept *)
  /\ files w2 !! completePath = Some bodyOfResp
  /\ (forall p, p <> completePath -> files w2 !! p = files w !! p)
  /\ db w2 = db w.

(** What every call of the executor that returns the database failure has
    done: it has written one file, with a body the network gave for the
    request, the database has refused the record with the error the call
    returns, and nothing else is changed in the files and the database. *)
Definition sinkFailureOnly {E : Externals} : Prop :=
  forall fuel download w r w',
    tryDownload fuel download w = Returned r w' ->
    Status r = downloadFailedWritingDatabase ->
    exists download' path bodyOfResp w2 err,
      fetched download bodyOfResp
      /\ dbInsertDownload_err w2 (recordFor download' path w2) = Some err
      /\ Error r = Some err /\ w' = w2
      /\ files w' = <[path := bodyOfResp]> (files w)
      /\ db w' = db w.

(** ** Statements about [startDownload] as a whole *)

(** The actions of [startDownload] itself among the recorded ones. *)
Definition controllerAction (e : Effect) : bool :=
  match e with
  | EvSleep _ | EvFailureNotice _ _ _ _ _ _ | EvLogErrorMessage _ _ => true
  | _ => false
  end.

Definition controllerTrace (w : World) : list Effect :=
  List.filter controllerAction (effects w).

(** The most that is reported of a final status: the notice in the channel,
    then the line in the error log. *)
Definition failureReport {E : Externals} (download : downloadRequestStruct)
    (status : downloadStatusStruct) : list Effect :=
  match Author (Message_ download) with
  | Some author =>
      [ EvFailureNotice (ChannelID (Message_ download)) (user_ID author)
          (InputURL download) (DownloadRetryMax config) (Status status) (Error status) ]
  | None => []
  end
  ++ match Error status with
     | Some err => [ EvLogErrorMessage (Status status) err ]
     | None => []
     end.

(** When anything is reported at all (line 436 and line 439). *)
Definition reportable {E : Externals} (download : downloadRequestStruct)
    (status : downloadStatusStruct) : Prop :=
  status_geb (Status status) downloadFailed = true
  /\ HistoryCmd download = false /\ EmojiCmd download = false
  /\ isChannelRegistered (ChannelID (Message_ download)) = true.

(** Every file of [a] is in [b], with a content that starts with the
    content it had. *)
Definition filesExtended (a b : World) : Prop :=
  forall path content, files a !! path = Some content ->
    exists more, files b !! path = Some (content +:+ more).

(** The same for every file but the one the image store is kept in. *)
Definition keptButStore {E : Externals} (a b : World) : Prop :=
  forall path content, path <> imgStorePath -> files a !! path = Some content ->
    exists more, files b !! path = Some (content +:+ more).

(** Two worlds that differ at most in the seed of the random numbers. *)
Definition onlySeeded (a b : World) : Prop :=
  files b = files a /\ db b = db a /\ imgStore b = imgStore a
  /\ cachedDownloadID b = cachedDownloadID a /\ effects b = effects a.

(** An emoji of the guild that the reaction may be: not animated, not
    blacklisted. *)
Definition eligibleEmoji {E : Externals} (guild : Guild) (blacklist : list string)
    (reaction : string) : Prop :=
  exists emoji, In emoji (Emojis guild) /\ APIName emoji = reaction
                /\ Animated emoji = false /\ stringInSlice reaction blacklist = false.

(** ** Panics *)

(** A step that never panics, and falls through only with values in
    [val]. *)
Definition neverPanics {A} (val : A -> Prop) (m : Step A) : Prop :=
  forall w, wp m (fun a _ => val a) (fun _ _ => True) (fun _ => False) w.

(** What the executor relies on without checking it, for one request:
    [http.NewRequest] accepts the URL; a [Content-Disposition] header that is
    present has a value; the host name of the URL can be read when a domain
    filter is configured; [filepathExtension] gives no more than the path it
    is given; and [rand.Intn(n)] stays below [n]. *)
Record wellBehaved {E : Externals} (download : downloadRequestStruct) : Prop := {
  request_is_built : forall w err,
    http_Get w (InputURL download) <> NewRequestError err;
  disposition_has_a_value : forall w response,
    http_Get w (InputURL download) = Responded response ->
    Header response !! "Content-Disposition" <> Some [];
  hostname_is_read :
    (AllowedDomains (Filters (configOf download)) = None
     /\ BlockedDomains (Filters (configOf download)) = None)
    \/ url_Hostname (InputURL download) <> None;
  extension_fits : forall path, (strLen (filepathExtension path) <= strLen path)%nat;
  random_in_range : forall seed n, 0 < n -> 0 <= rand_Intn seed n < n
}.

(** The folder of each content type (lines 893-905). *)
Definition typeFolders : list (string * string) :=
  [ ("image", "images"); ("video", "videos"); ("audio", "audio");
    ("text", "text"); ("application", "applications") ].

(** What a call that returned [r] has done to the database: on success one
    record, for the request and for the file; otherwise nothing.  The file
    holds the body, unless it is the file of the image store, which the
    success has rewritten. *)
Definition recorded {E : Externals} (download : downloadRequestStruct) (w : World)
    (r : downloadStatusStruct) (w' : World) : Prop :=
  (Status r = downloadSuccess ->
     exists item body,
       db w' = db w ++ [item]
       /\ item_URL item = InputURL download
       /\ item_ChannelID item = ChannelID (Message_ download)
       /\ item_UserID item = recordUser download
       /\ (item_Destination item <> imgStorePath ->
           files w' !! item_Destination item = Some body)
       /\ fetched download body)
  /\ (Status r <> downloadSuccess -> db w' = db w).

(** ** What follows a success *)

(** The only action of the blocks before the write: creating a directory. *)
Definition setupAction (e : Effect) : Prop :=
  match e with
  | EvMkdirAll _ => True
  | _ => False
  end.

(** The reaction, the presence update and the saving of the image store. *)
Definition followUp (e : Effect) : bool :=
  match e with
  | EvReactionAdd _ _ _ | EvUpdatePresence | EvPersistImgStore _ => true
  | _ => false
  end.

Definition followUps (w : World) : list Effect := List.filter followUp (effects w).

(** What may follow a success, in this order and each at most once: a
    reaction to the message of the request, for a message with an author
    and with the permission to react; the presence update, outside history
    commands; the saving of the image store. *)
Definition celebration {E : Externals} (download : downloadRequestStruct)
    (l : list Effect) : Prop :=
  exists reaction store,
    sublist l [ EvReactionAdd (ChannelID (Message_ download)) (msg_ID (Message_ download))
                  reaction;
                EvUpdatePresence; EvPersistImgStore store ]
    /\ (In (EvReactionAdd (ChannelID (Message_ download)) (msg_ID (Message_ download))
              reaction) l ->
        Author (Message_ download) <> None
        /\ hasPerms (ChannelID (Message_ download)) "AddReactions" = true)
    /\ (HistoryCmd download = true -> ~ In EvUpdatePresence l).

(** * Properties *)

(** ** The order of the statuses *)

Lemma statusCode_inj (a b : downloadStatus) : statusCode a = statusCode b -> a = b.
Proof. destruct a, b; simpl; intros H; first [reflexivity | discriminate H]. Qed.

Lemma allStatuses_complete (s : downloadStatus) : In s allStatuses.
Proof. destruct s; simpl; tauto. Qed.

(** C1.  The codes of the statuses are totally ordered, in the order Success
    < Ignored < every Skipped reason < every Failed reason, and the test that
    ends the retry loop reads nothing but that order: it holds exactly of the
    statuses below [downloadFailed] and of [downloadFailed404], it fails
    exactly of the other failures, and any renumbering of the statuses that
    keeps the order gives the same decision. *)
Theorem status_order_and_retry_decision :
  statusCode downloadSuccess < statusCode downloadIgnored
  /\ Forall (fun s => statusCode downloadIgnored < statusCode s) skippedVariants
  /\ Forall (fun s => Forall (fun f => statusCode s < statusCode f) failedVariants)
       skippedVariants
  /\ (forall a b : downloadStatus,
        statusCode a < statusCode b \/ a = b \/ statusCode b < statusCode a)
  /\ (forall s : downloadStatus,
        stopsRetry s = true
        <-> statusCode s < statusCode downloadFailed
            \/ statusCode s = statusCode downloadFailed404)
  /\ (forall s : downloadStatus,
        stopsRetry s = false <-> In s failedVariants /\ s <> downloadFailed404)
  /\ (forall rank : downloadStatus -> Z,
        (forall a b, statusCode a < statusCode b <-> rank a < rank b) ->
        forall s, stopsRetry s
                  = (rank s <? rank downloadFailed) || (rank s =? rank downloadFailed404)).
Proof.
  split; [ reflexivity | ].
  split; [ repeat constructor | ].
  split; [ repeat constructor | ].
  split.
  { intros a b.
    destruct (Z.lt_trichotomy (statusCode a) (statusCode b)) as [H | [H | H]];
      [ left; exact H | right; left; apply statusCode_inj; exact H | right; right; exact H ]. }
  split.
  { intros s. unfold stopsRetry, status_ltb, status_eqb.
    rewrite orb_true_iff, Z.ltb_lt, Z.eqb_eq. reflexivity. }
  split.
  { intros s. split.
    - destruct s; simpl; intros H; try discriminate H;
        (split; [ tauto | discriminate ]).
    - intros [Hin Hne]. destruct s; try reflexivity;
        solve [ exfalso; apply Hne; reflexivity
              | exfalso; simpl in Hin; intuition discriminate ]. }
  intros rank Hrank s. unfold stopsRetry, status_ltb, status_eqb.
  f_equal.
  - apply eq_true_iff_eq. rewrite !Z.ltb_lt. apply Hrank.
  - apply eq_true_iff_eq. rewrite !Z.eqb_eq.
    pose proof (Hrank s downloadFailed404) as H1.
    pose proof (Hrank downloadFailed404 s) as H2.
    lia.
Qed.

(** ** Arithmetic and tactics *)

Lemma wrapInt_small (z : Z) : - 2 ^ 63 <= z < 2 ^ 63 -> wrapInt z = z.
Proof. intros H. unfold wrapInt. rewrite Z.mod_small; lia. Qed.

Ltac unfold_step :=
  unfold bindM, pure, modify, getWorld, when_, panic, fail, returnWith in *.

(** Splits on the scrutinee of the outermost [match] or [if] of the goal. *)
Ltac case_scrutinee :=
  match goal with
  | |- context [match ?x with _ => _ end] =>
      lazymatch x with
      | context [match _ with _ => _ end] => fail
      | _ => destruct x eqn:?
      end
  end.

Ltac crunch := repeat (unfold_step; simpl; try case_scrutinee); simpl; auto.

(** ** The executor, block by block, inside a frame *)

Lemma wp_bind {A B} (m : Step A) (k : A -> Step B) Qn Qr Qp w :
  wp (bindM m k) Qn Qr Qp w = wp m (fun a w1 => wp (k a) Qn Qr Qp w1) Qr Qp w.
Proof. unfold wp, bindM. destruct (m w); reflexivity. Qed.

Lemma wp_mono {A} (m : Step A) (Qn Qn' : A -> World -> Prop) (Qr Qr' : _ -> World -> Prop)
    (Qp Qp' : World -> Prop) w :
  wp m Qn Qr Qp w ->
  (forall a w', Qn a w' -> Qn' a w') -> (forall r w', Qr r w' -> Qr' r w') ->
  (forall w', Qp w' -> Qp' w') ->
  wp m Qn' Qr' Qp' w.
Proof. unfold wp. destruct (m w); auto. Qed.

Section Stages.
Context {E : Externals}.
Variable may : Effect -> Prop.
Variable R : World -> World -> Prop.
Hypothesis HR : Frame may R.
Hypothesis Hsetup : forall path, may (EvMkdirAll path).
Hypothesis Hfull : forall e, executorAction e -> may e.

Lemma stageOk_bind {A B} allowed (v1 : A -> World -> Prop) (v2 : B -> World -> Prop)
    (m : Step A) (k : A -> Step B) :
  stageOk R allowed v1 m -> (forall a, stageOk R allowed v2 (k a)) ->
  stageOk R allowed v2 (bindM m k).
Proof.
  intros Hm Hk w. rewrite wp_bind. apply (wp_mono _ _ _ _ _ _ _ _ (Hm w)); auto.
  intros a w1 [Hw _]. apply (wp_mono _ _ _ _ _ _ _ _ (Hk a w1)).
  - intros b w' [Hw' Hv]. split; [ eapply frame_trans; eauto | exact Hv ].
  - intros r w' [Hw' Hv]. split; [ eapply frame_trans; eauto | exact Hv ].
  - intros w' Hw'. eapply frame_trans; eauto.
Qed.

Lemma stageOk_pure {A} allowed (val : A -> World -> Prop) (a : A) :
  (forall w, val a w) -> stageOk R allowed val (pure a).
Proof. intros Hv w. split; [ apply (frame_refl may R HR) | apply Hv ]. Qed.

Lemma stageOk_getWorld allowed : stageOk R allowed (fun _ _ => True) getWorld.
Proof. intros w. split; [ apply (frame_refl may R HR) | exact I ]. Qed.

Lemma stageOk_panic {A} allowed (val : A -> World -> Prop) :
  stageOk R allowed val (@panic downloadStatusStruct A).
Proof. intros w. apply (frame_refl may R HR). Qed.

Lemma stageOk_fail {A} (allowed : downloadStatus -> Prop) (val : A -> World -> Prop)
    status errs :
  allowed status -> stageOk R allowed val (@fail A status errs).
Proof.
  intros Hs w. unfold fail, returnWith, wp. split; [ apply (frame_refl may R HR) | ].
  destruct errs; exact Hs.
Qed.

Lemma stageOk_emit allowed (e : Effect) :
  may e -> stageOk R allowed (fun _ _ => True) (modify (emit e)).
Proof. intros He w. split; [ apply (frame_emit may R HR), He | exact I ]. Qed.

Lemma stageOk_when allowed (c : bool) (m : Step unit) :
  stageOk R allowed (fun _ _ => True) m ->
  stageOk R allowed (fun _ _ => True) (when_ c m).
Proof. intros Hm. destruct c; [ exact Hm | apply stageOk_pure; auto ]. Qed.

Ltac stage :=
  repeat first
    [ apply stageOk_pure; intros; exact I
    | apply stageOk_getWorld
    | apply stageOk_panic
    | apply stageOk_fail; simpl; tauto
    | apply stageOk_emit; first [ apply Hsetup | apply Hfull; exact I ]
    | apply stageOk_when
    | apply (stageOk_bind _ (fun _ _ => True)); [ | intros ? ]
    | match goal with
      | |- stageOk _ _ _ (match ?x with _ => _ end) => destruct x
      | |- stageOk _ _ _ (let _ := _ in _) => cbv zeta
      end ].

Lemma validateSource_ok download : stageOk R inPreStatuses anyValue (validateSource download).
Proof. unfold validateSource, inPreStatuses, anyValue. stage. Qed.

Lemma cleanPath_ok download :
  stageOk R inPreStatuses (fun d _ => sameRequest download d) (cleanPath download).
Proof.
  unfold cleanPath, inPreStatuses.
  destruct (_ || _); [ apply stageOk_fail; simpl; tauto | ].
  destruct (negb _); apply stageOk_pure; intros; repeat split.
Qed.

Lemma mkdirAll_ok path status :
  inPreStatuses status -> stageOk R inPreStatuses anyValue (mkdirAll path status).
Proof.
  intros Hs. unfold mkdirAll, anyValue.
  apply (stageOk_bind _ (fun _ _ => True)); [ apply stageOk_getWorld | intros w0 ].
  apply (stageOk_bind _ (fun _ _ => True)); [ apply stageOk_emit, Hsetup | intros _ ].
  destruct (os_MkdirAll_err w0 path);
    [ apply stageOk_fail; exact Hs | apply stageOk_pure; intros; exact I ].
Qed.

Lemma request_ok download :
  stageOk R inPreStatuses (fun resp _ => fetched download (snd resp)) (request download).
Proof.
  unfold request, inPreStatuses. intros w. unfold wp, bindM, getWorld.
  destruct (http_Get w (InputURL download)) as [err | err | response] eqn:Hget.
  - apply (frame_refl may R HR).
  - split; [ apply (frame_refl may R HR) | simpl; tauto ].
  - destruct (Body response) as [bodyOfResp | err] eqn:Hbody.
    + destruct (Z.eqb_spec (StatusCode response) 404) as [H404 | H404].
      * split; [ apply (frame_refl may R HR) | simpl; tauto ].
      * split; [ apply (frame_refl may R HR) | ].
        exists w, response. auto.
    + split; [ apply (frame_refl may R HR) | simpl; tauto ].
Qed.

Lemma chooseFilename_ok download response :
  stageOk R inPreStatuses (fun d _ => sameRequest download d) (chooseFilename download response).
Proof.
  unfold chooseFilename, inPreStatuses.
  repeat match goal with
         | |- stageOk _ _ _ (match ?x with _ => _ end) => destruct x
         | |- stageOk _ _ _ (let _ := _ in _) => cbv zeta
         end;
    first [ apply stageOk_panic | apply stageOk_pure; intros; repeat split ].
Qed.

Lemma checkExtension_ok channelConfig extension :
  stageOk R inPreStatuses anyValue (checkExtension channelConfig extension).
Proof. unfold checkExtension, inPreStatuses, anyValue. stage. Qed.

Lemma checkDomain_ok channelConfig parsedHost :
  stageOk R inPreStatuses anyValue (checkDomain channelConfig parsedHost).
Proof. unfold checkDomain, inPreStatuses, anyValue. stage. Qed.

Lemma checkContentType_ok channelConfig contentTypeFound :
  stageOk R inPreStatuses anyValue (checkContentType channelConfig contentTypeFound).
Proof. unfold checkContentType, inPreStatuses, anyValue. stage. Qed.

Lemma duplicateImageFilter_ok bodyOfResp extension contentTypeFound :
  stageOk R inPreStatuses anyValue (duplicateImageFilter bodyOfResp extension contentTypeFound).
Proof.
  unfold duplicateImageFilter, inPreStatuses, anyValue.
  destruct (_ && _); [ | stage ].
  destruct (image_Decode bodyOfResp) as [img |]; [ | stage ].
  cbv zeta. intros w. unfold wp, bindM, getWorld.
  destruct (anyScoreBelow _ _).
  - split; [ apply (frame_refl may R HR) | simpl; tauto ].
  - split; [ apply (frame_hash may R HR) | exact I ].
Qed.

Lemma addSubfolder_ok download subfolder subfolderSuffix :
  stageOk R inPreStatuses anyValue (addSubfolder download subfolder subfolderSuffix).
Proof.
  unfold addSubfolder, anyValue. destruct (negb _); [ | stage ].
  cbv zeta. apply (stageOk_bind _ (fun _ _ => True)); [ | intros _; stage ].
  apply mkdirAll_ok. unfold inPreStatuses. simpl. tauto.
Qed.

Lemma buildSubfolder_ok download channelConfig sourceName sourceChannelName ctf :
  stageOk R inPreStatuses anyValue (buildSubfolder download channelConfig sourceName sourceChannelName ctf).
Proof.
  unfold buildSubfolder, anyValue. cbv zeta.
  apply (stageOk_bind _ (fun _ _ => True)).
  - destruct (Author (Message_ download)) as [author |]; [ | stage ].
    apply (stageOk_bind _ (fun _ _ => True));
      [ destruct (DivideFoldersByServer channelConfig);
        [ apply addSubfolder_ok | stage ] | intros s1 ].
    apply (stageOk_bind _ (fun _ _ => True));
      [ destruct (DivideFoldersByChannel channelConfig);
        [ apply addSubfolder_ok | stage ] | intros s2 ].
    destruct (DivideFoldersByUser channelConfig);
      [ apply addSubfolder_ok | stage ].
  - intros s. destruct (_ && _); [ apply addSubfolder_ok | stage ].
Qed.

Lemma composePath_ok download channelConfig subfolder :
  stageOk R inPreStatuses anyValue (composePath download channelConfig subfolder).
Proof. unfold composePath, inPreStatuses, anyValue. stage. Qed.

(** The path the probe comes back with is one that [os.Stat] does not report
    as existing. *)
Lemma probeFreePath_ok fuel : forall tmpPath i,
  stageOk R inPreStatuses (fun p w' => os_Stat w' p = StatNotExist) (probeFreePath fuel tmpPath i).
Proof.
  induction fuel as [| fuel IH]; intros tmpPath i; simpl.
  - intros w. exact I.
  - destruct (suffixedPath tmpPath i) as [p |]; [ | apply stageOk_panic ].
    intros w. unfold wp, bindM, getWorld.
    destruct (os_Stat w p) eqn:Hstat; try apply IH.
    split; [ apply (frame_refl may R HR) | exact Hstat ].
Qed.

Lemma resolveCollision_ok fuel channelConfig completePath :
  stageOk R inPreStatuses (fun p w' => os_Stat w' p <> StatOk)
    (resolveCollision fuel channelConfig completePath).
Proof.
  intros w. unfold resolveCollision, wp, bindM, getWorld.
  destruct (os_Stat w completePath) eqn:Hstat.
  - destruct (SavePossibleDuplicates channelConfig).
    + pose proof (probeFreePath_ok fuel completePath 1 w) as H. unfold wp in H.
      destruct (probeFreePath fuel completePath 1 w); try exact H.
      destruct H as [HRw Hs]. split; [ exact HRw | congruence ].
    + split; [ apply (frame_refl may R HR) | unfold inPreStatuses; simpl; tauto ].
  - split; [ apply (frame_refl may R HR) | congruence ].
  - split; [ apply (frame_refl may R HR) | congruence ].
Qed.

(** The reaction and what follows it fall through or panic, inside the
    frame. *)
Lemma pickRandomEmoji_ok allowed fuel emojis blacklist :
  stageOk R allowed anyValue (pickRandomEmoji fuel emojis blacklist).
Proof.
  unfold anyValue. induction fuel as [| fuel IH]; simpl; [ intros w; exact I | ].
  apply (stageOk_bind _ (fun _ _ => True)); [ apply stageOk_getWorld | intros w0 ].
  apply (stageOk_bind _ (fun _ _ => True));
    [ intros w; split; [ apply (frame_tick may R HR) | exact I ] | intros _ ].
  destruct (_ && _); [ | apply stageOk_panic ].
  destruct (emojis !! _); [ | apply stageOk_panic ].
  destruct (_ && _); [ apply stageOk_pure; intros; exact I | exact IH ].
Qed.

Lemma react_ok allowed fuel download channelConfig :
  stageOk R allowed anyValue (react fuel download channelConfig).
Proof.
  unfold react, anyValue. cbv zeta. destruct (_ && _); [ | stage ].
  apply (stageOk_bind _ (fun _ _ => True)).
  - unfold chooseReaction, anyValue. cbv zeta.
    destruct (String.eqb _ _); [ | stage ].
    destruct (negb _); [ | stage ].
    destruct (State_Guild _); [ | stage ].
    destruct (_ <? _)%nat; [ apply pickRandomEmoji_ok | stage ].
  - intros reaction. stage.
Qed.

(** The image store goes to its own file: a frame that lets that file
    change keeps the blocks after the reaction too. *)
Hypothesis Hstore : forall content w, R w (setFile imgStorePath content w).

Lemma persistImgStore_ok allowed : stageOk R allowed anyValue persistImgStore.
Proof.
  assert (Hset : forall content,
            stageOk R allowed (fun _ _ => True) (modify (setFile imgStorePath content))).
  { intros content w. split; [ apply Hstore | exact I ]. }
  unfold persistImgStore, anyValue.
  apply (stageOk_bind _ (fun _ _ => True)); [ apply stageOk_getWorld | intros w0 ].
  apply (stageOk_bind _ (fun _ _ => True));
    [ apply stageOk_emit, Hfull; exact I | intros _ ].
  destruct (imgStore_GobEncode (imgStore w0)) as [encodedStore | err];
    [ | apply stageOk_pure; intros; exact I ].
  destruct (os_OpenFile_err w0 imgStorePath); [ apply stageOk_pure; intros; exact I | ].
  apply (stageOk_bind _ (fun _ _ => True)); [ apply Hset | intros _ ].
  apply (stageOk_bind _ (fun _ _ => True)); [ apply stageOk_getWorld | intros w1 ].
  apply stageOk_when, Hset.
Qed.

Lemma afterSuccess_ok allowed download channelConfig thisDownloadID :
  stageOk R allowed anyValue (afterSuccess download channelConfig thisDownloadID).
Proof.
  unfold afterSuccess, anyValue.
  apply (stageOk_bind _ (fun _ _ => True)); [ stage | intros _ ].
  apply stageOk_when, persistImgStore_ok.
Qed.

End Stages.

Lemma sameRequest_refl d : sameRequest d d.
Proof. repeat split. Qed.

Lemma sameRequest_trans a b c : sameRequest a b -> sameRequest b c -> sameRequest a c.
Proof. unfold sameRequest. intuition congruence. Qed.

Lemma sameRequest_fixFilenameExtension {E : Externals} d contentType :
  sameRequest d (fixFilenameExtension d contentType).
Proof.
  unfold fixFilenameExtension. destruct (String.eqb _ _); [ | apply sameRequest_refl ].
  destruct (mime_ExtensionsByType contentType); repeat split.
Qed.

(** The body of [tryDownload] is [composeDestination], then "Check if
    exists", then the write and what follows it. *)
Lemma tryDownloadBody_split {E : Externals} fuel download w :
  tryDownloadBody fuel download w
  = (modify nextDownloadID ;;;
     w0 <~ getWorld ;;
     if enrolled download then
       prepared <~ composeDestination download (configOf download) ;;
       completePath <~ resolveCollision fuel (configOf download) (snd prepared) ;;
       fromWrite fuel (fst (fst prepared)) (configOf download) completePath
         (snd (fst prepared)) (cachedDownloadID w0)
     else pure (mDownloadStatus downloadIgnored [])) w.
Proof.
  cbv beta iota zeta
    delta [tryDownloadBody composeDestination fromWrite enrolled configOf
           bindM modify getWorld pure fst snd].
  repeat case_scrutinee; reflexivity.
Qed.

Section ExecutorShape.
Context {E : Externals}.
Variable may : Effect -> Prop.
Variable R : World -> World -> Prop.
Hypothesis HR : Frame may R.
Hypothesis Hsetup : forall path, may (EvMkdirAll path).

(** One block of the executor: its [return]s and its panics are accounted
    for, and the proof goes on with what follows it. *)
Ltac advance HR Hsetup Hcum HQr HQp lemma :=
  rewrite wp_bind;
  eapply wp_mono;
    [ eapply lemma; first [ exact HR | exact Hsetup ] | cbv beta | cbv beta | cbv beta ];
  [ let a := fresh "a" in
    let w := fresh "w" in
    let Hs := fresh "Hstep" in
    let Hv := fresh "Hv" in
    let Hn := fresh "Hnew" in
    intros a w [Hs Hv];
    pose proof (frame_trans _ _ HR _ _ _ Hcum Hs) as Hn; clear Hcum Hs; rename Hn into Hcum
  | let Hs := fresh in
    let Hal := fresh in
    intros ? ? [Hs Hal];
    apply HQr; [ exact (frame_trans _ _ HR _ _ _ Hcum Hs) | exact Hal ]
  | let Hs := fresh in
    intros ? Hs; apply HQp; exact (frame_trans _ _ HR _ _ _ Hcum Hs) ].

(** The blocks before "Check if exists": they return early with a status
    of theirs, or panic, or fall through with a request that differs from
    the given one at most in path and file name and with a body that the
    network gave; and up to there the world stays inside the frame. *)
Lemma composeDestination_wp download channelConfig
    (Qn : downloadRequestStruct * string * string -> World -> Prop) Qr Qp w :
  (forall r w', R w w' -> In (Status r) preStatuses -> Qr r w') ->
  (forall w', R w w' -> Qp w') ->
  (forall download' bodyOfResp completePath w1,
     R w w1 -> sameRequest download download' -> fetched download bodyOfResp ->
     Qn (download', bodyOfResp, completePath) w1) ->
  wp (composeDestination download channelConfig) Qn Qr Qp w.
Proof.
  intros HQr HQp Htail. unfold composeDestination.
  pose proof (frame_refl may R HR w) as Hcum.
  advance HR Hsetup Hcum HQr HQp validateSource_ok.
  advance HR Hsetup Hcum HQr HQp cleanPath_ok.
  rewrite wp_bind.
  eapply wp_mono;
    [ apply (mkdirAll_ok may R HR Hsetup); unfold inPreStatuses; simpl; tauto
    | cbv beta | cbv beta | cbv beta ];
    [ intros [] w3 [Hstep _];
      pose proof (frame_trans may R HR _ _ _ Hcum Hstep) as Hnew; clear Hcum Hstep;
      rename Hnew into Hcum
    | intros r w' [Hs Hal]; apply HQr;
      [ exact (frame_trans _ _ HR _ _ _ Hcum Hs) | exact Hal ]
    | intros w' Hs; apply HQp; exact (frame_trans _ _ HR _ _ _ Hcum Hs) ].
  advance HR Hsetup Hcum HQr HQp request_ok.
  advance HR Hsetup Hcum HQr HQp chooseFilename_ok.
  advance HR Hsetup Hcum HQr HQp checkExtension_ok.
  advance HR Hsetup Hcum HQr HQp checkDomain_ok.
  advance HR Hsetup Hcum HQr HQp checkContentType_ok.
  advance HR Hsetup Hcum HQr HQp duplicateImageFilter_ok.
  advance HR Hsetup Hcum HQr HQp buildSubfolder_ok.
  advance HR Hsetup Hcum HQr HQp composePath_ok.
  unfold wp, pure. apply Htail; [ assumption | | ].
  - eapply sameRequest_trans; [ eassumption | ].
    eapply sameRequest_trans; [ eassumption | apply sameRequest_fixFilenameExtension ].
  - match goal with
    | Hs : sameRequest download ?d, Hf : fetched ?d _ |- _ =>
        destruct Hf as (wq & response & Hget & Hbody & H404);
        exists wq, response; destruct Hs as [Hurl _]; rewrite Hurl; auto
    end.
Qed.

(** The executor, seen from outside: a request that is not enrolled is
    ignored at once; an enrolled one returns early with a status of the
    blocks before the write, or panics, or reaches the write with a request
    that differs from the given one at most in path and file name and with
    a path that [os.Stat] did not report as existing; and up to there the
    world stays inside the frame. *)
Lemma tryDownloadBody_wp fuel download Qn Qr Qp w :
  (enrolled download = false ->
     Qn (mDownloadStatus downloadIgnored []) (nextDownloadID w)) ->
  (enrolled download = true ->
     (forall r w', R (nextDownloadID w) w' -> In (Status r) preStatuses -> Qr r w')
     /\ (forall w', R (nextDownloadID w) w' -> Qp w')
     /\ (forall download' completePath bodyOfResp w1,
           R (nextDownloadID w) w1 -> sameRequest download download' ->
           os_Stat w1 completePath <> StatOk -> fetched download bodyOfResp ->
           wp (fromWrite fuel download' (configOf download) completePath bodyOfResp
                 (cachedDownloadID (nextDownloadID w))) Qn Qr Qp w1)) ->
  wp (tryDownloadBody fuel download) Qn Qr Qp w.
Proof.
  intros Hignored Henrolled.
  unfold wp at 1. rewrite tryDownloadBody_split.
  change (wp (modify nextDownloadID ;;;
              w0 <~ getWorld ;;
              if enrolled download then
                prepared <~ composeDestination download (configOf download) ;;
                completePath <~ resolveCollision fuel (configOf download) (snd prepared) ;;
                fromWrite fuel (fst (fst prepared)) (configOf download) completePath
                  (snd (fst prepared)) (cachedDownloadID w0)
              else pure (mDownloadStatus downloadIgnored [])) Qn Qr Qp w).
  rewrite wp_bind. unfold wp at 1, modify.
  rewrite wp_bind. unfold wp at 1, getWorld.
  set (w0 := nextDownloadID w) in *.
  destruct (enrolled download); [ | exact (Hignored eq_refl) ].
  destruct (Henrolled eq_refl) as (HQr & HQp & Htail). clear Hignored Henrolled.
  rewrite wp_bind. apply composeDestination_wp; [ exact HQr | exact HQp | ].
  intros download' bodyOfResp completePath w1 Hcum Hsame Hfetched. cbn [fst snd].
  advance HR Hsetup Hcum HQr HQp resolveCollision_ok.
  apply Htail; assumption.
Qed.

End ExecutorShape.

(** ** The executor from the write on *)

Lemma writeFile_written {E : Externals} download completePath bodyOfResp w :
  match writeFile download completePath bodyOfResp w with
  | Next _ w1 => written download completePath bodyOfResp w w1
  | Return r w' =>
      w' = w /\ exists err, ioutil_WriteFile_err w completePath = Some err
                /\ r = {| Status := downloadFailedWritingFile; Error := Some err |}
  | Panic _ | Hang => False
  end.
Proof.
  unfold writeFile, written, bindM, getWorld, modify, when_, fail, returnWith, pure.
  destruct (ioutil_WriteFile_err w completePath) as [err |].
  - split; [ reflexivity | ]. exists err. split; reflexivity.
  - destruct (os_Chtimes_ok _ _); split; auto.
Qed.

(** From the write on: the write fails and nothing has changed; or the
    database fails and the world is the one the write left; or the record is
    stored, and what follows stays inside the frame and can only end the
    call with success or panic. *)
Lemma fromWrite_wp {E : Externals} R (HR : Frame executorAction R)
    (Hstore : forall content w, R w (setFile imgStorePath content w))
    fuel download channelConfig completePath bodyOfResp id Qn Qr Qp w :
  (forall err, ioutil_WriteFile_err w completePath = Some err ->
     Qr {| Status := downloadFailedWritingFile; Error := Some err |} w) ->
  (forall w1, written download completePath bodyOfResp w w1 ->
     (forall err, dbInsertDownload_err w1 (recordFor download completePath w1) = Some err ->
        Qr {| Status := downloadFailedWritingDatabase; Error := Some err |} w1)
     /\ (dbInsertDownload_err w1 (recordFor download completePath w1) = None ->
         forall w', R (addRecord (recordFor download completePath w1) w1) w' ->
           Qn (mDownloadStatus downloadSuccess []) w' /\ Qp w')) ->
  wp (fromWrite fuel download channelConfig completePath bodyOfResp id) Qn Qr Qp w.
Proof.
  intros Hwf Htail. unfold fromWrite. rewrite wp_bind. unfold wp at 1.
  pose proof (writeFile_written download completePath bodyOfResp w) as Hw.
  destruct (writeFile download completePath bodyOfResp w) as [[] w1 | r w' | |];
    [ | | contradiction | exact I ].
  2:{ destruct Hw as (-> & err & Herr & ->). apply Hwf, Herr. }
  destruct (Htail w1 Hw) as [Hdb Hok]. clear Htail Hwf.
  cbv beta. rewrite wp_bind. unfold wp at 1.
  assert (Hst : storeRecord download completePath w1
                = match dbInsertDownload_err w1 (recordFor download completePath w1) with
                  | Some err => Return (mDownloadStatus downloadFailedWritingDatabase [Some err]) w1
                  | None => Next tt (addRecord (recordFor download completePath w1) w1)
                  end).
  { unfold storeRecord, bindM, getWorld, fail, returnWith, modify. cbv zeta.
    destruct (dbInsertDownload_err _ _); reflexivity. }
  rewrite Hst. clear Hst.
  destruct (dbInsertDownload_err w1 (recordFor download completePath w1)) as [err |] eqn:Hins.
  { apply Hdb. reflexivity. }
  specialize (Hok eq_refl).
  set (w2 := addRecord _ w1) in *.
  rewrite wp_bind.
  eapply wp_mono; [ apply (react_ok executorAction R HR (fun _ H => H) (fun _ => False)) | cbv beta .. ].
  2:{ intros r w' [_ []]. }
  2:{ intros w' Hs. apply Hok, Hs. }
  intros [] w3 [H23 _].
  rewrite wp_bind.
  eapply wp_mono;
    [ apply (afterSuccess_ok executorAction R HR (fun _ H => H) Hstore (fun _ => False))
    | cbv beta .. ].
  2:{ intros r w' [_ []]. }
  2:{ intros w' Hs. apply Hok. exact (frame_trans _ R HR _ _ _ H23 Hs). }
  intros [] w4 [H34 _]. unfold wp, pure.
  apply Hok. exact (frame_trans _ R HR _ _ _ H23 H34).
Qed.

(** A call of the executor, with everything it can do after the counter,
    for a frame [R] that the blocks before the write keep and a frame [T]
    that the blocks after the record keep, the file of the image store
    being free to change. *)
Lemma tryDownload_shape {E : Externals} R (HR : Frame executorAction R)
    T (HT : Frame executorAction T)
    (Hstore : forall content w, T w (setFile imgStorePath content w))
    fuel download w
    (Qret : downloadStatusStruct -> World -> Prop) (Qpanic : World -> Prop) :
  (enrolled download = false ->
     Qret (mDownloadStatus downloadIgnored []) (nextDownloadID w)) ->
  (enrolled download = true ->
     (forall r w', R (nextDownloadID w) w' -> In (Status r) preStatuses -> Qret r w')
     /\ (forall w', R (nextDownloadID w) w' -> Qpanic w')
     /\ (forall download' completePath bodyOfResp w1,
           R (nextDownloadID w) w1 -> sameRequest download download' ->
           os_Stat w1 completePath <> StatOk -> fetched download bodyOfResp ->
           (forall err, ioutil_WriteFile_err w1 completePath = Some err ->
              Qret {| Status := downloadFailedWritingFile; Error := Some err |} w1)
           /\ (forall w2, written download' completePath bodyOfResp w1 w2 ->
                 let item := recordFor download' completePath w2 in
                 (forall err, dbInsertDownload_err w2 item = Some err ->
                    Qret {| Status := downloadFailedWritingDatabase; Error := Some err |} w2)
                 /\ (dbInsertDownload_err w2 item = None ->
                     forall w', T (addRecord item w2) w' ->
                       Qret (mDownloadStatus downloadSuccess []) w' /\ Qpanic w')))) ->
  match tryDownload fuel download w with
  | Returned r w' => Qret r w'
  | Panicked w' => Qpanic w'
  | Diverged => True
  end.
Proof.
  intros Hignored Henrolled.
  pose proof (tryDownloadBody_wp executorAction R HR (fun _ => I) fuel download
                Qret Qret Qpanic w) as H.
  unfold tryDownload, call. unfold wp in H.
  destruct (tryDownloadBody fuel download w); apply H; try exact Hignored;
    (intros Hen; destruct (Henrolled Hen) as (Hr & Hp & Ht);
     split; [ exact Hr | split; [ exact Hp | ] ];
     intros download' completePath bodyOfResp w1 HR1 Hsame Hstat Hfetched;
     destruct (Ht download' completePath bodyOfResp w1 HR1 Hsame Hstat Hfetched)
       as [Hwf Hw];
     apply (fromWrite_wp T HT Hstore); [ exact Hwf | exact Hw ]).
Qed.

Lemma frame_total : Frame executorAction (fun _ _ => True).
Proof. split; auto. Qed.

Lemma controllerTrace_emit e w :
  controllerTrace (emit e w)
  = controllerTrace w ++ (if controllerAction e then [e] else []).
Proof.
  unfold controllerTrace. simpl. rewrite List.filter_app. simpl.
  destruct (controllerAction e); reflexivity.
Qed.

Lemma frame_sameTrace : Frame executorAction (fun a b => controllerTrace b = controllerTrace a).
Proof.
  split; try reflexivity.
  - intros a b c Hab Hbc. congruence.
  - intros e w He. rewrite controllerTrace_emit.
    destruct e; try contradiction; simpl; apply app_nil_r.
Qed.

(** A call of the executor sleeps and reports nothing, and returns one of
    its sixteen statuses. *)
Lemma tryDownload_bystander {E : Externals} fuel download w r w' :
  tryDownload fuel download w = Returned r w' ->
  In (Status r) executorStatuses /\ controllerTrace w' = controllerTrace w.
Proof.
  intros Hcall.
  pose proof (tryDownload_shape _ frame_sameTrace _ frame_sameTrace (fun _ _ => eq_refl)
                fuel download w
                (fun r w' => In (Status r) executorStatuses
                             /\ controllerTrace w' = controllerTrace w)
                (fun _ => True)) as H.
  rewrite Hcall in H. apply H; clear H Hcall.
  - intros _. split; [ left; reflexivity | reflexivity ].
  - intros _. split; [ | split; [ exact (fun _ _ => I) | ] ].
    + intros r0 w0 Ht Hin. split; [ do 4 right; exact Hin | exact Ht ].
    + intros download' completePath bodyOfResp w1 Ht1 _ _ _. simpl in Ht1. split.
      { intros err _. split; [ simpl; tauto | exact Ht1 ]. }
      intros w2 Hw item.
      assert (Ht2 : controllerTrace w2 = controllerTrace w).
      { destruct Hw as [_ [-> | ->]]; [ exact Ht1 | ].
        rewrite controllerTrace_emit. simpl. rewrite app_nil_r. exact Ht1. }
      split; [ intros err _; split; [ simpl; tauto | exact Ht2 ] | ].
      intros _ w3 Ht3. split; [ | exact I ].
      split; [ simpl; tauto | ]. rewrite Ht3. exact Ht2.
Qed.

(** ** What a call of the executor does to the files and to the database *)

Lemma sameStorage_trans a b c : sameStorage a b -> sameStorage b c -> sameStorage a c.
Proof. unfold sameStorage. intuition congruence. Qed.

Lemma frame_sameStorage : Frame executorAction sameStorage.
Proof.
  split; try (intros; split; reflexivity). exact sameStorage_trans.
Qed.

Lemma sameButStore_refl {E : Externals} w : sameButStore w w.
Proof. split; [ reflexivity | intros; reflexivity ]. Qed.

Lemma sameButStore_trans {E : Externals} a b c :
  sameButStore a b -> sameButStore b c -> sameButStore a c.
Proof.
  intros [Hd1 Hf1] [Hd2 Hf2]. split; [ congruence | ].
  intros p Hp. rewrite (Hf2 p Hp). apply Hf1, Hp.
Qed.

Lemma frame_sameButStore {E : Externals} : Frame executorAction sameButStore.
Proof.
  split; try (intros; split; [ reflexivity | intros; reflexivity ]).
  exact sameButStore_trans.
Qed.

Lemma sameButStore_store {E : Externals} content w :
  sameButStore w (setFile imgStorePath content w).
Proof.
  split; [ reflexivity | ]. intros p Hp. simpl. apply lookup_insert_ne. congruence.
Qed.

Lemma written_storage {E : Externals} download completePath bodyOfResp w w1 :
  written download completePath bodyOfResp w w1 ->
  db w1 = db w /\ files w1 = <[completePath := bodyOfResp]> (files w).
Proof. intros [_ [-> | ->]]; split; reflexivity. Qed.

Lemma tryDownload_storage {E : Externals} fuel download w :
  match tryDownload fuel download w with
  | Returned r w' => storageAfter download w (Some r) w'
  | Panicked w' => storageAfter download w None w'
  | Diverged => True
  end.
Proof.
  apply (tryDownload_shape sameStorage frame_sameStorage
           sameButStore frame_sameButStore sameButStore_store fuel download w
           (fun r w' => storageAfter download w (Some r) w')
           (fun w' => storageAfter download w None w')).
  - intros _. left. split; [ split; reflexivity | ].
    intros s Hs. injection Hs as <-. split; discriminate.
  - intros _. split; [ | split ].
    + intros r0 w0 Hsame Hin. left. split; [ exact Hsame | ].
      intros s Hs. injection Hs as <-.
      split; intros Heq; rewrite Heq in Hin; simpl in Hin;
        repeat (destruct Hin as [Hin | Hin]; [ discriminate Hin | ]); contradiction.
    + intros w0 Hsame. left. split; [ exact Hsame | discriminate ].
    + intros download' completePath bodyOfResp w1 Hsame Hreq Hstat Hfetched.
      split.
      { intros err _. left. split; [ exact Hsame | ].
        intros s Hs. injection Hs as <-. split; discriminate. }
      intros w2 Hw item. split.
      * intros err Herr. right.
        exists download', completePath, bodyOfResp, w1, w2.
        repeat (split; [ assumption | ]). left. exists err. auto.
      * intros Hok w3 Hafter. split; right;
          exists download', completePath, bodyOfResp, w1, w2;
          repeat (split; [ assumption | ]); right; auto.
Qed.

(** ** The retry loop *)

Lemma last_cons_default {A} (d x : A) (l : list A) :
  default d (last (x :: l)) = default x (last l).
Proof. rewrite last_cons. destruct (last l); reflexivity. Qed.

Section RetryLoop.
Context {E : Externals}.
Variable executor : downloadRequestStruct -> World -> outcome downloadStatusStruct.
Variable download : downloadRequestStruct.

Lemma retryLoop_exhausted fuel i status w :
  DownloadRetryMax config <= i ->
  retryLoop executor (S fuel) i download status w = Next status w.
Proof.
  intros Hi. simpl.
  destruct (Z.ltb_spec i (DownloadRetryMax config)) as [Hlt | _]; [ lia | reflexivity ].
Qed.

(** One round that does not end the loop: the call, the sleep of five
    seconds, then the next round. *)
Lemma retryLoop_retry fuel i status w r w1 :
  i < DownloadRetryMax config ->
  executor download w = Returned r w1 ->
  stopsRetry (Status r) = false ->
  retryLoop executor (S fuel) i download status w
  = retryLoop executor fuel (wrapInt (i + 1)) download r (emit (EvSleep 5) w1).
Proof.
  intros Hi Hex Hstop. simpl.
  destruct (Z.ltb_spec i (DownloadRetryMax config)) as [_ | Hge]; [ | lia ].
  unfold bindM at 1. unfold invoke. rewrite Hex, Hstop. reflexivity.
Qed.

(** One round that ends the loop. *)
Lemma retryLoop_stop fuel i status w r w1 :
  i < DownloadRetryMax config ->
  executor download w = Returned r w1 ->
  stopsRetry (Status r) = true ->
  retryLoop executor (S fuel) i download status w = Next r w1.
Proof.
  intros Hi Hex Hstop. simpl.
  destruct (Z.ltb_spec i (DownloadRetryMax config)) as [_ | Hge]; [ | lia ].
  unfold bindM, invoke. rewrite Hex, Hstop. reflexivity.
Qed.

(** A round in which the executor does not return. *)
Lemma retryLoop_panicked fuel i status w w1 :
  i < DownloadRetryMax config ->
  executor download w = Panicked w1 ->
  retryLoop executor (S fuel) i download status w = Panic w1.
Proof.
  intros Hi Hex. simpl.
  destruct (Z.ltb_spec i (DownloadRetryMax config)) as [_ | Hge]; [ | lia ].
  unfold bindM, invoke. rewrite Hex. reflexivity.
Qed.

Lemma retryLoop_diverged fuel i status w :
  i < DownloadRetryMax config ->
  executor download w = Diverged ->
  retryLoop executor (S fuel) i download status w = Hang.
Proof.
  intros Hi Hex. simpl.
  destruct (Z.ltb_spec i (DownloadRetryMax config)) as [_ | Hge]; [ | lia ].
  unfold bindM, invoke. rewrite Hex. reflexivity.
Qed.


(** What the loop has done when it ends, whatever the fuel and the bound:
    a run of calls, and the status of the last of them is handed on. *)
Lemma retryLoop_attempts fuel : forall i status w,
  match retryLoop executor fuel i download status w with
  | Next final w' =>
      exists attempts,
        attemptsFrom executor download w attempts w'
        /\ final = default status (last attempts)
  | Return _ _ => False
  | Panic w' =>
      exists attempts w0,
        attemptsFrom executor download w attempts w0
        /\ Forall (fun a => stopsRetry (Status a) = false) attempts
        /\ executor download w0 = Panicked w'
  | Hang => True
  end.
Proof.
  induction fuel as [| fuel IH]; intros i status w; [ exact I | ].
  destruct (Z.lt_ge_cases i (DownloadRetryMax config)) as [Hlt | Hge].
  2:{ rewrite retryLoop_exhausted by exact Hge.
      exists []. split; [ constructor | reflexivity ]. }
  destruct (executor download w) as [r w1 | w1 |] eqn:Hex.
  - destruct (stopsRetry (Status r)) eqn:Hstop.
    + rewrite (retryLoop_stop _ _ _ _ _ _ Hlt Hex Hstop).
      exists [r]. split; [ apply attempts_last; assumption | reflexivity ].
    + rewrite (retryLoop_retry _ _ _ _ _ _ Hlt Hex Hstop).
      specialize (IH (wrapInt (i + 1)) r (emit (EvSleep 5) w1)).
      destruct (retryLoop executor fuel (wrapInt (i + 1)) download r
                  (emit (EvSleep 5) w1)) as [final w' | | w' |]; try exact IH.
      * destruct IH as (rest & Hrest & Hfinal).
        exists (r :: rest). split; [ eapply attempts_retry; eassumption | ].
        rewrite last_cons_default. exact Hfinal.
      * destruct IH as (rest & w0 & Hrest & Hall & Hpanic).
        exists (r :: rest), w0.
        split; [ eapply attempts_retry; eassumption | ].
        split; [ constructor; assumption | exact Hpanic ].
  - rewrite (retryLoop_panicked _ _ _ _ _ Hlt Hex).
    exists [], w. split; [ constructor | ]. split; [ constructor | exact Hex ].
  - rewrite (retryLoop_diverged _ _ _ _ Hlt Hex). exact I.
Qed.

(** The same with the counts, for a bound that an [int] can hold and enough
    fuel for the rounds the bound allows. *)
Lemma retryLoop_bounded fuel : forall i status w,
  0 <= i ->
  DownloadRetryMax config < 2 ^ 63 ->
  (Z.to_nat (DownloadRetryMax config - i) < fuel)%nat ->
  match retryLoop executor fuel i download status w with
  | Next final w' =>
      exists attempts,
        attemptsFrom executor download w attempts w'
        /\ final = default status (last attempts)
        /\ Z.of_nat (length attempts) <= Z.max 0 (DownloadRetryMax config - i)
        /\ (attempts = [] -> DownloadRetryMax config <= i)
        /\ (forall a, last attempts = Some a -> stopsRetry (Status a) = false ->
              Z.of_nat (length attempts) = DownloadRetryMax config - i)
  | Return _ _ => False
  | Panic w' =>
      exists attempts w0,
        attemptsFrom executor download w attempts w0
        /\ Forall (fun a => stopsRetry (Status a) = false) attempts
        /\ Z.of_nat (length attempts) < DownloadRetryMax config - i
        /\ executor download w0 = Panicked w'
  | Hang =>
      exists attempts w0,
        attemptsFrom executor download w attempts w0
        /\ Forall (fun a => stopsRetry (Status a) = false) attempts
        /\ Z.of_nat (length attempts) < DownloadRetryMax config - i
        /\ executor download w0 = Diverged
  end.
Proof.
  induction fuel as [| fuel IH]; intros i status w Hi Hmax Hfuel; [ lia | ].
  destruct (Z.lt_ge_cases i (DownloadRetryMax config)) as [Hlt | Hge].
  2:{ rewrite retryLoop_exhausted by exact Hge.
      exists []. split; [ constructor | ]. split; [ reflexivity | ].
      split; [ simpl; lia | ]. split; [ intros _; exact Hge | discriminate ]. }
  destruct (executor download w) as [r w1 | w1 |] eqn:Hex.
  - destruct (stopsRetry (Status r)) eqn:Hstop.
    + rewrite (retryLoop_stop _ _ _ _ _ _ Hlt Hex Hstop).
      exists [r]. split; [ apply attempts_last; assumption | ].
      split; [ reflexivity | ]. split; [ simpl; lia | ].
      split; [ discriminate | ].
      intros a Ha Hs. injection Ha as <-. congruence.
    + rewrite (retryLoop_retry _ _ _ _ _ _ Hlt Hex Hstop).
      rewrite wrapInt_small by lia.
      specialize (IH (i + 1) r (emit (EvSleep 5) w1)).
      destruct (retryLoop executor fuel (i + 1) download r (emit (EvSleep 5) w1))
        as [final w' | | w' |].
      * destruct IH as (rest & Hrest & Hfinal & Hlen & Hnil & Hfull); [ lia .. | ].
        exists (r :: rest). split; [ eapply attempts_retry; eassumption | ].
        split; [ rewrite last_cons_default; exact Hfinal | ].
        split; [ simpl length; lia | ]. split; [ discriminate | ].
        intros a Ha Hs. rewrite last_cons in Ha.
        destruct (last rest) as [b |] eqn:Hlast.
        -- injection Ha as <-. specialize (Hfull b eq_refl Hs). simpl length. lia.
        -- destruct rest as [| c rest'];
             [ | rewrite last_cons in Hlast; destruct (last rest'); discriminate Hlast ].
           specialize (Hnil eq_refl). simpl length. lia.
      * apply IH; lia.
      * destruct IH as (rest & w0 & Hrest & Hall & Hlen & Hpanic); [ lia .. | ].
        exists (r :: rest), w0.
        split; [ eapply attempts_retry; eassumption | ].
        split; [ constructor; assumption | ].
        split; [ simpl length; lia | exact Hpanic ].
      * destruct IH as (rest & w0 & Hrest & Hall & Hlen & Hhang); [ lia .. | ].
        exists (r :: rest), w0.
        split; [ eapply attempts_retry; eassumption | ].
        split; [ constructor; assumption | ].
        split; [ simpl length; lia | exact Hhang ].
  - rewrite (retryLoop_panicked _ _ _ _ _ Hlt Hex).
    exists [], w. split; [ constructor | ]. split; [ constructor | ].
    split; [ simpl; lia | exact Hex ].
  - rewrite (retryLoop_diverged _ _ _ _ Hlt Hex).
    exists [], w. split; [ constructor | ]. split; [ constructor | ].
    split; [ simpl; lia | exact Hex ].
Qed.

End RetryLoop.



(** ** After the loop: the failure notice and the link log *)

Lemma fallsThrough_bind {A B} download (m : Step A) (k : A -> Step B) :
  fallsThrough download m -> (forall a, fallsThrough download (k a)) ->
  fallsThrough download (bindM m k).
Proof.
  intros Hm Hk w. unfold bindM. specialize (Hm w).
  destruct (m w) as [a w' | | |]; try exact Hm. apply Hk.
Qed.

Section AfterLoop.
Context {E : Externals}.

Lemma reportFailure_fallsThrough download status :
  fallsThrough download (reportFailure download status).
Proof. intros w. unfold reportFailure. crunch. Qed.

Lemma logLinksPath_fallsThrough download logLinks status :
  fallsThrough download (logLinksPath download logLinks status).
Proof. intros w. unfold logLinksPath. crunch. Qed.

Lemma logLine_fallsThrough download logLinks :
  fallsThrough download (logLine download logLinks).
Proof. intros w. unfold logLine. crunch. Qed.

Lemma logLink_fallsThrough download status :
  fallsThrough download (logLink download status).
Proof.
  unfold logLink.
  destruct (isChannelRegistered _); [ | intros w; exact I ].
  destruct (LogLinks _) as [logLinks |]; [ | intros w; exact I ].
  destruct (negb _); [ | intros w; exact I ].
  apply fallsThrough_bind; [ apply logLinksPath_fallsThrough | intros logPath ].
  apply fallsThrough_bind; [ intros w; exact I | intros w0 ].
  apply fallsThrough_bind; [ intros w; unfold when_; crunch | intros _ ].
  destruct (shouldLogLink _ _ _ _); [ | intros w; exact I ].
  apply fallsThrough_bind; [ apply logLine_fallsThrough | intros newLine ].
  apply fallsThrough_bind; [ intros w; exact I | intros w1 ].
  intros w. unfold when_. crunch.
Qed.

End AfterLoop.

(** A run of calls returns only what the executor returns. *)
Lemma attemptsFrom_Forall executor download (P : downloadStatusStruct -> Prop)
    w attempts w' :
  (forall w0 r w1, executor download w0 = Returned r w1 -> P r) ->
  attemptsFrom executor download w attempts w' -> Forall P attempts.
Proof.
  intros HP. induction 1 as [w | w r w1 Hex Hs | w r w1 rest w' Hex Hs Hrest IH].
  - constructor.
  - constructor; [ eapply HP; eassumption | constructor ].
  - constructor; [ eapply HP; eassumption | exact IH ].
Qed.

(** A call of [startDownload] that returns: the loop has ended, the report
    and the link log have fallen through. *)
Lemma startDownload_returned {E : Externals} fuel download w r w' :
  startDownload fuel download w = Returned r w' ->
  exists w1 w2,
    retryLoop (tryDownload fuel) fuel 0 download (mDownloadStatus downloadFailed []) w
    = Next r w1
    /\ reportFailure download r w1 = Next tt w2
    /\ logLink download r w2 = Next tt w'.
Proof.
  unfold startDownload, call, startDownloadBody. cbv zeta. unfold bindM at 1.
  pose proof (retryLoop_attempts (tryDownload fuel) download fuel 0
                (mDownloadStatus downloadFailed []) w) as Hloop.
  destruct (retryLoop _ _ _ _ _ w) as [final w1 | r1 w1 | w1 |];
    [ | contradiction | discriminate | discriminate ].
  unfold bindM at 1.
  pose proof (reportFailure_fallsThrough download final w1) as Hrep.
  destruct (reportFailure download final w1) as [[] w2 | r2 w2 | w2 |] eqn:Hr;
    try contradiction; try discriminate.
  unfold bindM at 1.
  pose proof (logLink_fallsThrough download final w2) as Hlog.
  destruct (logLink download final w2) as [[] w3 | r3 w3 | w3 |] eqn:Hl;
    try contradiction; try discriminate.
  unfold pure. intros H. injection H as <- <-.
  exists w1, w2. split; [ reflexivity | ]. split; assumption.
Qed.


(** After one attempt or more, what [startDownload] returns is what the
    last call of the executor returned: never the generic failure. *)
Lemma startDownload_attempted {E : Externals} fuel download w r w' :
  0 < DownloadRetryMax config < 2 ^ 63 ->
  (Z.to_nat (DownloadRetryMax config) < fuel)%nat ->
  startDownload fuel download w = Returned r w' ->
  In (Status r) executorStatuses /\ Status r <> downloadFailed.
Proof.
  intros [Hpos Hmax] Hfuel Hcall.
  destruct (startDownload_returned _ _ _ _ _ Hcall) as (w1 & w2 & Hloop & _ & _).
  pose proof (retryLoop_bounded (tryDownload fuel) download fuel 0
                (mDownloadStatus downloadFailed []) w (Z.le_refl 0) Hmax) as H.
  rewrite Z.sub_0_r in H. specialize (H Hfuel). rewrite Hloop in H.
  destruct H as (attempts & Hrun & Hfinal & _ & Hnil & _).
  pose proof (attemptsFrom_Forall (tryDownload fuel) download
                (fun a => In (Status a) executorStatuses) _ _ _
                (fun w0 a w3 Hex => proj1 (tryDownload_bystander fuel download w0 a w3 Hex))
                Hrun) as Hall.
  destruct (last attempts) as [a |] eqn:Hlast.
  - simpl in Hfinal. rewrite Hfinal. clear Hfinal. rewrite last_lookup in Hlast.
    pose proof (Forall_lookup_1 _ _ _ _ Hall Hlast) as Hin. cbv beta in Hin.
    split; [ exact Hin | ]. intros Hs. rewrite Hs in Hin. simpl in Hin.
    repeat (destruct Hin as [Hin | Hin]; [ discriminate Hin | ]). contradiction.
  - destruct attempts as [| a rest]; [ specialize (Hnil eq_refl); lia | ].
    rewrite last_cons in Hlast. destruct (last rest); discriminate Hlast.
Qed.




(** ** The extension filter and the domain filter *)

Lemma filterShouldAbort_permitted {E : Externals} allowed blocked key :
  filterShouldAbort allowed blocked key = negb (permitted allowed blocked key).
Proof.
  unfold filterShouldAbort, permitted.
  destruct allowed as [al |], blocked as [bl |]; simpl;
    repeat match goal with |- context [stringInSlice ?k ?l] =>
             destruct (stringInSlice k l) end; reflexivity.
Qed.

(** C3.  Both filters follow the same rule: a key (the lower-cased extension
    of the file name, or the host name of the URL) passes exactly when it is
    in the allow-list if there is one, and when it is not in the deny-list
    otherwise; a key in the allow-list passes whatever the deny-list holds;
    a key that does not pass makes the executor return
    [downloadSkippedUnpermittedExtension], respectively
    [downloadSkippedUnpermittedDomain], and leaves the world untouched. *)
Theorem filters_allow_list_wins {E : Externals}
    (channelConfig : configurationChannel) (key : string) (w : World) :
  let f := Filters channelConfig in
  checkExtension channelConfig key w
  = (if permitted (AllowedExtensions f) (BlockedExtensions f) key
     then Next tt w
     else Return {| Status := downloadSkippedUnpermittedExtension; Error := None |} w)
  /\ checkDomain channelConfig (Some key) w
     = (if permitted (AllowedDomains f) (BlockedDomains f) key
        then Next tt w
        else Return {| Status := downloadSkippedUnpermittedDomain; Error := None |} w)
  /\ (forall al blocked, stringInSlice key al = true ->
        filterShouldAbort (Some al) blocked key = false)
  /\ (forall al blocked, stringInSlice key al = false ->
        filterShouldAbort (Some al) blocked key = true)
  /\ (forall bl, filterShouldAbort None (Some bl) key = stringInSlice key bl).
Proof.
  intros f. subst f.
  split; [ | split ].
  - unfold checkExtension. rewrite filterShouldAbort_permitted.
    unfold permitted.
    destruct (AllowedExtensions (Filters channelConfig)) as [al |],
             (BlockedExtensions (Filters channelConfig)) as [bl |]; simpl;
      repeat match goal with |- context [stringInSlice ?k ?l] =>
               destruct (stringInSlice k l) end; reflexivity.
  - unfold checkDomain. rewrite filterShouldAbort_permitted.
    unfold permitted.
    destruct (AllowedDomains (Filters channelConfig)) as [al |],
             (BlockedDomains (Filters channelConfig)) as [bl |]; simpl;
      repeat match goal with |- context [stringInSlice ?k ?l] =>
               destruct (stringInSlice k l) end; reflexivity.
  - repeat split.
    + intros al blocked Hin. rewrite filterShouldAbort_permitted. simpl.
      rewrite Hin. reflexivity.
    + intros al blocked Hin. rewrite filterShouldAbort_permitted. simpl.
      rewrite Hin. reflexivity.
    + intros bl. rewrite filterShouldAbort_permitted. simpl.
      apply negb_involutive.
Qed.

(** ** Path collisions *)

Section Collisions.
Context {E : Externals}.

(** Whether the slice of line 942 panics does not depend on [i]. *)
Lemma suffixedPath_defined tmpPath i q j :
  suffixedPath tmpPath i = Some q -> exists qj, suffixedPath tmpPath j = Some qj.
Proof.
  unfold suffixedPath. destruct (sliceTo _ _) as [stem |]; [ | discriminate ].
  intros _. eexists. reflexivity.
Qed.

(** The probe passes over the suffixes that are taken and stops at the first
    one that is free, [k] steps after [i]. *)
Lemma probeFreePath_finds tmpPath w q : forall (k fuel : nat) (i : Z),
  0 <= i -> i + Z.of_nat k < 2 ^ 63 -> (k < fuel)%nat ->
  suffixedPath tmpPath (i + Z.of_nat k) = Some q ->
  os_Stat w q = StatNotExist ->
  (forall j qj, i <= j < i + Z.of_nat k ->
     suffixedPath tmpPath j = Some qj -> os_Stat w qj <> StatNotExist) ->
  probeFreePath fuel tmpPath i w = Next q w.
Proof.
  induction k as [| k IH]; intros fuel i Hi Hbound Hfuel Hq Hfree Htaken;
    (destruct fuel as [| fuel]; [ lia | ]); simpl.
  - rewrite Z.add_0_r in Hq. rewrite Hq. unfold bindM, getWorld.
    rewrite Hfree. reflexivity.
  - destruct (suffixedPath_defined _ _ _ i Hq) as [qi Hqi]. rewrite Hqi.
    unfold bindM, getWorld.
    assert (Hne : os_Stat w qi <> StatNotExist) by (apply (Htaken i); [ lia | exact Hqi ]).
    rewrite wrapInt_small by lia.
    assert (Hrec : probeFreePath fuel tmpPath (i + 1) w = Next q w).
    { apply (IH fuel (i + 1)); try lia.
      - replace (i + 1 + Z.of_nat k) with (i + Z.of_nat (S k)) by lia. exact Hq.
      - exact Hfree.
      - intros j qj Hj. apply Htaken. lia. }
    destruct (os_Stat w qi); [ exact Hrec | contradiction | exact Hrec ].
Qed.

End Collisions.

(** *** The probe ends in a directory that holds finitely many files *)

(** [strconv.Itoa] gives different digits for different positive numbers. *)
Lemma strconv_Itoa_inj (i j : Z) :
  0 < i -> 0 < j -> strconv_Itoa i = strconv_Itoa j -> i = j.
Proof.
  intros Hi Hj Heq. unfold strconv_Itoa in Heq.
  assert (Hnz : forall z, 0 < z ->
            NilZero.int_of_string (NilZero.string_of_int (Z.to_int z)) = Some (Z.to_int z)).
  { intros z Hz. destruct z as [| p | p]; try lia.
    change (Z.to_int (Z.pos p)) with (Decimal.Pos (Pos.to_uint p)).
    apply NilZero.isi; intros H; [ injection H as H | discriminate H ].
    apply (DecimalPos.Unsigned.to_uint_nonnil p H). }
  apply DecimalZ.to_int_inj.
  pose proof (Hnz i Hi) as Ei. pose proof (Hnz j Hj) as Ej.
  rewrite Heq in Ei. congruence.
Qed.

Lemma append_inj_l (s a b : string) : s +:+ a = s +:+ b -> a = b.
Proof. induction s as [| c s IH]; simpl; [ auto | intros H; injection H as H; auto ]. Qed.

Lemma list_ascii_of_append (a b : string) :
  String.list_ascii_of_string (a +:+ b)
  = String.list_ascii_of_string a ++ String.list_ascii_of_string b.
Proof. induction a as [| c a IH]; simpl; [ reflexivity | rewrite IH; reflexivity ]. Qed.

Lemma append_inj_r (a b s : string) : a +:+ s = b +:+ s -> a = b.
Proof.
  intros H. apply (f_equal String.list_ascii_of_string) in H.
  rewrite !list_ascii_of_append in H. apply app_inv_tail in H.
  rewrite <- (String.string_of_list_ascii_of_string a),
          <- (String.string_of_list_ascii_of_string b), H. reflexivity.
Qed.

Lemma substring_prefix (stem rest : string) :
  String.substring 0 (strLen stem) (stem +:+ rest) = stem.
Proof.
  induction stem as [| c stem IH]; simpl.
  - destruct rest; reflexivity.
  - rewrite IH. reflexivity.
Qed.

Lemma strLen_append (a b : string) : strLen (a +:+ b) = (strLen a + strLen b)%nat.
Proof. induction a as [| c a IH]; simpl; [ reflexivity | rewrite IH; reflexivity ]. Qed.

Section ProbeEnds.
Context {E : Externals}.

(** When [filepathExtension] returns the tail of the path, the suffix goes
    in front of that tail. *)
Lemma suffixedPath_inserts_before_extension (stem ext : string) (i : Z) :
  filepathExtension (stem +:+ ext) = ext ->
  suffixedPath (stem +:+ ext) i = Some (stem +:+ "-" +:+ strconv_Itoa i +:+ ext).
Proof.
  intros Hext. unfold suffixedPath, sliceTo. rewrite Hext, strLen_append.
  destruct (Z.ltb_spec (Z.of_nat (strLen stem + strLen ext) - Z.of_nat (strLen ext)) 0);
    [ lia | ].
  replace (Z.to_nat (Z.of_nat (strLen stem + strLen ext) - Z.of_nat (strLen ext)))
    with (strLen stem) by lia.
  rewrite substring_prefix. reflexivity.
Qed.

(** Different suffixes give different paths. *)
Lemma suffixedPath_inj tmpPath i j q :
  0 < i -> 0 < j ->
  suffixedPath tmpPath i = Some q -> suffixedPath tmpPath j = Some q -> i = j.
Proof.
  unfold suffixedPath. intros Hi Hj.
  destruct (sliceTo _ _) as [stem |]; [ | discriminate ].
  intros Hq Hq'. rewrite <- Hq' in Hq. injection Hq as Hq.
  apply append_inj_l, (append_inj_l "-") in Hq. apply append_inj_r in Hq.
  apply strconv_Itoa_inj; assumption.
Qed.

(** Among the suffixes 1 to [size + 1] one is free: a directory of [size]
    files cannot hold them all. *)
Lemma some_suffix_is_free tmpPath w q0 :
  suffixedPath tmpPath 1 = Some q0 ->
  exists j qj, 1 <= j <= Z.of_nat (size (files w)) + 1
    /\ suffixedPath tmpPath j = Some qj /\ files w !! qj = None.
Proof.
  intros Hdef.
  set (n := size (files w)).
  set (path := fun j => default "" (suffixedPath tmpPath j)).
  assert (Hpath : forall j, suffixedPath tmpPath j = Some (path j)).
  { intros j. unfold path.
    destruct (suffixedPath_defined _ _ _ j Hdef) as [qj ->]. reflexivity. }
  destruct (decide (Forall (fun j => is_Some (files w !! path j))
                      (seqZ 1 (Z.of_nat n + 1)))) as [Hall | Hsome].
  - exfalso.
    assert (Hnodup : NoDup (path <$> seqZ 1 (Z.of_nat n + 1))).
    { apply NoDup_fmap_2_strong; [ | apply NoDup_seqZ ].
      intros x y Hx Hy Hxy. apply elem_of_seqZ in Hx, Hy.
      apply (suffixedPath_inj tmpPath x y (path x)); try lia.
      - apply Hpath.
      - rewrite Hxy. apply Hpath. }
    assert (Hsub : list_to_set (C := gset string) (path <$> seqZ 1 (Z.of_nat n + 1))
                   ⊆ dom (files w)).
    { intros p Hp. apply elem_of_list_to_set, list_elem_of_fmap in Hp.
      destruct Hp as (j & -> & Hj). apply elem_of_dom.
      rewrite Forall_forall in Hall. apply Hall, Hj. }
    apply subseteq_size in Hsub.
    rewrite size_list_to_set, length_fmap, length_seqZ, size_dom in Hsub by exact Hnodup.
    fold n in Hsub. lia.
  - apply not_Forall_Exists in Hsome; [ | intros j; apply _ ].
    apply Exists_exists in Hsome. destruct Hsome as (j & Hj & Hfree).
    apply elem_of_seqZ in Hj.
    exists j, (path j). split; [ lia | ]. split; [ apply Hpath | ].
    destruct (files w !! path j) eqn:Hlook; [ | reflexivity ].
    exfalso. apply Hfree. eauto.
Qed.

Lemma os_Stat_plain w q :
  os_Stat_err w q = false -> os_Stat_dir w q = false ->
  os_Stat w q = match files w !! q with Some _ => StatOk | None => StatNotExist end.
Proof. intros He Hd. unfold os_Stat. rewrite He, Hd. destruct (files w !! q); reflexivity. Qed.

Lemma probeFreePath_ends tmpPath w : forall (k fuel : nat) (i : Z),
  (forall q, os_Stat_err w q = false) ->
  (forall j q, suffixedPath tmpPath j = Some q -> os_Stat_dir w q = false) ->
  0 < i -> i + Z.of_nat k < 2 ^ 63 -> (k < fuel)%nat ->
  (exists j qj, i <= j <= i + Z.of_nat k
     /\ suffixedPath tmpPath j = Some qj /\ files w !! qj = None) ->
  exists n q, i <= n <= i + Z.of_nat k
    /\ suffixedPath tmpPath n = Some q /\ os_Stat w q = StatNotExist
    /\ probeFreePath fuel tmpPath i w = Next q w.
Proof.
  induction k as [| k IH];
    intros fuel i Hstat Hdir Hi Hbound Hfuel (j & qj & Hj & Hqj & Hfree);
    (destruct fuel as [| fuel]; [ lia | ]).
  - assert (j = i) as -> by lia.
    assert (Hs : os_Stat w qj = StatNotExist)
      by (rewrite (os_Stat_plain w qj (Hstat qj) (Hdir _ _ Hqj)), Hfree; reflexivity).
    exists i, qj. split; [ lia | ]. split; [ exact Hqj | ]. split; [ exact Hs | ].
    simpl. rewrite Hqj. unfold bindM, getWorld. rewrite Hs. reflexivity.
  - destruct (suffixedPath_defined _ _ _ i Hqj) as [qi Hqi].
    pose proof (os_Stat_plain w qi (Hstat qi) (Hdir _ _ Hqi)) as Hs.
    destruct (files w !! qi) as [content |] eqn:Hlook.
    + assert (Hji : j <> i).
      { intros ->. rewrite Hqi in Hqj. injection Hqj as <-. congruence. }
      destruct (IH fuel (i + 1)) as (n & q & Hn & Hq & Hnone & Hrun); try lia.
      * exact Hstat.
      * exact Hdir.
      * exists j, qj. split; [ lia | ]. split; assumption.
      * exists n, q. split; [ lia | ]. split; [ exact Hq | ]. split; [ exact Hnone | ].
        simpl. rewrite Hqi. unfold bindM, getWorld.
        rewrite Hs, wrapInt_small by lia. exact Hrun.
    + exists i, qi. split; [ lia | ]. split; [ exact Hqi | ]. split; [ exact Hs | ].
      simpl. rewrite Hqi. unfold bindM, getWorld. rewrite Hs. reflexivity.
Qed.

(** In a world where [os.Stat] only answers "exists" or "does not exist",
    and answers by the files for the suffixed paths, the block "Check if
    exists" finds a free path for a path that exists, and its probe takes at
    most one step per file. *)
Lemma resolveCollision_ends fuel channelConfig completePath w q0 :
  (forall q, os_Stat_err w q = false) ->
  (forall j q, suffixedPath completePath j = Some q -> os_Stat_dir w q = false) ->
  suffixedPath completePath 1 = Some q0 ->
  Z.of_nat (size (files w)) + 1 < 2 ^ 63 ->
  (size (files w) < fuel)%nat ->
  SavePossibleDuplicates channelConfig = true ->
  os_Stat w completePath = StatOk ->
  exists n q, 1 <= n <= Z.of_nat (size (files w)) + 1
    /\ suffixedPath completePath n = Some q /\ os_Stat w q = StatNotExist
    /\ resolveCollision fuel channelConfig completePath w = Next q w.
Proof.
  intros Hstat Hdir Hdef Hbound Hfuel Hkeep Hexists.
  destruct (probeFreePath_ends completePath w (size (files w)) fuel 1)
    as (n & q & Hn & Hq & Hnone & Hrun); try lia; try assumption.
  - destruct (some_suffix_is_free completePath w q0 Hdef) as (j & qj & Hj & Hqj & Hfree).
    exists j, qj. split; [ lia | ]. split; assumption.
  - exists n, q. split; [ lia | ]. split; [ exact Hq | ]. split; [ exact Hnone | ].
    unfold resolveCollision, bindM, getWorld. rewrite Hexists, Hkeep. exact Hrun.
Qed.

End ProbeEnds.

Lemma os_Stat_NotExist {E : Externals} w q :
  os_Stat w q = StatNotExist -> files w !! q = None.
Proof.
  unfold os_Stat. destruct (os_Stat_err w q); [ discriminate | ].
  destruct (files w !! q); [ discriminate | reflexivity ].
Qed.

(** *** From "Check if exists" on *)

Section FromTheCheck.
Context {E : Externals}.
Variables (fuel : nat) (download : downloadRequestStruct) (w : World).
Variables (download' : downloadRequestStruct) (bodyOfResp completePath : string).
Variable w1 : World.
Hypothesis Henrolled : enrolled download = true.
Hypothesis Hcomposed :
  composeDestination download (configOf download) (nextDownloadID w)
  = Next (download', bodyOfResp, completePath) w1.

(** The call is what "Check if exists" and the blocks after it make of the
    composed path. *)
Lemma tryDownload_from_check :
  tryDownload fuel download w
  = call (q <~ resolveCollision fuel (configOf download) completePath ;;
          fromWrite fuel download' (configOf download) q bodyOfResp
            (cachedDownloadID (nextDownloadID w))) w1.
Proof.
  unfold tryDownload, call. rewrite tryDownloadBody_split.
  unfold bindM at 1. unfold modify. unfold bindM at 1. unfold getWorld.
  rewrite Henrolled. unfold bindM at 1. rewrite Hcomposed. reflexivity.
Qed.

(** The blocks before it have stored nothing. *)
Lemma composeDestination_storage : sameStorage w w1.
Proof.
  pose proof (composeDestination_wp executorAction sameStorage frame_sameStorage
                (fun _ => I) download (configOf download)
                (fun _ w' => sameStorage (nextDownloadID w) w')
                (fun _ _ => True) (fun _ => True) (nextDownloadID w)) as H.
  unfold wp in H. rewrite Hcomposed in H. apply H; auto.
Qed.

(** What follows when "Check if exists" goes on with the path [q]. *)
Lemma tryDownload_writesAt q :
  resolveCollision fuel (configOf download) completePath w1 = Next q w1 ->
  writesAt fuel download w download' bodyOfResp q w1.
Proof.
  intros Hq.
  assert (Hcall : tryDownload fuel download w
                  = call (fromWrite fuel download' (configOf download) q bodyOfResp
                            (cachedDownloadID (nextDownloadID w))) w1).
  { rewrite tryDownload_from_check. unfold call, bindM at 1. rewrite Hq. reflexivity. }
  destruct composeDestination_storage as [_ Hfiles].
  split; [ exact Hcall | ]. split.
  - intros err Herr. rewrite Hcall. unfold call, fromWrite, bindM at 1.
    unfold writeFile, bindM at 1, getWorld. rewrite Herr. reflexivity.
  - intros Hok. rewrite Hcall.
    set (Q := fun (r : option downloadStatusStruct) (w' : World) =>
                wroteOnly q bodyOfResp w w'
                /\ forall s, r = Some s ->
                     Status s = downloadSuccess
                     \/ Status s = downloadFailedWritingDatabase).
    pose proof (fromWrite_wp sameButStore frame_sameButStore sameButStore_store
                  fuel download' (configOf download) q bodyOfResp
                  (cachedDownloadID (nextDownloadID w))
                  (fun r w' => Q (Some r) w') (fun r w' => Q (Some r) w')
                  (fun w' => Q None w') w1) as H.
    assert (Hgoal : wp (fromWrite fuel download' (configOf download) q bodyOfResp
                          (cachedDownloadID (nextDownloadID w)))
                      (fun r w' => Q (Some r) w') (fun r w' => Q (Some r) w')
                      (fun w' => Q None w') w1).
    { apply H; clear H.
      - intros err Herr. congruence.
      - intros w2 Hw. destruct (written_storage _ _ _ _ _ Hw) as [_ Hf2].
        assert (Hwrote : forall w',
                  (forall p, p <> imgStorePath -> files w' !! p = files w2 !! p) ->
                  wroteOnly q bodyOfResp w w').
        { intros w' Hsame. split.
          - intros Hne. rewrite (Hsame q Hne), Hf2. apply lookup_insert_eq.
          - intros p Hpq Hp. rewrite (Hsame p Hp), Hf2, Hfiles.
            apply lookup_insert_ne. congruence. }
        split.
        + intros err _. split; [ apply Hwrote; intros; reflexivity | ].
          intros s Hs. injection Hs as <-. right. reflexivity.
        + intros _ w' Hafter.
          assert (Hw' : wroteOnly q bodyOfResp w w').
          { apply Hwrote. destruct Hafter as [_ Hf]. exact Hf. }
          split; (split; [ exact Hw' | ]);
            [ intros s Hs; injection Hs as <-; left; reflexivity | discriminate ]. }
    unfold wp in Hgoal. unfold call.
    destruct (fromWrite fuel download' (configOf download) q bodyOfResp
                (cachedDownloadID (nextDownloadID w)) w1) as [r w' | r w' | w' |];
      try exact I; destruct Hgoal as [Hw' Hs]; try exact Hw';
      (split; [ exact (Hs r eq_refl) | exact Hw' ]).
Qed.

End FromTheCheck.

(** What every call that returns has written. *)
Lemma tryDownload_neverReuses {E : Externals} : neverReuses.
Proof.
  intros fuel download w r w' Hcall.
  pose proof (tryDownload_storage fuel download w) as H. rewrite Hcall in H.
  destruct H as [[[Hd Hf] Hs]
                | (download' & path & body & w1 & w2 & [Hd1 Hf1] & Hreq & Hstat & Hfetched
                   & Hw & Hcases)].
  - split; [ intros _; exact Hf | ].
    destruct (Hs r eq_refl) as [H1 H2]. intros [H | H]; contradiction.
  - destruct (written_storage _ _ _ _ _ Hw) as [Hd2 Hf2]. cbv zeta in Hcases.
    assert (Hwrote : wroteOnly path body w w').
    { destruct Hcases as [(err & _ & _ & ->) | (_ & _ & [_ Hsame])].
      - split.
        + intros _. rewrite Hf2. apply lookup_insert_eq.
        + intros p Hp _. rewrite Hf2, Hf1. apply lookup_insert_ne. congruence.
      - split.
        + intros Hne. rewrite (Hsame path Hne). simpl. rewrite Hf2.
          apply lookup_insert_eq.
        + intros p Hpq Hp. rewrite (Hsame p Hp). simpl. rewrite Hf2, Hf1.
          apply lookup_insert_ne. congruence. }
    split.
    + intros Hs. exfalso.
      destruct Hcases as [(err & _ & Hr & _) | (_ & [Hr | Hr] & _)];
        try discriminate Hr; injection Hr as ->; discriminate Hs.
    + intros _. exists path, body, w1. auto.
Qed.

(** C4.  When the blocks before "Check if exists" fall through with a
    composed path that exists (a file, or a directory): if the channel keeps
    duplicates, the call of the executor writes the body at the path that
    carries the smallest suffix [-i], [i] from 1 upwards, inserted before the
    extension, whose path does not exist (so after N taken suffixes it is the
    suffix N + 1), a path that holds no file, and leaves every other file as
    it was; such a suffix is found among the first [size + 1] in a directory
    of [size] files.  If the channel does not keep duplicates, the call
    returns [downloadSkippedDuplicate] and no file is written.  And whatever
    the request, a call that returns this status has written no file, and a
    call that has written a file has written it at a path that [os.Stat] did
    not report as existing.  (The file of the image store, which a success
    rewrites, is left out of "every other file".) *)
Theorem collision_first_free_suffix_or_skip {E : Externals} (fuel : nat)
    (download : downloadRequestStruct) (w : World)
    (download' : downloadRequestStruct) (bodyOfResp completePath : string)
    (w1 : World) :
  enrolled download = true ->
  composeDestination download (configOf download) (nextDownloadID w)
  = Next (download', bodyOfResp, completePath) w1 ->
  os_Stat w1 completePath = StatOk ->
  collisionGuarantee fuel download w download' bodyOfResp completePath w1
  /\ neverReuses.
Proof.
  intros Henrolled Hcomposed Hexists. split; [ | exact tryDownload_neverReuses ].
  pose proof (composeDestination_storage download w download' bodyOfResp completePath w1
                Hcomposed) as [_ Hfiles].
  assert (Hwrites : forall q,
            resolveCollision fuel (configOf download) completePath w1 = Next q w1 ->
            writesAt fuel download w download' bodyOfResp q w1).
  { intros q. apply tryDownload_writesAt; assumption. }
  assert (Hprobe : SavePossibleDuplicates (configOf download) = true ->
      forall n q, 1 <= n < 2 ^ 63 -> (Z.to_nat n <= fuel)%nat ->
        suffixedPath completePath n = Some q ->
        os_Stat w1 q = StatNotExist ->
        (forall j qj, 1 <= j < n -> suffixedPath completePath j = Some qj ->
           os_Stat w1 qj <> StatNotExist) ->
        files w !! q = None
        /\ writesAt fuel download w download' bodyOfResp q w1).
  { intros Hkeep n q Hn Hfuel Hq Hfree Htaken.
    split; [ rewrite <- Hfiles; apply os_Stat_NotExist; exact Hfree | ].
    apply Hwrites.
    unfold resolveCollision, bindM, getWorld. rewrite Hexists, Hkeep.
    apply (probeFreePath_finds completePath w1 q (Z.to_nat (n - 1)) fuel 1);
      try lia.
    - replace (1 + Z.of_nat (Z.to_nat (n - 1))) with n by lia. exact Hq.
    - exact Hfree.
    - intros j qj Hj. apply Htaken. lia. }
  unfold collisionGuarantee. cbv zeta.
  split; [ exact Hfiles | ]. split; [ | split; [ exact Hprobe | split; [ | split ] ] ].
  - intros Hskip.
    rewrite (tryDownload_from_check fuel download w download' bodyOfResp completePath w1
               Henrolled Hcomposed).
    unfold call, bindM at 1. unfold resolveCollision, bindM at 1, getWorld.
    rewrite Hexists, Hskip. reflexivity.
  - intros Hkeep N q HN Hbound Hfuel Htaken Hq Hfree.
    apply (Hprobe Hkeep (N + 1) q); try lia; try assumption.
    intros j qj Hj Hqj. rewrite (Htaken j qj) by (lia || assumption). discriminate.
  - intros stem ext i -> Hext. apply suffixedPath_inserts_before_extension, Hext.
  - intros Hkeep Hstat Hdir Hlen Hbound Hfuel.
    assert (Hdef : exists q0, suffixedPath completePath 1 = Some q0).
    { unfold suffixedPath, sliceTo.
      destruct (Z.ltb_spec (Z.of_nat (strLen completePath)
                            - Z.of_nat (strLen (filepathExtension completePath))) 0);
        [ lia | eauto ]. }
    destruct Hdef as [q0 Hdef]. rewrite <- Hfiles in Hbound, Hfuel.
    destruct (resolveCollision_ends fuel (configOf download) completePath w1 q0)
      as (n & q & Hn & Hq & Hnone & Hrun); try assumption.
    rewrite Hfiles in Hn.
    exists n, q. split; [ exact Hn | ]. split; [ exact Hq | ].
    split; [ exact Hnone | apply Hwrites, Hrun ].
Qed.

(** A directory that holds a.png and a-1.png: the picture goes to a-2.png,
    and the two files keep their content.  And a composed path that names a
    directory counts as existing: the picture goes to the first suffix. *)
Lemma collision_first_free_suffix_or_skip_witness :
  let E := Demo.standard in
  let download := Demo.download "http://example.com/a.png" "" in
  let w := Demo.worldWith ["dl/a.png"; "dl/a-1.png"] in
  let download' := setFilename (setPath download "dl/") "a.png" in
  let w1 := addHash 1 "PNG" (emit (EvMkdirAll "dl/") (nextDownloadID w)) in
  let folder := Demo.download "http://example.com/folder.png" "" in
  let folder' := setFilename (setPath folder "dl/") "folder.png" in
  let v1 := addHash 1 "PNG" (emit (EvMkdirAll "dl/") (nextDownloadID Demo.emptyWorld)) in
  (enrolled download = true
   /\ composeDestination download (configOf download) (nextDownloadID w)
      = Next (download', "PNG", "dl/a.png") w1
   /\ os_Stat w1 "dl/a.png" = StatOk
   /\ (collisionGuarantee 5 download w download' "PNG" "dl/a.png" w1 /\ neverReuses)
   /\ exists w',
        tryDownload 5 download w = Returned (mDownloadStatus downloadSuccess []) w'
        /\ files w' !! "dl/a-2.png" = Some "PNG"
        /\ files w' !! "dl/a.png" = Some "old"
        /\ files w' !! "dl/a-1.png" = Some "old")
  /\ (enrolled folder = true
      /\ composeDestination folder (configOf folder) (nextDownloadID Demo.emptyWorld)
         = Next (folder', "PNG", "dl/folder.png") v1
      /\ files v1 !! "dl/folder.png" = None
      /\ os_Stat v1 "dl/folder.png" = StatOk
      /\ (collisionGuarantee 5 folder Demo.emptyWorld folder' "PNG" "dl/folder.png" v1
          /\ neverReuses)
      /\ exists w',
           tryDownload 5 folder Demo.emptyWorld
           = Returned (mDownloadStatus downloadSuccess []) w'
           /\ files w' !! "dl/folder-1.png" = Some "PNG"
           /\ files w' !! "dl/folder.png" = None).
Proof.
  intros E download w download' w1 folder folder' v1. split.
  - assert (H1 : enrolled download = true) by reflexivity.
    assert (H2 : composeDestination download (configOf download) (nextDownloadID w)
                 = Next (download', "PNG", "dl/a.png") w1) by (vm_compute; reflexivity).
    assert (H3 : os_Stat w1 "dl/a.png" = StatOk) by (vm_compute; reflexivity).
    split; [ exact H1 | ]. split; [ exact H2 | ]. split; [ exact H3 | ].
    split; [ exact (collision_first_free_suffix_or_skip 5 download w download' "PNG"
                      "dl/a.png" w1 H1 H2 H3) | ].
    eexists. split; [ vm_compute; reflexivity | ]. repeat split; reflexivity.
  - assert (H1 : enrolled folder = true) by reflexivity.
    assert (H2 : composeDestination folder (configOf folder)
                   (nextDownloadID Demo.emptyWorld)
                 = Next (folder', "PNG", "dl/folder.png") v1) by (vm_compute; reflexivity).
    assert (H3 : os_Stat v1 "dl/folder.png" = StatOk) by (vm_compute; reflexivity).
    split; [ exact H1 | ]. split; [ exact H2 | ]. split; [ reflexivity | ].
    split; [ exact H3 | ].
    split; [ exact (collision_first_free_suffix_or_skip 5 folder Demo.emptyWorld folder'
                      "PNG" "dl/folder.png" v1 H1 H2 H3) | ].
    eexists. split; [ vm_compute; reflexivity | ]. split; reflexivity.
Defined.

(** The same directory with duplicates not kept: skipped, nothing written. *)
Example collision_skips_without_duplicates :
  let download := Demo.download "http://example.com/a.png" "" in
  let w := Demo.worldWith ["dl/a.png"; "dl/a-1.png"] in
  let E := Demo.env (Demo.channelConfig false) false (Demo.answers 200) 3 in
  exists w',
    tryDownload 5 download w
    = Returned {| Status := downloadSkippedDuplicate; Error := None |} w'
    /\ files w' = files w.
Proof.
  intros download w E.
  eexists. split; [ vm_compute; reflexivity | reflexivity ].
Qed.

(** ** The near-duplicate filter *)

(** Comparison of IEEE 754 values: swapping the arguments mirrors the result. *)
Lemma SFcompare_swap (x y : spec_float) :
  SFcompare y x = option_map CompOpp (SFcompare x y).
Proof.
  destruct x as [sx | sx | | sx mx ex], y as [sy | sy | | sy my ey];
    try reflexivity;
    try (destruct sx; reflexivity); try (destruct sy; reflexivity);
    try (destruct sx, sy; reflexivity).
  unfold SFcompare. destruct sx, sy; simpl; try reflexivity.
  - rewrite (Z.compare_antisym ex ey).
    destruct (Z.compare ex ey); simpl; try reflexivity.
    f_equal. rewrite CompOpp_involutive.
    apply (Pos.compare_cont_antisym my mx Eq).
  - rewrite (Z.compare_antisym ex ey).
    destruct (Z.compare ex ey); simpl; try reflexivity.
    f_equal. symmetry. apply (Pos.compare_cont_antisym mx my Eq).
Qed.

(** [threshold <= x] excludes [x < threshold]. *)
Lemma SFleb_not_SFltb (threshold x : spec_float) :
  SFleb threshold x = true -> SFltb x threshold = false.
Proof.
  unfold SFleb, SFltb. rewrite (SFcompare_swap threshold x).
  destruct (SFcompare threshold x) as [[] |]; simpl; congruence.
Qed.

(** A score equal to the threshold is at least the threshold. *)
Lemma SFeqb_SFleb (threshold x : spec_float) :
  SFeqb x threshold = true -> SFleb threshold x = true.
Proof.
  unfold SFeqb, SFleb. rewrite (SFcompare_swap x threshold).
  destruct (SFcompare x threshold) as [[] |]; simpl; congruence.
Qed.

Lemma insertMatch_In (m x : Match) (ms : list Match) :
  In m (insertMatch x ms) <-> m = x \/ In m ms.
Proof.
  induction ms as [| m' rest IH]; simpl; [ intuition congruence | ].
  destruct (SFltb (Score m') (Score x)); simpl; [ rewrite IH | ]; intuition congruence.
Qed.

(** Sorting keeps the matches. *)
Lemma sortMatches_In (m : Match) (ms : list Match) :
  In m (sortMatches ms) <-> In m ms.
Proof.
  unfold sortMatches. induction ms as [| x rest IH]; simpl; [ tauto | ].
  rewrite insertMatch_In, IH. intuition congruence.
Qed.

Lemma anyScoreBelow_true threshold (ms : list Match) :
  anyScoreBelow threshold ms = true
  <-> exists m, In m ms /\ SFltb (Score m) threshold = true.
Proof.
  induction ms as [| x rest IH]; simpl.
  - split; [ discriminate | intros (m & [] & _) ].
  - destruct (SFltb (Score x) threshold) eqn:Hx.
    + split; [ intros _; exists x; auto | reflexivity ].
    + rewrite IH. split; intros (m & Hin & Hm); exists m.
      * auto.
      * destruct Hin as [<- | Hin]; [ congruence | auto ].
Qed.

Lemma anyScoreBelow_false threshold (ms : list Match) :
  anyScoreBelow threshold ms = false
  <-> forall m, In m ms -> SFltb (Score m) threshold = false.
Proof.
  rewrite <- not_true_iff_false, anyScoreBelow_true. split.
  - intros Hno m Hin. apply not_true_iff_false. intros Hm. apply Hno. eauto.
  - intros Hall (m & Hin & Hm). rewrite (Hall m Hin) in Hm. discriminate.
Qed.

(** C5.  The comparison with the threshold is strict.  For an image the
    filter applies to (filtering is on, the content is an image, the
    extension is neither .gif nor .webp, the body decodes): if some match of
    the query, in particular the best one, scores strictly below the
    threshold, the executor returns [downloadSkippedDetectedDuplicate] and
    the index is unchanged; if every match scores at least the threshold,
    a score equal to it included, the image passes and its hash is added to
    the index. *)
Theorem near_duplicate_threshold_is_strict {E : Externals}
    (bodyOfResp extension : string) (img : Image) (w : World) :
  FilterDuplicateImages config = true ->
  extension <> ".gif" -> extension <> ".webp" ->
  image_Decode bodyOfResp = Some img ->
  nearDuplicateGuarantee bodyOfResp extension img w.
Proof.
  intros Hon Hgif Hwebp Hdecode.
  assert (Hrun : duplicateImageFilter bodyOfResp extension "image" w
           = if anyScoreBelow (FilterDuplicateImagesThreshold config)
                  (sortMatches (imgStore_Query (imgStore w) (duplo_CreateHash img)))
             then Return {| Status := downloadSkippedDetectedDuplicate; Error := None |} w
             else Next tt (addHash (cachedDownloadID w) (duplo_CreateHash img) w)).
  { unfold duplicateImageFilter. rewrite Hon, Hdecode.
    apply String.eqb_neq in Hgif, Hwebp. rewrite Hgif, Hwebp. simpl.
    unfold bindM, getWorld.
    destruct (anyScoreBelow _ _); reflexivity. }
  assert (Hreject : (exists m, In m (imgStore_Query (imgStore w) (duplo_CreateHash img))
                       /\ SFltb (Score m) (FilterDuplicateImagesThreshold config) = true) ->
            duplicateImageFilter bodyOfResp extension "image" w
            = Return {| Status := downloadSkippedDetectedDuplicate; Error := None |} w).
  { intros (m & Hin & Hm). rewrite Hrun.
    assert (Hany : anyScoreBelow (FilterDuplicateImagesThreshold config)
              (sortMatches (imgStore_Query (imgStore w) (duplo_CreateHash img))) = true).
    { apply anyScoreBelow_true. exists m. rewrite sortMatches_In. auto. }
    rewrite Hany. reflexivity. }
  unfold nearDuplicateGuarantee. cbv zeta. split; [ exact Hreject | ].
  split; [ | split ].
  - intros m Hhead Hm. apply Hreject. exists m. split; [ | exact Hm ].
    apply sortMatches_In.
    destruct (sortMatches _) as [| m0 rest]; [ discriminate | ].
    injection Hhead as ->. left. reflexivity.
  - intros Hall. rewrite Hrun.
    assert (Hany : anyScoreBelow (FilterDuplicateImagesThreshold config)
              (sortMatches (imgStore_Query (imgStore w) (duplo_CreateHash img))) = false).
    { apply anyScoreBelow_false. intros m Hin. apply SFleb_not_SFltb, Hall.
      apply sortMatches_In, Hin. }
    rewrite Hany. eexists. repeat split; reflexivity.
  - intros m Heq. pose proof (SFeqb_SFleb _ _ Heq) as Hle.
    split; [ exact Hle | apply SFleb_not_SFltb, Hle ].
Qed.

(** An index that holds an image at distance 0 of the new one. *)
Lemma near_duplicate_threshold_is_strict_witness :
  let E := Demo.standard in
  FilterDuplicateImages config = true
  /\ ".png" <> ".gif" /\ ".png" <> ".webp"
  /\ image_Decode "PNG" = Some "PNG"
  /\ nearDuplicateGuarantee "PNG" ".png" "PNG" (Demo.worldIndexed [(1, "JPG")]).
Proof.
  split; [ reflexivity | ]. split; [ discriminate | ]. split; [ discriminate | ].
  split; [ reflexivity | ].
  apply (near_duplicate_threshold_is_strict (E := Demo.standard)).
  - reflexivity.
  - discriminate.
  - discriminate.
  - reflexivity.
Defined.

(** The threshold is 50.  A stored image at distance 40 rejects the new one;
    a stored image at distance exactly 50 does not, and the new hash joins
    the index. *)
Example near_duplicate_below_and_at_threshold :
  let E := Demo.standard in
  FilterDuplicateImagesThreshold config = Demo.float 50
  /\ Demo.query [(1, "1234567")] "PNG" = [ {| match_ID := 1; Score := Demo.float 40 |} ]
  /\ duplicateImageFilter "PNG" ".png" "image" (Demo.worldIndexed [(1, "1234567")])
     = Return {| Status := downloadSkippedDetectedDuplicate; Error := None |}
         (Demo.worldIndexed [(1, "1234567")])
  /\ Demo.query [(1, "12345678")] "PNG" = [ {| match_ID := 1; Score := Demo.float 50 |} ]
  /\ duplicateImageFilter "PNG" ".png" "image" (Demo.worldIndexed [(1, "12345678")])
     = Next tt (Demo.worldIndexed [(1, "12345678"); (9, "PNG")]).
Proof. vm_compute. repeat split; reflexivity. Qed.

(** ** A database failure after the write *)

(** Every call that returns the database failure has written its file and
    stored no record. *)
Lemma tryDownload_sinkFailureOnly {E : Externals} : sinkFailureOnly.
Proof.
  intros fuel download w r w' Hcall Hstatus.
  pose proof (tryDownload_storage fuel download w) as H. rewrite Hcall in H.
  destruct H as [[_ Hs]
                | (download' & path & body & w1 & w2 & [Hd1 Hf1] & Hreq & Hstat & Hfetched
                   & Hw & Hcases)].
  - destruct (Hs r eq_refl) as [_ Hne]. contradiction.
  - destruct (written_storage _ _ _ _ _ Hw) as [Hd2 Hf2]. cbv zeta in Hcases.
    destruct Hcases as [(err & Herr & Hr & ->) | (_ & [Hr | Hr] & _)].
    + injection Hr as ->.
      exists download', path, body, w2, err.
      split; [ exact Hfetched | ]. split; [ exact Herr | ].
      split; [ reflexivity | ]. split; [ reflexivity | ].
      split; congruence.
    + discriminate Hr.
    + injection Hr as ->. discriminate Hstatus.
Qed.

(** C6.  When a call of the executor reaches the write, the write works and
    the database then refuses the record, the call returns
    [downloadFailedWritingDatabase] with the error of the database, in the
    world that the write left: the file stays where it was written, no
    other path has changed, no record is stored, and no later block has run.
    And whatever the request, a call that returns this status has written
    one file, with a body the network gave for the request, and has changed
    nothing else in the files and the database. *)
Theorem database_failure_keeps_the_file {E : Externals} (fuel : nat)
    (download : downloadRequestStruct) (w : World)
    (download' : downloadRequestStruct) (bodyOfResp composedPath completePath : string)
    (w1 w2 : World) (err : error) :
  enrolled download = true ->
  composeDestination download (configOf download) (nextDownloadID w)
  = Next (download', bodyOfResp, composedPath) w1 ->
  resolveCollision fuel (configOf download) composedPath w1 = Next completePath w1 ->
  writeFile download' completePath bodyOfResp w1 = Next tt w2 ->
  dbInsertDownload_err w2 (recordFor download' completePath w2) = Some err ->
  sinkFailureGuarantee fuel download w bodyOfResp completePath w2 err
  /\ sinkFailureOnly.
Proof.
  intros Henrolled Hcomposed Hcheck Hwrite Hdb.
  split; [ | exact tryDownload_sinkFailureOnly ].
  destruct (composeDestination_storage download w download' bodyOfResp composedPath w1
              Hcomposed) as [Hd1 Hf1].
  pose proof (writeFile_written download' completePath bodyOfResp w1) as Hw.
  rewrite Hwrite in Hw. destruct (written_storage _ _ _ _ _ Hw) as [Hd2 Hf2].
  unfold sinkFailureGuarantee. split; [ | split; [ | split ] ].
  - destruct (tryDownload_writesAt fuel download w download' bodyOfResp composedPath w1
                Henrolled Hcomposed completePath Hcheck) as [Hcall _].
    rewrite Hcall. unfold call, fromWrite. unfold bindM at 1. rewrite Hwrite.
    unfold bindM at 1. unfold storeRecord, bindM at 1, getWorld. cbv zeta.
    rewrite Hdb. reflexivity.
  - rewrite Hf2. apply lookup_insert_eq.
  - intros p Hp. rewrite Hf2, Hf1. apply lookup_insert_ne. congruence.
  - congruence.
Qed.

(** A database that is locked: the picture is on disk, the database is
    empty, and the call returns the failure of the database. *)
Lemma database_failure_keeps_the_file_witness :
  let E := Demo.lockedDatabase in
  let download := Demo.download "http://example.com/a.png" "" in
  let download' := setFilename (setPath download "dl/") "a.png" in
  let w1 := addHash 1 "PNG" (emit (EvMkdirAll "dl/") (nextDownloadID Demo.emptyWorld)) in
  let w2 := emit (EvChtimes "dl/a.png" 0) (setFile "dl/a.png" "PNG" w1) in
  enrolled download = true
  /\ composeDestination download (configOf download) (nextDownloadID Demo.emptyWorld)
     = Next (download', "PNG", "dl/a.png") w1
  /\ resolveCollision 5 (configOf download) "dl/a.png" w1 = Next "dl/a.png" w1
  /\ writeFile download' "dl/a.png" "PNG" w1 = Next tt w2
  /\ dbInsertDownload_err w2 (recordFor download' "dl/a.png" w2) = Some "database is locked"
  /\ (sinkFailureGuarantee 5 download Demo.emptyWorld "PNG" "dl/a.png" w2
        "database is locked"
      /\ sinkFailureOnly)
  /\ tryDownload 5 download Demo.emptyWorld
     = Returned {| Status := downloadFailedWritingDatabase;
                   Error := Some "database is locked" |} w2
  /\ files w2 !! "dl/a.png" = Some "PNG" /\ db w2 = [] /\ followUps w2 = [].
Proof.
  intros E download download' w1 w2.
  assert (H1 : enrolled download = true) by reflexivity.
  assert (H2 : composeDestination download (configOf download)
                 (nextDownloadID Demo.emptyWorld)
               = Next (download', "PNG", "dl/a.png") w1) by (vm_compute; reflexivity).
  assert (H3 : resolveCollision 5 (configOf download) "dl/a.png" w1 = Next "dl/a.png" w1)
    by (vm_compute; reflexivity).
  assert (H4 : writeFile download' "dl/a.png" "PNG" w1 = Next tt w2)
    by (vm_compute; reflexivity).
  assert (H5 : dbInsertDownload_err w2 (recordFor download' "dl/a.png" w2)
               = Some "database is locked") by reflexivity.
  split; [ exact H1 | ]. split; [ exact H2 | ]. split; [ exact H3 | ].
  split; [ exact H4 | ]. split; [ exact H5 | ].
  split; [ exact (database_failure_keeps_the_file 5 download Demo.emptyWorld download'
                    "PNG" "dl/a.png" "dl/a.png" w1 w2 "database is locked"
                    H1 H2 H3 H4 H5) | ].
  split; [ vm_compute; reflexivity | ]. repeat split; reflexivity.
Defined.

(** ** The link log *)

(** The two gates that work: a status above success is logged only when
    [LogFailures] is on, and with [FilterDuplicates] on nothing is logged for
    a URL that the log already contains. *)
Lemma shouldLogLink_gates (logLinks : configurationChannel_Log)
    (status : downloadStatus) (currentLogS inputURL : string) :
  (status <> downloadSuccess -> LogFailures logLinks = false ->
     shouldLogLink logLinks status currentLogS inputURL = false)
  /\ (FilterDuplicates logLinks = Some true ->
      strings_Contains currentLogS inputURL = true ->
      shouldLogLink logLinks status currentLogS inputURL = false).
Proof.
  unfold shouldLogLink. split.
  - intros Hs Hf.
    assert (Hgt : status_gtb status downloadSuccess = true)
      by (destruct status; try reflexivity; contradiction).
    rewrite Hgt, Hf. destruct (FilterDuplicates logLinks) as [[] |]; try reflexivity.
    destruct (strings_Contains _ _); reflexivity.
  - intros -> ->. reflexivity.
Qed.

(** C7 (the code departs from it).  For a final status of success the
    decision to log does not read [LogDownloads]: the branch of line 538 sets
    [shouldLog] to the value it already has.  With the toggle off, failures
    not logged and no duplicate filter, a successful download still appends
    its line to the log, while a 404 appends none. *)
Theorem success_is_logged_with_log_downloads_off :
  (forall (logLinks : configurationChannel_Log) (currentLogS inputURL : string),
     shouldLogLink logLinks downloadSuccess currentLogS inputURL
     = match FilterDuplicates logLinks with
       | Some true => negb (strings_Contains currentLogS inputURL)
       | _ => true
       end)
  /\ LogDownloads Demo.logLinks = false
  /\ match startDownload (E := Demo.standard) 5
             (Demo.download "http://example.com/a.png" "") Demo.emptyWorld with
     | Returned r w' =>
         Status r = downloadSuccess
         /\ files w' !! "links.txt" = Some (newline +:+ "http://example.com/a.png")
     | _ => False
     end
  /\ match startDownload (E := Demo.gone) 5
             (Demo.download "http://example.com/a.png" "") Demo.emptyWorld with
     | Returned r w' =>
         Status r = downloadFailed404 /\ files w' !! "links.txt" = Some ""
     | _ => False
     end.
Proof.
  split.
  - intros logLinks currentLogS inputURL. unfold shouldLogLink. simpl.
    destruct (LogDownloads logLinks), (FilterDuplicates logLinks) as [[] |];
      try reflexivity; destruct (strings_Contains _ _); reflexivity.
  - vm_compute. repeat split; reflexivity.
Qed.

(** ** The random reaction *)

Section RandomReaction.
Context {E : Externals}.

(** When no emoji of the guild is eligible the loop never yields one:
    whatever the fuel, it is still running when the fuel is spent (or it has
    panicked on a draw outside the slice). *)
Lemma pickRandomEmoji_none_eligible fuel emojis blacklist :
  (forall e, In e emojis ->
     Animated e = true \/ stringInSlice (APIName e) blacklist = true) ->
  forall w,
    match pickRandomEmoji fuel emojis blacklist w with
    | Next _ _ | Return _ _ => False
    | Panic _ | Hang => True
    end.
Proof.
  intros Hnone. induction fuel as [| fuel IH]; intros w; simpl; [ exact I | ].
  unfold bindM, getWorld, modify, panic, pure.
  destruct (_ && _); [ | exact I ].
  destruct (emojis !! _) as [chosen |] eqn:Hchosen; [ | exact I ].
  assert (Hin : In chosen emojis).
  { apply list_elem_of_In. eapply list_elem_of_lookup_2. exact Hchosen. }
  destruct (Hnone chosen Hin) as [-> | ->]; simpl.
  - apply IH.
  - rewrite andb_false_r. apply IH.
Qed.

(** With draws that stay inside the slice it is still running, exactly. *)
Lemma pickRandomEmoji_hangs fuel emojis blacklist :
  (forall e, In e emojis ->
     Animated e = true \/ stringInSlice (APIName e) blacklist = true) ->
  (forall t, 0 <= rand_Intn t (Z.of_nat (length emojis)) < Z.of_nat (length emojis)) ->
  forall w, pickRandomEmoji fuel emojis blacklist w = Hang.
Proof.
  intros Hnone Hrange. induction fuel as [| fuel IH]; intros w; simpl; [ reflexivity | ].
  unfold bindM, getWorld, modify, panic, pure.
  specialize (Hrange (clock w)).
  destruct (Z.leb_spec 0 (rand_Intn (clock w) (Z.of_nat (length emojis)))); [ | lia ].
  destruct (Z.ltb_spec (rand_Intn (clock w) (Z.of_nat (length emojis)))
              (Z.of_nat (length emojis))); [ | lia ].
  simpl.
  destruct (emojis !! _) as [chosen |] eqn:Hchosen.
  - assert (Hin : In chosen emojis).
    { apply list_elem_of_In. eapply list_elem_of_lookup_2. exact Hchosen. }
    destruct (Hnone chosen Hin) as [-> | ->]; simpl.
    + apply IH.
    + rewrite andb_false_r. apply IH.
  - apply lookup_ge_None in Hchosen. lia.
Qed.

End RandomReaction.

(** C8 (the code departs from it).  In a guild with two emojis, both
    animated, and no emoji configured for the channel, the selection never
    ends: whatever the fuel, the download that has been written and recorded
    is still drawing emojis when the fuel is spent, and [tryDownload] does
    not return.  The default reaction is used only for a guild with at most
    one emoji. *)
Theorem random_reaction_never_ends_without_eligible_emoji :
  forall fuel : nat,
    tryDownload (E := Demo.standard) fuel
      (Demo.download "http://example.com/a.png" "guild") Demo.emptyWorld
    = Diverged.
Proof.
  intros fuel.
  set (E := Demo.standard).
  set (download := Demo.download "http://example.com/a.png" "guild").
  set (download' := setFilename (setPath download "dl/") "a.png").
  set (w1 := addHash 1 "PNG" (emit (EvMkdirAll "dl/") (nextDownloadID Demo.emptyWorld))).
  set (w2 := emit (EvChtimes "dl/a.png" 0) (setFile "dl/a.png" "PNG" w1)).
  set (w3 := addRecord (recordFor download' "dl/a.png" w2) w2).
  assert (H1 : enrolled download = true) by reflexivity.
  assert (H2 : composeDestination download (configOf download)
                 (nextDownloadID Demo.emptyWorld)
               = Next (download', "PNG", "dl/a.png") w1) by (vm_compute; reflexivity).
  rewrite (tryDownload_from_check fuel download Demo.emptyWorld download' "PNG"
             "dl/a.png" w1 H1 H2).
  assert (H3 : resolveCollision fuel (configOf download) "dl/a.png" w1
               = Next "dl/a.png" w1) by reflexivity.
  assert (H4 : writeFile download' "dl/a.png" "PNG" w1 = Next tt w2) by reflexivity.
  assert (H5 : storeRecord download' "dl/a.png" w2 = Next tt w3) by reflexivity.
  assert (H6 : react fuel download' (configOf download) w3 = Hang).
  { change (react fuel download' (configOf download) w3)
      with ((reaction <~ pickRandomEmoji fuel (Emojis Demo.guild) [] ;;
             modify (emit (EvReactionAdd "chan" "m1" reaction))) w3).
    unfold bindM. rewrite (pickRandomEmoji_hangs (E := Demo.standard)).
    - reflexivity.
    - intros e [<- | [<- | []]]; left; reflexivity.
    - intros t. cbn. lia. }
  unfold call, bindM at 1. rewrite H3.
  unfold fromWrite, bindM at 1. rewrite H4.
  unfold bindM at 1. rewrite H5.
  unfold bindM at 1. rewrite H6. reflexivity.
Qed.

(** The fallback of line 1024 is taken for a guild with one emoji or none,
    also when its one emoji is eligible. *)
Lemma chooseReaction_small_guild {E : Externals} fuel download channelConfig guild w :
  ReactWhenDownloadedEmoji channelConfig = "" ->
  GuildID (Message_ download) <> "" ->
  State_Guild (GuildID (Message_ download)) = Some guild ->
  (length (Emojis guild) <= 1)%nat ->
  chooseReaction fuel download channelConfig w = Next defaultReact w.
Proof.
  intros Hemoji Hguild Hstate Hlen. unfold chooseReaction.
  rewrite Hemoji, Hstate. apply String.eqb_neq in Hguild. rewrite Hguild. simpl.
  destruct (Nat.ltb_spec 1 (length (Emojis guild))); [ lia | reflexivity ].
Qed.

(** ** Resolver dispatch *)

Section Dispatch.
Context {E : Externals}.
Variable channelID : string.

Lemma getDownloadLinks_unfold fuel inputURL :
  getDownloadLinks (S fuel) inputURL channelID
  = match tryResolvers siteResolvers inputURL channelID with
    | Some links => Some links
    | None =>
        match afterResolvers channelID inputURL with
        | inl links => Some links
        | inr stripped =>
            (fun links => trimDownloadedLinks links channelID)
              <$> getDownloadLinks fuel stripped channelID
        end
    end.
Proof.
  simpl. unfold afterResolvers.
  destruct (tryResolvers _ _ _); [ reflexivity | ].
  destruct (strings_HasPrefix _ _); [ reflexivity | ].
  destruct (url_stripQuery inputURL) as [u |]; [ | reflexivity ].
  destruct (String.eqb u inputURL); simpl; [ reflexivity | ].
  destruct (getDownloadLinks fuel u channelID); reflexivity.
Qed.

(** A URL whose query is already stripped is settled without recursion. *)
Lemma getDownloadLinks_no_recursion fuel u :
  stripIsFinal u ->
  exists links, getDownloadLinks (S fuel) u channelID = Some links
    /\ getDownloadLinks 1 u channelID = Some links.
Proof.
  intros Hfinal. rewrite !getDownloadLinks_unfold.
  destruct (tryResolvers _ _ _) as [links |]; [ eauto | ].
  unfold afterResolvers.
  destruct (strings_HasPrefix _ _); [ eauto | ].
  destruct Hfinal as [-> | ->]; [ | eauto ].
  rewrite String.eqb_refl. eauto.
Qed.

End Dispatch.

(** What dispatch returns for a URL whose stripped form is left as it is by
    a second stripping. *)
Lemma dispatch_settles {E : Externals} (inputURL channelID : string) :
  (forall stripped, url_stripQuery inputURL = Some stripped -> stripIsFinal stripped) ->
  dispatchGuarantee inputURL channelID.
Proof.
  intros Hidem.
  assert (Hfuel : forall fuel,
            getDownloadLinks (S (S fuel)) inputURL channelID
            = getDownloadLinks 2 inputURL channelID
            /\ getDownloadLinks 2 inputURL channelID <> None).
  { intros fuel. rewrite !(getDownloadLinks_unfold channelID _ inputURL).
    destruct (tryResolvers _ _ _); [ split; [ reflexivity | discriminate ] | ].
    unfold afterResolvers.
    destruct (strings_HasPrefix _ _); [ split; [ reflexivity | discriminate ] | ].
    destruct (url_stripQuery inputURL) as [u |] eqn:Hu;
      [ | split; [ reflexivity | discriminate ] ].
    destruct (String.eqb u inputURL); [ split; [ reflexivity | discriminate ] | ].
    destruct (getDownloadLinks_no_recursion channelID fuel u (Hidem u eq_refl))
      as (links & -> & ->).
    split; [ reflexivity | discriminate ]. }
  unfold dispatchGuarantee. cbv zeta. split; [ | split; [ | split ] ].
  - destruct (getDownloadLinks 2 inputURL channelID) as [links |] eqn:H2.
    + exists links. split; [ reflexivity | ].
      intros [| [| fuel]] Hge; try lia. apply (Hfuel fuel).
    + destruct (Hfuel O) as [_ Hne]. contradiction.
  - intros Hno Hprefix. rewrite getDownloadLinks_unfold, Hno.
    unfold afterResolvers. rewrite Hprefix. reflexivity.
  - intros Hno Hprefix Hfinal. rewrite getDownloadLinks_unfold, Hno.
    unfold afterResolvers. rewrite Hprefix.
    destruct Hfinal as [-> | ->]; [ rewrite String.eqb_refl | ]; reflexivity.
  - intros stripped Hno Hprefix Hstrip Hne Hno'.
    rewrite getDownloadLinks_unfold, Hno. unfold afterResolvers.
    rewrite Hprefix, Hstrip. apply String.eqb_neq in Hne. rewrite Hne.
    rewrite getDownloadLinks_unfold, Hno'. unfold afterResolvers.
    destruct (strings_HasPrefix stripped emojiPrefix); [ reflexivity | ].
    destruct (Hidem stripped Hstrip) as [-> | ->];
      [ rewrite String.eqb_refl | ]; reflexivity.
Qed.

(** C9, as the code has it.  Stripping the query being idempotent after one
    pass, [getDownloadLinks] returns for every URL after at most one
    recursion.  When no resolver has links: a URL with the emoji prefix
    gives the empty result; a URL that stripping gives back as it is (or
    that does not parse) gives the fallback [{inputURL: ""}], passed through
    [trimDownloadedLinks]; a URL that stripping changes gives the fallback
    of its stripped form, [{stripped: ""}], passed through
    [trimDownloadedLinks] twice (or the empty result, when the stripped form
    has the emoji prefix). *)
Theorem dispatch_recurses_once_and_falls_back_to_stripped_url {E : Externals}
    (inputURL channelID : string) :
  stripIdempotent ->
  dispatchGuarantee inputURL channelID.
Proof.
  intros Hidem. apply dispatch_settles.
  intros stripped Hstrip. exact (Hidem inputURL stripped Hstrip).
Qed.

(** Cutting a URL at its first question mark is idempotent. *)
Lemma beforeQuery_idempotent (u : string) :
  Demo.beforeQuery (Demo.beforeQuery u) = Demo.beforeQuery u.
Proof.
  induction u as [| c u IH]; [ reflexivity | ].
  simpl. destruct (Ascii.eqb c "?") eqn:Hc; [ reflexivity | ].
  simpl. rewrite Hc, IH. reflexivity.
Qed.

Lemma dispatch_recurses_once_and_falls_back_to_stripped_url_witness :
  let E := Demo.standard in
  stripIdempotent
  /\ dispatchGuarantee "http://example.com/a.png?x=1" "chan".
Proof.
  assert (H : stripIdempotent (E := Demo.standard)).
  { intros u stripped Hs. injection Hs as <-. left.
    change (Some (Demo.beforeQuery (Demo.beforeQuery u)) = Some (Demo.beforeQuery u)).
    rewrite beforeQuery_idempotent. reflexivity. }
  split; [ exact H | ].
  exact (dispatch_recurses_once_and_falls_back_to_stripped_url
           (E := Demo.standard) "http://example.com/a.png?x=1" "chan" H).
Defined.

(** C9 as stated fails: no resolver has links for this URL and it is no emoji
    link, yet the result is not [{inputURL: ""}]; its only key is the URL
    without its query. *)
Lemma fallback_is_not_the_input_url :
  let E := Demo.standard in
  let inputURL := "http://example.com/a.png?x=1" in
  tryResolvers siteResolvers inputURL "chan" = None
  /\ strings_HasPrefix inputURL emojiPrefix = false
  /\ getDownloadLinks 2 inputURL "chan" = Some {[ "http://example.com/a.png" := "" ]}
  /\ getDownloadLinks 2 inputURL "chan" <> Some {[ inputURL := "" ]}.
Proof.
  split; [ reflexivity | ]. split; [ reflexivity | ].
  split; [ vm_compute; reflexivity | ].
  intros H.
  apply (f_equal (fun r => r ≫= (fun m : gmap string string =>
                    m !! "http://example.com/a.png?x=1"))) in H.
  vm_compute in H. discriminate H.
Qed.

(** ** The pipeline on examples *)

(** Everything works: the file is written under the destination directory,
    one record is stored, the link is logged, one call was made. *)
Example download_succeeds :
  match startDownload (E := Demo.standard) 5
          (Demo.download "http://example.com/a.png" "") Demo.emptyWorld with
  | Returned r w' =>
      r = {| Status := downloadSuccess; Error := None |}
      /\ files w' !! "dl/a.png" = Some "PNG"
      /\ length (db w') = 1%nat
      /\ cachedDownloadID w' = 1
  | _ => False
  end.
Proof. vm_compute. repeat split; reflexivity. Qed.

(** The file exists and duplicates are not kept: skipped at the first call,
    nothing written, no sleep. *)
Example existing_file_is_skipped :
  match startDownload (E := Demo.env (Demo.channelConfig false) false (Demo.answers 200) 3) 5
          (Demo.download "http://example.com/a.png" "")
          (Demo.worldWith ["dl/a.png"]) with
  | Returned r w' =>
      r = {| Status := downloadSkippedDuplicate; Error := None |}
      /\ files w' !! "dl/a.png" = Some "old"
      /\ db w' = [] /\ cachedDownloadID w' = 1
      /\ effects w' = [EvMkdirAll "dl/"]
  | _ => False
  end.
Proof. vm_compute. repeat split; reflexivity. Qed.

(** The resource is gone: one call, no sleep, and the failure notice. *)
Example not_found_is_tried_once :
  match startDownload (E := Demo.gone) 5
          (Demo.download "http://example.com/a.png" "") Demo.emptyWorld with
  | Returned r w' =>
      r = {| Status := downloadFailed404; Error := None |}
      /\ cachedDownloadID w' = 1
      /\ effects w' = [ EvMkdirAll "dl/";
                        EvFailureNotice "chan" "u1" "http://example.com/a.png" 3
                          downloadFailed404 None ]
  | _ => False
  end.
Proof. vm_compute. repeat split; reflexivity. Qed.

(** The network refuses every connection: three calls, a sleep after each. *)
Example refused_connection_is_tried_three_times :
  match startDownload (E := Demo.env (Demo.channelConfig true) false Demo.refuses 3) 5
          (Demo.download "http://example.com/a.png" "") Demo.emptyWorld with
  | Returned r w' =>
      r = {| Status := downloadFailedDownloadingResponse;
             Error := Some "connection refused" |}
      /\ cachedDownloadID w' = 3
      /\ List.filter Demo.isSleep (effects w')
         = [EvSleep 5; EvSleep 5; EvSleep 5]
  | _ => False
  end.
Proof. vm_compute. repeat split; reflexivity. Qed.

(** The first attempt is refused, the second succeeds: two calls, one sleep. *)
Example transient_failure_is_retried :
  match startDownload (E := Demo.env (Demo.channelConfig true) false Demo.flaky 3) 5
          (Demo.download "http://example.com/a.png" "") Demo.emptyWorld with
  | Returned r w' =>
      r = {| Status := downloadSuccess; Error := None |}
      /\ cachedDownloadID w' = 2
      /\ files w' !! "dl/a.png" = Some "PNG"
      /\ List.filter Demo.isSleep (effects w') = [EvSleep 5]
  | _ => False
  end.
Proof. vm_compute. repeat split; reflexivity. Qed.

(** An allow-list of .png and .jpg: an .exe is skipped, also when the
    deny-list is empty; a .png passes, also when the deny-list holds it. *)
Example extension_outside_the_allow_list_is_skipped :
  let allowing := fun blocked =>
    Demo.env (Demo.withExtensions (Some [".png"; ".jpg"]) blocked (Demo.channelConfig true))
      false (Demo.answers 200) 3 in
  tryDownload (E := allowing None) 5
    (Demo.download "http://example.com/a.exe" "") Demo.emptyWorld
  = Returned {| Status := downloadSkippedUnpermittedExtension; Error := None |}
      (emit (EvMkdirAll "dl/") (nextDownloadID Demo.emptyWorld))
  /\ match tryDownload (E := allowing (Some [".png"])) 5
             (Demo.download "http://example.com/a.png" "") Demo.emptyWorld with
     | Returned r _ => r = {| Status := downloadSuccess; Error := None |}
     | _ => False
     end.
Proof. vm_compute. repeat split; reflexivity. Qed.

(** The same picture under two names: the first is kept and indexed, the
    second is a near-duplicate. *)
Example second_copy_is_a_near_duplicate :
  match tryDownload (E := Demo.standard) 5
          (Demo.download "http://example.com/a.png" "") Demo.emptyWorld with
  | Returned r1 w1 =>
      r1 = {| Status := downloadSuccess; Error := None |}
      /\ imgStore w1 = [(1, "PNG")]
      /\ match tryDownload (E := Demo.standard) 5
                 (Demo.download "http://example.com/b.png" "") w1 with
         | Returned r2 w2 =>
             r2 = {| Status := downloadSkippedDetectedDuplicate; Error := None |}
             /\ files w2 !! "dl/b.png" = None /\ imgStore w2 = [(1, "PNG")]
         | _ => False
         end
  | _ => False
  end.
Proof. vm_compute. repeat split; reflexivity. Qed.

(** * Further properties of downloads.go *)

(** ** The status as text *)

(** X1.  [getDownloadStatusString] gives every status a text of its own;
    "Unknown Error" is the text of exactly the numbers that are no status;
    and the text begins with "Download Failed" exactly for the statuses from
    [downloadFailed] on, with "Download Skipped" exactly for those from
    [downloadSkipped] up to there. *)
Theorem status_texts_are_distinct_and_classified :
  (forall a b : downloadStatus,
     getDownloadStatusString (statusCode a) = getDownloadStatusString (statusCode b) ->
     a = b)
  /\ (forall z : Z,
        getDownloadStatusString z = "Unknown Error"
        <-> ~ exists s, statusCode s = z)
  /\ (forall s : downloadStatus,
        strings_HasPrefix (getDownloadStatusString (statusCode s)) "Download Failed"
        = status_geb s downloadFailed)
  /\ (forall s : downloadStatus,
        strings_HasPrefix (getDownloadStatusString (statusCode s)) "Download Skipped"
        = status_geb s downloadSkipped && status_ltb s downloadFailed).
Proof.
  split; [ | split; [ | split ] ].
  - intros a b. destruct a, b; intros H; first [ reflexivity | vm_compute in H; discriminate H ].
  - intros z. split.
    + intros Hz [s <-]. destruct s; vm_compute in Hz; discriminate Hz.
    + intros Hno. unfold getDownloadStatusString.
      repeat match goal with
             | |- context [z =? statusCode ?s] =>
                 destruct (Z.eqb_spec z (statusCode s)) as [Heq | _];
                 [ exfalso; apply Hno; exists s; symmetry; exact Heq | ]
             end.
      reflexivity.
  - intros s. destruct s; reflexivity.
  - intros s. destruct s; reflexivity.
Qed.

(** ** Duplicate links *)

Lemma trimDuplicateLinksLoop_result seen result fileItems :
  trimDuplicateLinksLoop seen result fileItems
  = result ++ trimDuplicateLinksLoop seen [] fileItems.
Proof.
  revert seen result. induction fileItems as [| item rest IH]; intros seen result; simpl.
  - rewrite app_nil_r. reflexivity.
  - destruct (default false (seen !! Link item)); [ apply IH | ].
    rewrite IH, (IH _ [item]), <- app_assoc. reflexivity.
Qed.

Lemma trimDuplicateLinksLoop_cons seen item rest :
  trimDuplicateLinksLoop seen [] (item :: rest)
  = if default false (seen !! Link item)
    then trimDuplicateLinksLoop seen [] rest
    else item :: trimDuplicateLinksLoop (<[Link item := true]> seen) [] rest.
Proof.
  simpl. destruct (default false (seen !! Link item)); [ reflexivity | ].
  apply (trimDuplicateLinksLoop_result _ [item]).
Qed.

Lemma seen_insert (seen : gmap string bool) (k k' : string) :
  default false (<[k := true]> seen !! k') = bool_decide (k = k') || default false (seen !! k').
Proof.
  destruct (decide (k = k')) as [-> | Hne].
  - rewrite lookup_insert_eq, bool_decide_eq_true_2 by reflexivity. reflexivity.
  - rewrite lookup_insert_ne, bool_decide_eq_false_2 by assumption. reflexivity.
Qed.

(** What the loop keeps: items of the input whose link was not seen, each
    link once, in the order of the input, and every unseen link of the input. *)
Lemma trimDuplicateLinksLoop_spec fileItems : forall seen,
  let kept := trimDuplicateLinksLoop seen [] fileItems in
  (forall x, In x kept -> In x fileItems /\ default false (seen !! Link x) = false)
  /\ NoDup (Link <$> kept)
  /\ sublist kept fileItems
  /\ (forall l1 x l2, fileItems = l1 ++ x :: l2 ->
        ~ In (Link x) (Link <$> l1) -> default false (seen !! Link x) = false ->
        In x kept).
Proof.
  induction fileItems as [| item rest IH]; intros seen kept; subst kept.
  - simpl. repeat split; try tauto; try constructor.
    intros l1 x l2 H. destruct l1; discriminate H.
  - rewrite trimDuplicateLinksLoop_cons.
    destruct (default false (seen !! Link item)) eqn:Hseen.
    + destruct (IH seen) as (Hin & Hnd & Hsub & Hfirst).
      split; [ intros x Hx; destruct (Hin x Hx); split; [ right | ]; assumption | ].
      split; [ exact Hnd | ]. split; [ apply sublist_cons, Hsub | ].
      intros l1 x l2 Heq Hfresh Hx. destruct l1 as [| y l1]; simpl in Heq.
      * injection Heq as <- <-. congruence.
      * injection Heq as <- ->. apply (Hfirst l1 x l2 eq_refl); [ | exact Hx ].
        intros H. apply Hfresh. right. exact H.
    + destruct (IH (<[Link item := true]> seen)) as (Hin & Hnd & Hsub & Hfirst).
      split; [ | split; [ | split ] ].
      * intros x [<- | Hx]; [ split; [ left; reflexivity | exact Hseen ] | ].
        destruct (Hin x Hx) as [Hr Hs]. split; [ right; exact Hr | ].
        rewrite seen_insert in Hs. apply orb_false_iff in Hs. apply Hs.
      * simpl. constructor; [ | exact Hnd ].
        intros Hdup. apply list_elem_of_fmap in Hdup. destruct Hdup as (y & Hy & Hyin).
        apply list_elem_of_In in Hyin. destruct (Hin y Hyin) as [_ Hs].
        rewrite seen_insert, Hy, bool_decide_eq_true_2 in Hs by reflexivity.
        discriminate Hs.
      * apply sublist_skip, Hsub.
      * intros l1 x l2 Heq Hfresh Hx. destruct l1 as [| y l1]; simpl in Heq.
        -- injection Heq as <- <-. left. reflexivity.
        -- injection Heq as <- ->. right.
           apply (Hfirst l1 x l2 eq_refl).
           ++ intros H. apply Hfresh. right. exact H.
           ++ rewrite seen_insert, Hx, orb_false_r. apply bool_decide_eq_false_2.
              intros Heq. apply Hfresh. left. exact Heq.
Qed.

(** X2.  [trimDuplicateLinks] keeps items of its input, in their order; no
    two kept items share a link; of the items that share a link it keeps the
    first; and no link of the input is lost. *)
Theorem trimDuplicateLinks_keeps_first_of_each_link (fileItems : list fileItem) :
  let kept := trimDuplicateLinks fileItems in
  sublist kept fileItems
  /\ NoDup (Link <$> kept)
  /\ (forall l1 x l2, fileItems = l1 ++ x :: l2 ->
        ~ In (Link x) (Link <$> l1) -> In x kept)
  /\ (forall x, In x fileItems -> In (Link x) (Link <$> kept)).
Proof.
  intros kept. subst kept. unfold trimDuplicateLinks.
  destruct (trimDuplicateLinksLoop_spec fileItems ∅) as (Hin & Hnd & Hsub & Hfirst).
  split; [ exact Hsub | ]. split; [ exact Hnd | ].
  assert (Hfirst' : forall l1 x l2, fileItems = l1 ++ x :: l2 ->
            ~ In (Link x) (Link <$> l1) ->
            In x (trimDuplicateLinksLoop ∅ [] fileItems)).
  { intros l1 x l2 Heq Hfresh. apply (Hfirst l1 x l2 Heq Hfresh).
    rewrite lookup_empty. reflexivity. }
  split; [ exact Hfirst' | ].
  intros x Hx.
  (* the first item of the input that carries the link of [x] is kept *)
  assert (Hsplit : exists l1 y l2, fileItems = l1 ++ y :: l2 /\ Link y = Link x
                     /\ ~ In (Link x) (Link <$> l1)).
  { clear -Hx. induction fileItems as [| z rest IH]; [ contradiction | ].
    destruct (decide (Link z = Link x)) as [Hz | Hz].
    - exists [], z, rest. repeat split; [ exact Hz | intros [] ].
    - destruct Hx as [-> | Hx]; [ contradiction | ].
      destruct (IH Hx) as (l1 & y & l2 & -> & Hy & Hfresh).
      exists (z :: l1), y, l2. repeat split; [ exact Hy | ].
      intros [H | H]; [ contradiction | exact (Hfresh H) ]. }
  destruct Hsplit as (l1 & y & l2 & Heq & Hy & Hfresh).
  rewrite <- Hy. apply in_map. apply (Hfirst' l1 y l2 Heq). rewrite Hy. exact Hfresh.
Qed.

Lemma trimDuplicateLinksLoop_id fileItems : forall seen,
  NoDup (Link <$> fileItems) ->
  (forall x, In x fileItems -> default false (seen !! Link x) = false) ->
  trimDuplicateLinksLoop seen [] fileItems = fileItems.
Proof.
  induction fileItems as [| item rest IH]; intros seen Hnd Hseen; [ reflexivity | ].
  rewrite trimDuplicateLinksLoop_cons, (Hseen item) by (left; reflexivity).
  simpl in Hnd. apply NoDup_cons in Hnd. destruct Hnd as [Hfresh Hnd].
  f_equal. apply IH; [ exact Hnd | ].
  intros x Hx. rewrite seen_insert, (Hseen x) by (right; exact Hx).
  rewrite orb_false_r. apply bool_decide_eq_false_2. intros Heq.
  apply Hfresh. rewrite Heq. apply list_elem_of_fmap. exists x.
  split; [ reflexivity | apply list_elem_of_In; exact Hx ].
Qed.

(** X3.  A list without repeated links passes [trimDuplicateLinks] unchanged;
    hence trimming twice is trimming once. *)
Theorem trimDuplicateLinks_fixes_distinct_links (fileItems : list fileItem) :
  (NoDup (Link <$> fileItems) -> trimDuplicateLinks fileItems = fileItems)
  /\ trimDuplicateLinks (trimDuplicateLinks fileItems) = trimDuplicateLinks fileItems.
Proof.
  assert (Hid : forall l, NoDup (Link <$> l) -> trimDuplicateLinks l = l).
  { intros l Hnd. apply trimDuplicateLinksLoop_id; [ exact Hnd | ].
    intros x _. rewrite lookup_empty. reflexivity. }
  split; [ apply Hid | ].
  apply Hid. apply (trimDuplicateLinksLoop_spec fileItems ∅).
Qed.

(** ** Raw links *)

Lemma embedLinks_not_empty (embed : Embed) (x : fileItem) :
  In x (embedLinks embed) ->
  Link x <> "" /\ link_Filename x = "" /\ link_Time x = None
  /\ (Link x = embed_URL embed \/ Some (Link x) = embed_Image embed
      \/ Some (Link x) = embed_Video embed).
Proof.
  unfold embedLinks. rewrite !in_app_iff.
  intros [H | [H | H]].
  - destruct (String.eqb_spec (embed_URL embed) ""); simpl in H; [ contradiction | ].
    destruct H as [<- | []]. simpl.
    repeat split; [ assumption | left; reflexivity ].
  - destruct (embed_Image embed) as [url |]; [ | contradiction ].
    destruct (String.eqb_spec url ""); simpl in H; [ contradiction | ].
    destruct H as [<- | []]. simpl.
    repeat split; [ assumption | right; left; reflexivity ].
  - destruct (embed_Video embed) as [url |]; [ | contradiction ].
    destruct (String.eqb_spec url ""); simpl in H; [ contradiction | ].
    destruct H as [<- | []]. simpl.
    repeat split; [ assumption | right; right; reflexivity ].
Qed.

(** The links of an embed are the URLs it carries that are not empty, in
    the order URL, image, video. *)
Lemma embedLinks_listed (embed : Embed) :
  embedLinks embed = map linkOnly (listedURLs embed).
Proof.
  unfold embedLinks, listedURLs, embedURLs, linkOnly.
  destruct (embed_Image embed) as [i |], (embed_Video embed) as [v |]; simpl;
    repeat match goal with
           | |- context [String.eqb ?u ""] => destruct (String.eqb u "")
           end; reflexivity.
Qed.

Lemma embeds_listed (embeds : list Embed) :
  concat (map embedLinks embeds) = map linkOnly (concat (map listedURLs embeds)).
Proof.
  induction embeds as [| embed rest IH]; [ reflexivity | ].
  simpl. rewrite map_app, IH, embedLinks_listed. reflexivity.
Qed.

(** X4.  [getRawLinks] leaves the message with an author (the one it had, or
    an empty user) and changes nothing else of it.  It lists the attachments
    first, each with its file name, then the URLs found in the text, then the
    links of the embeds, embed by embed: for each embed its URL, the URL of
    its image and the URL of its video, in this order, each when it is there
    and not empty.  So every such URL of every embed is listed; an item that
    carries a file name is an attachment, a link that comes from an embed is
    never empty, an embed gives at most three links, and no item carries a
    time. *)
Theorem getRawLinks_orders_and_names_links {C : CollectorExternals}
    (m : Message) (body : MessageBody) :
  let m' := fst (getRawLinks m body) in
  let links := snd (getRawLinks m body) in
  let found := xurls_FindAllString (Content body) in
  let fromEmbeds := map linkOnly (concat (map listedURLs (Embeds body))) in
  (Author m' <> None /\ (Author m <> None -> m' = m)
   /\ ChannelID m' = ChannelID m /\ GuildID m' = GuildID m
   /\ msg_ID m' = msg_ID m /\ Timestamp m' = Timestamp m)
  /\ (links = map (fun a => {| Link := att_URL a; link_Filename := att_Filename a;
                               link_Time := None |}) (Attachments body)
              ++ map linkOnly found
              ++ fromEmbeds
      /\ (length fromEmbeds <= 3 * length (Embeds body))%nat
      /\ (forall x, In x fromEmbeds ->
            Link x <> "" /\ link_Filename x = ""
            /\ exists embed, In embed (Embeds body)
                 /\ (Link x = embed_URL embed \/ Some (Link x) = embed_Image embed
                     \/ Some (Link x) = embed_Video embed))
      /\ (forall embed u, In embed (Embeds body) -> u <> "" ->
            u = embed_URL embed \/ Some u = embed_Image embed
            \/ Some u = embed_Video embed ->
            In (linkOnly u) fromEmbeds /\ In (linkOnly u) links))
  /\ (forall x, In x links -> link_Filename x <> "" ->
        exists a, In a (Attachments body)
          /\ Link x = att_URL a /\ link_Filename x = att_Filename a)
  /\ (forall x, In x links -> link_Time x = None).
Proof.
  intros m' links found fromEmbeds. subst m' links found fromEmbeds.
  unfold getRawLinks. simpl. rewrite <- embeds_listed.
  assert (Hembeds : forall x, In x (concat (map embedLinks (Embeds body))) ->
            exists embed, In embed (Embeds body) /\ In x (embedLinks embed)).
  { intros x Hx. apply in_concat in Hx. destruct Hx as (l & Hl & Hx).
    apply in_map_iff in Hl. destruct Hl as (embed & <- & He). eauto. }
  assert (Hlisted : forall embed u, In embed (Embeds body) -> u <> "" ->
            u = embed_URL embed \/ Some u = embed_Image embed
            \/ Some u = embed_Video embed ->
            In (linkOnly u) (concat (map embedLinks (Embeds body)))).
  { intros embed u He Hu Hsrc. apply in_concat. exists (embedLinks embed).
    split; [ apply in_map, He | ].
    rewrite embedLinks_listed. apply in_map.
    unfold listedURLs. apply List.filter_In. split.
    - unfold embedURLs. simpl. rewrite in_app_iff.
      destruct Hsrc as [-> | [<- | <-]]; simpl; auto.
    - apply String.eqb_neq in Hu. rewrite Hu. reflexivity. }
  split; [ | split; [ | split ] ].
  - destruct (Author m) as [author |] eqn:Ha; simpl.
    + rewrite Ha. repeat split; congruence.
    + repeat split; congruence.
  - split; [ rewrite <- app_assoc; reflexivity | ]. split; [ | split ].
    + clear Hembeds Hlisted.
      induction (Embeds body) as [| embed rest IH]; simpl; [ lia | ].
      rewrite length_app.
      assert (length (embedLinks embed) <= 3)%nat; [ | lia ].
      unfold embedLinks. rewrite !length_app.
      destruct (negb _), (embed_Image embed) as [i |], (embed_Video embed) as [v |];
        repeat match goal with |- context [if ?c then _ else _] => destruct c end;
        simpl; lia.
    + intros x Hx. destruct (Hembeds x Hx) as (embed & He & Hin).
      destruct (embedLinks_not_empty embed x Hin) as (Hl & Hf & _ & Hsrc).
      split; [ exact Hl | ]. split; [ exact Hf | ]. eauto.
    + intros embed u He Hu Hsrc.
      pose proof (Hlisted embed u He Hu Hsrc) as Hin.
      split; [ exact Hin | ]. rewrite !in_app_iff. right. exact Hin.
  - intros x Hx Hname. rewrite !in_app_iff in Hx. destruct Hx as [[Hx | Hx] | Hx].
    + apply in_map_iff in Hx. destruct Hx as (a & <- & Ha). exists a. auto.
    + apply in_map_iff in Hx. destruct Hx as (l & <- & _). contradiction.
    + destruct (Hembeds x Hx) as (embed & _ & Hin).
      destruct (embedLinks_not_empty embed x Hin) as (_ & Hf & _). contradiction.
  - intros x Hx. rewrite !in_app_iff in Hx. destruct Hx as [[Hx | Hx] | Hx].
    + apply in_map_iff in Hx. destruct Hx as (a & <- & _). reflexivity.
    + apply in_map_iff in Hx. destruct Hx as (l & <- & _). reflexivity.
    + destruct (Hembeds x Hx) as (embed & _ & Hin).
      apply (embedLinks_not_empty embed x Hin).
Qed.

(** A message with one attachment, its URL as text, and one embed that has
    a URL, an image and a video without URL: four links, the last two from
    the embed. *)
Example getRawLinks_of_the_sample :
  Link <$> snd (getRawLinks (C := Sample.collector) Sample.anonymous Sample.body)
  = [ "http://example.com/a.png"; "http://example.com/a.png";
      "http://example.com/a.png"; "http://example.com/b.png" ]
  /\ concat (map listedURLs (Embeds Sample.body))
     = [ "http://example.com/a.png"; "http://example.com/b.png" ].
Proof. split; reflexivity. Qed.

(** ** File links *)

Section FileLinks.
Context {E : Externals} {C : CollectorExternals}.
Hypothesis rangeMap_entries : forall links, rangeMap links ≡ₚ map_to_list links.

Lemma fileItemsOf_In rawLink linkTime links x :
  In x (fileItemsOf rawLink linkTime links)
  <-> exists k v, links !! k = Some v
        /\ x = {| Link := k;
                  link_Filename := if negb (String.eqb (link_Filename rawLink) "")
                                   then link_Filename rawLink else v;
                  link_Time := Some linkTime |}.
Proof.
  unfold fileItemsOf. rewrite in_map_iff. split.
  - intros ([k v] & <- & Hin). exists k, v. split; [ | reflexivity ].
    apply elem_of_map_to_list. rewrite <- rangeMap_entries.
    apply list_elem_of_In. exact Hin.
  - intros (k & v & Hkv & ->). exists (k, v). split; [ reflexivity | ].
    apply list_elem_of_In. rewrite rangeMap_entries.
    apply elem_of_map_to_list. exact Hkv.
Qed.

Lemma collectFileItems_spec fuel channelID linkTime : forall rawLinks fileItems result,
  collectFileItems fuel channelID linkTime fileItems rawLinks = Some result ->
  exists added, result = fileItems ++ added
    /\ (forall x, In x added ->
          exists raw links, In raw rawLinks
            /\ getDownloadLinks fuel (Link raw) channelID = Some links
            /\ In x (fileItemsOf raw linkTime links))
    /\ (forall raw links x, In raw rawLinks ->
          getDownloadLinks fuel (Link raw) channelID = Some links ->
          In x (fileItemsOf raw linkTime links) -> In x added).
Proof.
  induction rawLinks as [| raw rest IH]; intros fileItems result Hrun; simpl in Hrun.
  - injection Hrun as <-. exists []. rewrite app_nil_r.
    repeat split; intros; contradiction.
  - destruct (getDownloadLinks fuel (Link raw) channelID) as [links |] eqn:Hlinks;
      [ | discriminate ].
    destruct (IH _ _ Hrun) as (added & -> & Hfrom & Hall).
    exists (fileItemsOf raw linkTime links ++ added).
    split; [ rewrite app_assoc; reflexivity | ]. split.
    + intros x Hx. apply in_app_iff in Hx. destruct Hx as [Hx | Hx].
      * exists raw, links. repeat split; [ left; reflexivity | exact Hlinks | exact Hx ].
      * destruct (Hfrom x Hx) as (raw' & links' & Hraw & Hl & Hin).
        exists raw', links'. repeat split; [ right; exact Hraw | exact Hl | exact Hin ].
    + intros raw' links' x [<- | Hraw] Hl Hin; apply in_app_iff.
      * left. congruence.
      * right. apply (Hall raw' links' x Hraw Hl Hin).
Qed.

End FileLinks.

(** X5.  When [range] walks each map through its entries, whatever the order:
    [getFileLinks] returns no link twice; every item it returns is a link
    that [getDownloadLinks] found for a raw link of the message, stamped with
    the time of the message, and named after the raw link when that has a
    name (an attachment) and as dispatch suggests otherwise; and every link
    that dispatch found is among the items. *)
Theorem getFileLinks_returns_each_resolved_link_once
    {E : Externals} {C : CollectorExternals} (fuel : nat)
    (m : Message) (body : MessageBody) (m' : Message) (items : list fileItem) :
  (forall links, rangeMap links ≡ₚ map_to_list links) ->
  getFileLinks fuel m body = Some (m', items) ->
  fileLinksGuarantee fuel m body m' items.
Proof.
  intros Hrange Hrun. unfold getFileLinks in Hrun. cbv zeta in Hrun.
  assert (Hchan : ChannelID (fst (getRawLinks m body)) = ChannelID m).
  { unfold getRawLinks. simpl. destruct (Author m); reflexivity. }
  rewrite Hchan in Hrun.
  destruct (collectFileItems fuel (ChannelID m) _ [] (snd (getRawLinks m body)))
    as [collected |] eqn:Hcollect; [ | discriminate ].
  injection Hrun as <- <-.
  destruct (collectFileItems_spec _ _ _ _ _ _ Hcollect)
    as (added & Heq & Hfrom & Hall).
  simpl in Heq. subst collected.
  destruct (trimDuplicateLinksLoop_spec added ∅) as (Hin & Hnd & _ & _).
  unfold fileLinksGuarantee. cbv zeta.
  split; [ reflexivity | ]. split; [ exact Hnd | ]. split.
  - intros x Hx. destruct (Hin x Hx) as [Hadded _].
    destruct (Hfrom x Hadded) as (raw & links & Hraw & Hlinks & Hitem).
    apply (fileItemsOf_In Hrange) in Hitem. destruct Hitem as (k & v & Hkv & ->).
    split; [ reflexivity | ]. exists raw, links, v. auto.
  - intros raw links k Hraw Hlinks [v Hkv].
    set (x := {| Link := k;
                 link_Filename := if negb (String.eqb (link_Filename raw) "")
                                  then link_Filename raw else v;
                 link_Time := Some (default collector_Now
                                      (Timestamp_Parse (Timestamp m))) |}).
    assert (Hx : In x added).
    { apply (Hall raw links x Hraw Hlinks). apply (fileItemsOf_In Hrange). eauto. }
    (* the first item that carries this link is kept *)
    assert (Hsplit : exists l1 y l2, added = l1 ++ y :: l2 /\ Link y = k
                       /\ ~ In k (Link <$> l1)).
    { clear -Hx. change k with (Link x). induction added as [| z rest IH]; [ contradiction | ].
      destruct (decide (Link z = Link x)) as [Hz | Hz].
      - exists [], z, rest. repeat split; [ exact Hz | intros [] ].
      - destruct Hx as [-> | Hx]; [ contradiction | ].
        destruct (IH Hx) as (l1 & y & l2 & -> & Hy & Hfresh).
        exists (z :: l1), y, l2. repeat split; [ exact Hy | ].
        intros [H | H]; [ contradiction | exact (Hfresh H) ]. }
    destruct Hsplit as (l1 & y & l2 & Heq & Hy & Hfresh).
    destruct (trimDuplicateLinksLoop_spec added ∅) as (_ & _ & _ & Hfirst).
    rewrite <- Hy. apply in_map. apply (Hfirst l1 y l2 Heq).
    + rewrite Hy. exact Hfresh.
    + rewrite lookup_empty. reflexivity.
Qed.

(** An attachment whose URL the text and an embed repeat, and an embedded
    image: two links, the first under the name of the attachment. *)
Lemma getFileLinks_returns_each_resolved_link_once_witness :
  let E := Demo.standard in
  let C := Sample.collector in
  let m' := fst (getRawLinks Sample.anonymous Sample.body) in
  let items := [ {| Link := "http://example.com/a.png"; link_Filename := "cat.png";
                    link_Time := Some 7 |};
                 {| Link := "http://example.com/b.png"; link_Filename := "";
                    link_Time := Some 7 |} ] in
  (forall links, rangeMap links ≡ₚ map_to_list links)
  /\ getFileLinks 2 Sample.anonymous Sample.body = Some (m', items)
  /\ fileLinksGuarantee 2 Sample.anonymous Sample.body m' items.
Proof.
  assert (H : forall links : gmap string string,
            rangeMap (CollectorExternals := Sample.collector) links ≡ₚ map_to_list links)
    by reflexivity.
  split; [ exact H | ]. split; [ vm_compute; reflexivity | ].
  apply (getFileLinks_returns_each_resolved_link_once
           (E := Demo.standard) (C := Sample.collector)).
  - exact H.
  - vm_compute; reflexivity.
Defined.

(** ** The chain of resolvers *)

Lemma tryResolvers_skips_fruitless {E : Externals} inputURL channelID :
  forall before rest,
    Forall (fun r => fruitless r inputURL channelID) before ->
    tryResolvers (before ++ rest) inputURL channelID
    = tryResolvers rest inputURL channelID.
Proof.
  induction before as [| r before IH]; intros rest Hall; [ reflexivity | ].
  apply Forall_cons in Hall. destruct Hall as [Hr Hall]. simpl.
  destruct Hr as [-> | [[err ->] | (links & -> & Hsize)]].
  - apply IH, Hall.
  - destruct (guard r inputURL); apply IH, Hall.
  - rewrite Hsize. simpl. destruct (guard r inputURL); apply IH, Hall.
Qed.

(** X6.  The first resolver that matches the URL and returns at least one
    link decides the result: resolvers before it that do not match, that fail
    or that find nothing are passed over, resolvers after it are not
    consulted, and [getDownloadLinks] returns its links (through
    [trimDownloadedLinks], once) without looking at the emoji prefix or at
    the query. *)
Theorem first_resolver_with_links_wins {E : Externals}
    (before : list siteResolver) (r : siteResolver) (after : list siteResolver)
    (links : gmap string string) (inputURL channelID : string) :
  Forall (fun r' => fruitless r' inputURL channelID) before ->
  guard r inputURL = true ->
  fetch r inputURL channelID = inl links ->
  size links <> 0%nat ->
  firstResolverWins before r after links inputURL channelID.
Proof.
  intros Hbefore Hguard Hfetch Hsize.
  assert (Hwin : forall after',
            tryResolvers (before ++ r :: after') inputURL channelID
            = Some (trimDownloadedLinks links channelID)).
  { intros after'. rewrite tryResolvers_skips_fruitless by exact Hbefore.
    simpl. rewrite Hguard, Hfetch.
    destruct (Nat.ltb_spec 0 (size links)); [ reflexivity | lia ]. }
  unfold firstResolverWins. split; [ apply Hwin | ]. split; [ exact Hwin | ].
  intros Hrs fuel. simpl. rewrite Hrs, Hwin. reflexivity.
Qed.

Lemma first_resolver_with_links_wins_witness :
  let E := Sample.withResolvers [Sample.deaf; Sample.broken; Sample.blind;
                                 Sample.finder; Sample.broken] in
  let links : gmap string string := {[ "http://cdn.example.com/x.png" := "x.png" ]} in
  let url := "https://cdn.discordapp.com/emojis/1.png?v=1" in
  Forall (fun r' => fruitless r' url "chan") [Sample.deaf; Sample.broken; Sample.blind]
  /\ guard Sample.finder url = true
  /\ fetch Sample.finder url "chan" = inl links
  /\ size links <> 0%nat
  /\ firstResolverWins [Sample.deaf; Sample.broken; Sample.blind] Sample.finder
       [Sample.broken] links url "chan".
Proof.
  assert (H : Forall (fun r' => fruitless r' "https://cdn.discordapp.com/emojis/1.png?v=1" "chan")
                [Sample.deaf; Sample.broken; Sample.blind]).
  { constructor; [ | constructor; [ | constructor; [ | constructor ] ] ].
    - left. reflexivity.
    - right. left. eexists. reflexivity.
    - right. right. exists ∅. split; reflexivity. }
  split; [ exact H | ]. split; [ reflexivity | ]. split; [ reflexivity | ].
  split; [ vm_compute; discriminate | ].
  apply (first_resolver_with_links_wins
           (E := Sample.withResolvers [Sample.deaf; Sample.broken; Sample.blind;
                                       Sample.finder; Sample.broken])).
  - exact H.
  - reflexivity.
  - reflexivity.
  - vm_compute; discriminate.
Defined.

(** X7.  The chain of resolvers falls through exactly when every resolver is
    fruitless for the URL; in particular a resolver that fails never ends the
    chain.  When it does not fall through, its result is the links of some
    resolver that matched and found at least one. *)
Theorem resolvers_fall_through_iff_all_fruitless {E : Externals}
    (rs : list siteResolver) (inputURL channelID : string) :
  (tryResolvers rs inputURL channelID = None
   <-> Forall (fun r => fruitless r inputURL channelID) rs)
  /\ (forall result, tryResolvers rs inputURL channelID = Some result ->
        exists r links, In r rs /\ guard r inputURL = true
          /\ fetch r inputURL channelID = inl links /\ size links <> 0%nat
          /\ result = trimDownloadedLinks links channelID).
Proof.
  induction rs as [| r rest [IHnone IHsome]]; simpl.
  - split; [ split; [ constructor | reflexivity ] | discriminate ].
  - destruct (guard r inputURL) eqn:Hguard.
    + destruct (fetch r inputURL channelID) as [links | err] eqn:Hfetch.
      * destruct (Nat.ltb_spec 0 (size links)) as [Hpos | Hzero].
        -- split.
           ++ split; [ discriminate | ]. intros Hall. apply Forall_cons in Hall.
              destruct Hall as [[Hg | [[e He] | (l & Hl & Hs)]] _]; try congruence.
              assert (l = links) by congruence. subst l. lia.
           ++ intros result Hres. injection Hres as <-. exists r, links.
              split; [ left; reflexivity | ]. split; [ exact Hguard | ].
              split; [ exact Hfetch | ]. split; [ lia | reflexivity ].
        -- split.
           ++ rewrite IHnone. split; [ | intros H; apply Forall_cons in H; apply H ].
              intros Hall. constructor; [ | exact Hall ].
              right. right. exists links. split; [ exact Hfetch | lia ].
           ++ intros result Hres. destruct (IHsome result Hres) as (r' & l & Hin & H).
              exists r', l. split; [ right; exact Hin | exact H ].
      * split.
        -- rewrite IHnone. split; [ | intros H; apply Forall_cons in H; apply H ].
           intros Hall. constructor; [ | exact Hall ]. right. left. eauto.
        -- intros result Hres. destruct (IHsome result Hres) as (r' & l & Hin & H).
           exists r', l. split; [ right; exact Hin | exact H ].
    + split.
      * rewrite IHnone. split; [ | intros H; apply Forall_cons in H; apply H ].
        intros Hall. constructor; [ left; exact Hguard | exact Hall ].
      * intros result Hres. destruct (IHsome result Hres) as (r' & l & Hin & H).
        exists r', l. split; [ right; exact Hin | exact H ].
Qed.

(** ** What a call of the executor returns and leaves behind *)

(** X8.  A call of [tryDownload] that returns, returns one of sixteen
    statuses: never the generic [downloadSkipped] or [downloadFailed], and
    never [downloadFailedRequesting].  It returns [downloadIgnored] exactly
    when the channel is not enrolled and the request is neither an emoji nor
    a manual download, and then it has done nothing but advance the download
    counter. *)
Theorem executor_returns_no_generic_status {E : Externals} (fuel : nat)
    (download : downloadRequestStruct) (w : World) (r : downloadStatusStruct) (w' : World) :
  tryDownload fuel download w = Returned r w' ->
  In (Status r) executorStatuses
  /\ ~ In (Status r) [downloadSkipped; downloadFailed; downloadFailedRequesting]
  /\ (Status r = downloadIgnored <-> enrolled download = false)
  /\ (enrolled download = false ->
      r = mDownloadStatus downloadIgnored [] /\ w' = nextDownloadID w).
Proof.
  intros Hcall.
  pose proof (tryDownload_shape (fun _ _ => True) frame_total
                (fun _ _ => True) frame_total (fun _ _ => I) fuel download w
                (fun r w' =>
                   In (Status r) executorStatuses
                   /\ (Status r = downloadIgnored <-> enrolled download = false)
                   /\ (enrolled download = false ->
                       r = mDownloadStatus downloadIgnored [] /\ w' = nextDownloadID w))
                (fun _ => True)) as H.
  rewrite Hcall in H.
  assert (Hgoal : In (Status r) executorStatuses
                  /\ (Status r = downloadIgnored <-> enrolled download = false)
                  /\ (enrolled download = false ->
                      r = mDownloadStatus downloadIgnored [] /\ w' = nextDownloadID w)).
  { apply H; clear H.
    - intros Hen. split; [ left; reflexivity | ]. split; [ tauto | auto ].
    - intros Hen. rewrite Hen.
      split; [ | split; [ exact (fun _ _ => I) | ] ].
      + intros r0 w0 _ Hin. split; [ do 4 right; exact Hin | ].
        split; [ | discriminate ].
        split; [ | discriminate ].
        intros Hs. rewrite Hs in Hin. simpl in Hin.
        repeat (destruct Hin as [Hin | Hin]; [ discriminate Hin | ]). contradiction.
      + intros download' completePath bodyOfResp w1 _ _ _ _. split.
        * intros err _. simpl. split; [ tauto | ]. split; [ | discriminate ].
          split; discriminate.
        * intros w2 _ item. split.
          -- intros err _. simpl. split; [ tauto | ]. split; [ | discriminate ].
             split; discriminate.
          -- intros _ w3 _. split; [ | exact I ]. simpl.
             split; [ tauto | ]. split; [ | discriminate ]. split; discriminate. }
  destruct Hgoal as (Hin & Hiff & Hw). repeat split; try tauto.
  intros Hbad. clear -Hin Hbad. simpl in Hin, Hbad.
  destruct (Status r); intuition discriminate.
Qed.

(** A picture that downloads at the first attempt. *)
Lemma executor_returns_no_generic_status_witness :
  let E := Demo.standard in
  let download := Demo.download "http://example.com/a.png" "" in
  exists r w',
    tryDownload 5 download Demo.emptyWorld = Returned r w'
    /\ Status r = downloadSuccess
    /\ In (Status r) executorStatuses
    /\ ~ In (Status r) [downloadSkipped; downloadFailed; downloadFailedRequesting]
    /\ (Status r = downloadIgnored <-> enrolled download = false)
    /\ (enrolled download = false ->
        r = mDownloadStatus downloadIgnored [] /\ w' = nextDownloadID Demo.emptyWorld).
Proof.
  intros E download.
  destruct (tryDownload 5 download Demo.emptyWorld) as [r w' | w' |] eqn:Hcall;
    [ | vm_compute in Hcall; discriminate Hcall .. ].
  exists r, w'. split; [ reflexivity | ].
  pose proof (executor_returns_no_generic_status 5 download Demo.emptyWorld r w' Hcall) as H.
  split; [ | exact H ].
  vm_compute in Hcall. injection Hcall as <- _. reflexivity.
Defined.

Lemma sameCall_same a b :
  cachedDownloadID b = cachedDownloadID a -> imgStore b = imgStore a -> sameCall a b.
Proof.
  intros Hid Hst. split; [ exact Hid | ]. exists []. rewrite app_nil_r. auto.
Qed.

Lemma sameCall_trans a b c : sameCall a b -> sameCall b c -> sameCall a c.
Proof.
  intros (Hid1 & l1 & Hs1 & Hl1) (Hid2 & l2 & Hs2 & Hl2).
  split; [ congruence | ]. exists (l1 ++ l2).
  split; [ rewrite Hs2, Hs1, app_assoc; reflexivity | ].
  apply Forall_app. split; [ exact Hl1 | ].
  rewrite Hid1 in Hl2. exact Hl2.
Qed.

Lemma frame_sameCall : Frame executorAction sameCall.
Proof.
  split.
  - intros w. apply sameCall_same; reflexivity.
  - exact sameCall_trans.
  - intros e w _. apply sameCall_same; reflexivity.
  - intros w. apply sameCall_same; reflexivity.
  - intros h w. split; [ reflexivity | ].
    exists [(cachedDownloadID w, h)]. split; [ reflexivity | ].
    constructor; [ reflexivity | constructor ].
Qed.

Lemma sameCall_written {E : Externals} download completePath bodyOfResp w w1 :
  written download completePath bodyOfResp w w1 -> sameCall w w1.
Proof. intros [_ [-> | ->]]; apply sameCall_same; reflexivity. Qed.

(** X9.  Every call of [tryDownload] that ends, by returning or by a
    panic, has advanced the download counter by exactly one (wrapping at
    64 bits), whatever the request and also when it is ignored; and every
    hash the call has added to the image store is filed under the new value
    of the counter. *)
Theorem executor_advances_the_counter_once {E : Externals} (fuel : nat)
    (download : downloadRequestStruct) (w w' : World) :
  worldAfter (tryDownload fuel download w) = Some w' ->
  cachedDownloadID w' = wrapInt (cachedDownloadID w + 1)
  /\ (- 2 ^ 63 <= cachedDownloadID w < 2 ^ 63 - 1 ->
      cachedDownloadID w' = cachedDownloadID w + 1)
  /\ exists added,
       imgStore w' = imgStore w ++ added
       /\ Forall (fun entry => fst entry = cachedDownloadID w') added.
Proof.
  intros Hcall.
  assert (H : sameCall (nextDownloadID w) w').
  { pose proof (tryDownload_shape sameCall frame_sameCall sameCall frame_sameCall
                  (fun _ w0 => sameCall_same w0 _ eq_refl eq_refl) fuel download w
                  (fun _ w' => sameCall (nextDownloadID w) w')
                  (fun w' => sameCall (nextDownloadID w) w')) as H.
    assert (Hboth : forall r0 : downloadStatusStruct,
               match tryDownload fuel download w with
               | Returned _ w0 | Panicked w0 => sameCall (nextDownloadID w) w0
               | Diverged => True
               end -> sameCall (nextDownloadID w) w').
    { intros _. destruct (tryDownload fuel download w); simpl in Hcall;
        try discriminate Hcall; injection Hcall as ->; auto. }
    apply (Hboth (mDownloadStatus downloadIgnored [])). apply H; clear H Hboth.
    - intros _. apply sameCall_same; reflexivity.
    - intros _. split; [ auto | ]. split; [ auto | ].
      intros download' completePath bodyOfResp w1 H1 _ _ _. split; [ auto | ].
      intros w2 Hw item.
      pose proof (sameCall_trans _ _ _ H1 (sameCall_written _ _ _ _ _ Hw)) as H2.
      split; [ auto | ]. intros _ w3 H3.
      assert (sameCall (nextDownloadID w) w3); [ | tauto ].
      apply (sameCall_trans _ _ _ H2). apply (sameCall_trans _ (addRecord item w2)).
      + apply sameCall_same; reflexivity.
      + exact H3. }
  destruct H as (Hid & added & Hst & Hall). simpl in Hid, Hst.
  split; [ exact Hid | ]. split.
  - intros Hrange. rewrite Hid. apply wrapInt_small. lia.
  - exists added. split; [ exact Hst | ]. rewrite Hid. exact Hall.
Qed.

(** A picture that is downloaded and whose hash is indexed: the counter goes
    from 0 to 1 and the hash is filed under 1. *)
Lemma executor_advances_the_counter_once_witness :
  let E := Demo.standard in
  let download := Demo.download "http://example.com/a.png" "" in
  exists w',
    worldAfter (tryDownload 5 download Demo.emptyWorld) = Some w'
    /\ imgStore w' = [(1, "PNG")]
    /\ cachedDownloadID w' = wrapInt (cachedDownloadID Demo.emptyWorld + 1)
    /\ (- 2 ^ 63 <= cachedDownloadID Demo.emptyWorld < 2 ^ 63 - 1 ->
        cachedDownloadID w' = cachedDownloadID Demo.emptyWorld + 1)
    /\ exists added,
         imgStore w' = imgStore Demo.emptyWorld ++ added
         /\ Forall (fun entry => fst entry = cachedDownloadID w') added.
Proof.
  intros E download.
  destruct (worldAfter (tryDownload 5 download Demo.emptyWorld)) as [w' |] eqn:Hcall;
    [ | vm_compute in Hcall; discriminate Hcall ].
  exists w'. split; [ reflexivity | ].
  pose proof (executor_advances_the_counter_once 5 download Demo.emptyWorld w' Hcall) as H.
  split; [ | exact H ].
  vm_compute in Hcall. injection Hcall as <-. reflexivity.
Defined.

(** A call that returns has stored a record exactly when it returns
    success, and the record is the one of the request and of the file; a
    call that panics has stored at most that record. *)
Lemma tryDownload_record {E : Externals} (fuel : nat)
    (download : downloadRequestStruct) (w : World) :
  match tryDownload fuel download w with
  | Returned r w' => recorded download w r w'
  | Panicked w' =>
      db w' = db w
      \/ exists item, db w' = db w ++ [item] /\ item_URL item = InputURL download
  | Diverged => True
  end.
Proof.
  pose proof (tryDownload_storage fuel download w) as H.
  assert (Hstored : forall r w',
            storageAfter download w r w' ->
            (r = None \/ r = Some (mDownloadStatus downloadSuccess []) ->
               db w' = db w
               \/ exists item body,
                    db w' = db w ++ [item]
                    /\ item_URL item = InputURL download
                    /\ item_ChannelID item = ChannelID (Message_ download)
                    /\ item_UserID item = recordUser download
                    /\ (item_Destination item <> imgStorePath ->
                        files w' !! item_Destination item = Some body)
                    /\ fetched download body)
            /\ (forall s, r = Some s ->
                  (Status s = downloadSuccess -> db w' <> db w)
                  /\ (Status s <> downloadSuccess -> db w' = db w))).
  { intros r w' [[[Hd Hf] Hs]
                | (download' & path & body & w1 & w2 & [Hd1 Hf1] & Hreq & Hstat
                   & Hfetched & Hw & Hcases)].
    - split; [ intros _; left; exact Hd | ].
      intros s Hr. destruct (Hs s Hr) as [Hne _].
      split; [ intros Heq; contradiction | intros _; exact Hd ].
    - destruct (written_storage _ _ _ _ _ Hw) as [Hd2 Hf2]. cbv zeta in Hcases.
      destruct Hreq as (Hurl & Hmsg & _).
      destruct Hcases as [(err & _ & Hr & ->) | (_ & Hr & [Hd3 Hf3])].
      + split; [ intros [Hn | Hn]; rewrite Hr in Hn; discriminate Hn | ].
        intros s Hs. rewrite Hr in Hs. injection Hs as <-.
        split; [ discriminate | intros _; congruence ].
      + simpl in Hd3.
        assert (Hdb : db w' = db w ++ [recordFor download' path w2]) by congruence.
        split.
        * intros _. right. exists (recordFor download' path w2), body.
          split; [ exact Hdb | ]. split; [ simpl; congruence | ].
          split; [ simpl; congruence | ].
          split; [ unfold recordUser; simpl; rewrite Hmsg; reflexivity | ].
          split; [ | exact Hfetched ].
          simpl. intros Hne. rewrite (Hf3 path Hne). simpl. rewrite Hf2.
          apply lookup_insert_eq.
        * intros s Hs. split.
          -- intros _ Heq. rewrite Hdb in Heq.
             apply (f_equal length) in Heq. rewrite length_app in Heq.
             simpl in Heq. lia.
          -- intros Hne. destruct Hr as [Hr | Hr]; rewrite Hr in Hs;
               [ discriminate Hs | injection Hs as <-; contradiction Hne; reflexivity ]. }
  destruct (tryDownload fuel download w) as [r w' | w' |]; [ | | exact I ].
  - destruct (Hstored _ _ H) as [Hyes Hno]. destruct (Hno r eq_refl) as [Hs1 Hs2].
    split; [ | exact Hs2 ].
    intros Hs. destruct H as [[_ Hnot] | Hright].
    + destruct (Hnot r eq_refl) as [Hne _]. contradiction.
    + assert (Hr : r = mDownloadStatus downloadSuccess []).
      { destruct Hright as (d' & p & b & w1 & w2 & _ & _ & _ & _ & _ & Hcases).
        cbv zeta in Hcases.
        destruct Hcases as [(err & _ & Hr & _) | (_ & [Hr | Hr] & _)];
          [ injection Hr as ->; discriminate Hs | discriminate Hr
          | injection Hr as ->; reflexivity ]. }
      destruct (Hyes (or_intror (f_equal Some Hr))) as [Hsame | Hitem];
        [ contradiction (Hs1 Hs) | exact Hitem ].
  - destruct (Hstored _ _ H) as [Hyes _].
    destruct (Hyes (or_introl eq_refl)) as [Hsame | (item & body & Hdb & Hurl & _)];
      [ left; exact Hsame | right; exists item; auto ].
Qed.

(** X10.  A call of [tryDownload] that returns has added a record to the
    database exactly when it returns [downloadSuccess]: then one record, for
    the URL and the channel of the request and for the author of the message
    (the bot when there is none), whose destination is a file that holds a
    body the network gave for the URL of the request, in a response that
    was not a 404; with any other status the database is as it was.  (Only
    a destination that is the file of the image store itself does not hold
    the body: the success has rewritten it with the image store.) *)
Theorem executor_records_exactly_the_successes {E : Externals} (fuel : nat)
    (download : downloadRequestStruct) (w : World) (r : downloadStatusStruct) (w' : World) :
  tryDownload fuel download w = Returned r w' ->
  (Status r = downloadSuccess ->
     exists item body,
       db w' = db w ++ [item]
       /\ item_URL item = InputURL download
       /\ item_ChannelID item = ChannelID (Message_ download)
       /\ item_UserID item = recordUser download
       /\ (item_Destination item <> imgStorePath ->
           files w' !! item_Destination item = Some body)
       /\ fetched download body)
  /\ (Status r <> downloadSuccess -> db w' = db w).
Proof.
  intros Hcall. pose proof (tryDownload_record fuel download w) as H.
  rewrite Hcall in H. exact H.
Qed.

(** A picture that is downloaded: one record, for the file "dl/a.png", which
    holds the picture. *)
Lemma executor_records_exactly_the_successes_witness :
  let E := Demo.standard in
  let download := Demo.download "http://example.com/a.png" "" in
  exists r w',
    tryDownload 5 download Demo.emptyWorld = Returned r w'
    /\ Status r = downloadSuccess
    /\ (item_Destination <$> db w') = ["dl/a.png"]
    /\ files w' !! "dl/a.png" = Some "PNG"
    /\ (Status r = downloadSuccess ->
          exists item body,
            db w' = db Demo.emptyWorld ++ [item]
            /\ item_URL item = InputURL download
            /\ item_ChannelID item = ChannelID (Message_ download)
            /\ item_UserID item = recordUser download
            /\ (item_Destination item <> imgStorePath ->
                files w' !! item_Destination item = Some body)
            /\ fetched download body)
    /\ (Status r <> downloadSuccess -> db w' = db Demo.emptyWorld).
Proof.
  intros E download.
  destruct (tryDownload 5 download Demo.emptyWorld) as [r w' | w' |] eqn:Hcall;
    [ | vm_compute in Hcall; discriminate Hcall .. ].
  exists r, w'. split; [ reflexivity | ].
  pose proof (executor_records_exactly_the_successes 5 download Demo.emptyWorld r w' Hcall)
    as H.
  assert (Hrun : Status r = downloadSuccess /\ (item_Destination <$> db w') = ["dl/a.png"]
                 /\ files w' !! "dl/a.png" = Some "PNG").
  { vm_compute in Hcall. injection Hcall as <- <-. repeat split; reflexivity. }
  destruct Hrun as (Hs & Hd & Hf).
  split; [ exact Hs | ]. split; [ exact Hd | ]. split; [ exact Hf | exact H ].
Defined.

(** A download that goes to the file of the image store itself: the record
    names that file, and after the success the file holds the image store,
    not the picture. *)
Example record_of_the_image_store_file :
  let E := Sample.storeInDownloads in
  let download := Demo.download "http://example.com/a.png" "" in
  exists w',
    tryDownload 5 download Demo.emptyWorld
    = Returned (mDownloadStatus downloadSuccess []) w'
    /\ (item_Destination <$> db w') = [ imgStorePath ]
    /\ files w' !! imgStorePath = Some "PNG;"
    /\ ~ fetched download "PNG;".
Proof.
  intros E download. eexists. split; [ vm_compute; reflexivity | ].
  split; [ reflexivity | ]. split; [ reflexivity | ].
  intros (w & response & Hget & Hbody & _).
  injection Hget as <-. discriminate Hbody.
Qed.

Lemma os_Stat_free {E : Externals} w path :
  (forall w q, os_Stat_err w q = false) ->
  os_Stat w path <> StatOk -> files w !! path = None.
Proof.
  intros Hstat H. unfold os_Stat in H. rewrite Hstat in H.
  destruct (files w !! path); [ contradiction H; reflexivity | reflexivity ].
Qed.

(** When [os.Stat] never fails, a call that ends has left the files as they
    were or has added one file at a path that was free; the file of the
    image store apart. *)
Lemma tryDownload_files_grow {E : Externals} fuel download w w' :
  (forall w q, os_Stat_err w q = false) ->
  worldAfter (tryDownload fuel download w) = Some w' ->
  (forall p, p <> imgStorePath -> files w' !! p = files w !! p)
  \/ exists path body,
       files w !! path = None
       /\ forall p, p <> imgStorePath ->
            files w' !! p = <[path := body]> (files w) !! p.
Proof.
  intros Hstat Hcall.
  pose proof (tryDownload_storage fuel download w) as H.
  assert (Hboth : exists r, storageAfter download w r w').
  { destruct (tryDownload fuel download w) as [r w0 | w0 |]; simpl in Hcall;
      try discriminate Hcall; injection Hcall as <-; eauto. }
  clear H Hcall. destruct Hboth as [r H].
  destruct H as [[[_ Hf] _]
                | (download' & path & body & w1 & w2 & [Hd1 Hf1] & _ & Hfree & _
                   & Hw & Hcases)].
  - left. intros p _. rewrite Hf. reflexivity.
  - right. exists path, body.
    apply (os_Stat_free _ _ Hstat) in Hfree. rewrite Hf1 in Hfree.
    split; [ exact Hfree | ].
    destruct (written_storage _ _ _ _ _ Hw) as [_ Hf2]. cbv zeta in Hcases.
    intros p Hp.
    destruct Hcases as [(err & _ & _ & ->) | (_ & _ & [_ Hf3])].
    + rewrite Hf2, Hf1. reflexivity.
    + rewrite (Hf3 p Hp). simpl. rewrite Hf2, Hf1. reflexivity.
Qed.

(** X11.  When [os.Stat] itself never fails, a call of [tryDownload] that
    ends, by returning or by a panic, has written over no file but the one
    the image store is kept in: that file apart, the files are as they were,
    or one file has been added at a path that was free; so every other file
    that existed is still there with its content.  (The file of the image
    store is emptied and rewritten by every success, when duplicate images
    are filtered.) *)
Theorem executor_never_overwrites_a_file {E : Externals} (fuel : nat)
    (download : downloadRequestStruct) (w w' : World) :
  (forall w q, os_Stat_err w q = false) ->
  worldAfter (tryDownload fuel download w) = Some w' ->
  ((forall p, p <> imgStorePath -> files w' !! p = files w !! p)
   \/ exists path body,
        files w !! path = None
        /\ forall p, p <> imgStorePath ->
             files w' !! p = <[path := body]> (files w) !! p)
  /\ (forall p content, p <> imgStorePath ->
        files w !! p = Some content -> files w' !! p = Some content).
Proof.
  intros Hstat Hcall.
  pose proof (tryDownload_files_grow fuel download w w' Hstat Hcall) as H.
  split; [ exact H | ].
  intros p content Hp Hold.
  destruct H as [Hsame | (path & body & Hfree & Hnew)].
  - rewrite (Hsame p Hp). exact Hold.
  - rewrite (Hnew p Hp). rewrite lookup_insert_ne by congruence. exact Hold.
Qed.

(** A second download of a picture whose name is taken, with an image store
    that is already on disk: the picture that was there keeps its content,
    the new one goes to "dl/a-1.png", and the file of the image store is
    rewritten. *)
Lemma executor_never_overwrites_a_file_witness :
  let E := Demo.standard in
  let download := Demo.download "http://example.com/a.png" "" in
  let w := Demo.worldWith ["dl/a.png"; "cache/imgStore"] in
  exists w',
    (forall w q, os_Stat_err w q = false)
    /\ worldAfter (tryDownload 5 download w) = Some w'
    /\ files w' !! "dl/a.png" = Some "old"
    /\ files w' !! "dl/a-1.png" = Some "PNG"
    /\ files w !! imgStorePath = Some "old"
    /\ files w' !! imgStorePath = Some "PNG;"
    /\ ((forall p, p <> imgStorePath -> files w' !! p = files w !! p)
        \/ exists path body,
             files w !! path = None
             /\ forall p, p <> imgStorePath ->
                  files w' !! p = <[path := body]> (files w) !! p)
    /\ (forall p content, p <> imgStorePath ->
          files w !! p = Some content -> files w' !! p = Some content).
Proof.
  intros E download w.
  destruct (worldAfter (tryDownload 5 download w)) as [w' |] eqn:Hcall;
    [ | vm_compute in Hcall; discriminate Hcall ].
  exists w'. split; [ reflexivity | ]. split; [ reflexivity | ].
  pose proof (executor_never_overwrites_a_file 5 download w w' (fun _ _ => eq_refl) Hcall)
    as H.
  assert (Hrun : files w' !! "dl/a.png" = Some "old"
                 /\ files w' !! "dl/a-1.png" = Some "PNG"
                 /\ files w' !! imgStorePath = Some "PNG;").
  { vm_compute in Hcall. injection Hcall as <-. repeat split; reflexivity. }
  destruct Hrun as (Ha & Hb & Hc).
  split; [ exact Ha | ]. split; [ exact Hb | ]. split; [ reflexivity | ].
  split; [ exact Hc | exact H ].
Defined.

(** ** [startDownload] as a whole *)

Section RunOfCalls.
Context {E : Externals}.
Variable executor : downloadRequestStruct -> World -> outcome downloadStatusStruct.
Variable download : downloadRequestStruct.

(** What a run of calls adds to the trace of [startDownload], when the
    executor adds nothing to it: one sleep after every call that did not end
    the loop. *)
Lemma attemptsFrom_trace w attempts w' :
  (forall w0 r w1, executor download w0 = Returned r w1 ->
     controllerTrace w1 = controllerTrace w0) ->
  attemptsFrom executor download w attempts w' ->
  controllerTrace w'
  = controllerTrace w ++ repeat (EvSleep 5) (length (List.filter retried attempts)).
Proof.
  intros Hex.
  induction 1 as [w | w r w1 Hcall Hstop | w r w1 rest w' Hcall Hstop Hrest IH].
  - simpl. rewrite app_nil_r. reflexivity.
  - simpl. unfold retried. rewrite Hstop. simpl. rewrite app_nil_r.
    apply (Hex _ _ _ Hcall).
  - rewrite IH, controllerTrace_emit, (Hex _ _ _ Hcall). simpl.
    unfold retried at 2. rewrite Hstop. simpl. rewrite <- app_assoc. reflexivity.
Qed.

(** Every call of a run is followed by the sleep, but a last call whose
    status ends the loop. *)
Lemma attemptsFrom_retried w attempts w' :
  attemptsFrom executor download w attempts w' ->
  length (List.filter retried attempts)
  = (length attempts
     - match last attempts with
       | Some a => if stopsRetry (Status a) then 1 else 0
       | None => 0
       end)%nat.
Proof.
  induction 1 as [w | w r w1 Hcall Hstop | w r w1 rest w' Hcall Hstop Hrest IH].
  - reflexivity.
  - simpl. unfold retried. rewrite Hstop. reflexivity.
  - simpl. unfold retried at 1. rewrite Hstop. cbn [negb length].
    rewrite IH, last_cons.
    destruct (last rest) as [a |] eqn:Hlast.
    + destruct (stopsRetry (Status a)); [ | lia ].
      destruct rest; [ discriminate Hlast | simpl; lia ].
    + rewrite Hstop. lia.
Qed.

Variable R : World -> World -> Prop.
Hypothesis R_refl : forall w, R w w.
Hypothesis R_trans : forall a b c, R a b -> R b c -> R a c.
Hypothesis R_sleep : forall w, R w (emit (EvSleep 5) w).

(** What every call of the executor keeps, a run of calls keeps. *)
Lemma attemptsFrom_keeps w attempts w' :
  (forall w0 r w1, executor download w0 = Returned r w1 -> R w0 w1) ->
  attemptsFrom executor download w attempts w' -> R w w'.
Proof.
  intros Hex.
  induction 1 as [w | w r w1 Hcall Hstop | w r w1 rest w' Hcall Hstop Hrest IH].
  - apply R_refl.
  - apply (Hex _ _ _ Hcall).
  - eapply R_trans; [ apply (Hex _ _ _ Hcall) | ].
    eapply R_trans; [ apply R_sleep | exact IH ].
Qed.

(** Where the last status of a run comes from: no call was made; or every
    call was followed by the sleep; or the last call ended the loop, and the
    world is the one it left. *)
Lemma attemptsFrom_last w attempts w' :
  (forall w0 r w1, executor download w0 = Returned r w1 ->
     stopsRetry (Status r) = false -> R w0 w1) ->
  attemptsFrom executor download w attempts w' ->
  (attempts = [] /\ w' = w)
  \/ (exists a, last attempts = Some a /\ stopsRetry (Status a) = false /\ R w w')
  \/ (exists a w0, last attempts = Some a /\ stopsRetry (Status a) = true
                   /\ R w w0 /\ executor download w0 = Returned a w').
Proof.
  intros Hex.
  induction 1 as [w | w r w1 Hcall Hstop | w r w1 rest w' Hcall Hstop Hrest IH].
  - left. auto.
  - right. right. exists r, w. auto.
  - pose proof (Hex _ _ _ Hcall Hstop) as H1.
    assert (H2 : R w (emit (EvSleep 5) w1))
      by (eapply R_trans; [ exact H1 | apply R_sleep ]).
    rewrite last_cons.
    destruct IH as [[-> ->] | [(a & -> & Hs & HR) | (a & w0 & -> & Hs & HR & Hlast)]].
    + right. left. exists r. auto.
    + right. left. exists a. split; [ reflexivity | ].
      split; [ exact Hs | eapply R_trans; eassumption ].
    + right. right. exists a, w0. split; [ reflexivity | ].
      split; [ exact Hs | ]. split; [ eapply R_trans; eassumption | exact Hlast ].
Qed.

End RunOfCalls.

Section Report.
Context {E : Externals}.

Lemma report_nothing download status w :
  files w = files w
  /\ exists notices,
       controllerTrace w = controllerTrace w ++ notices
       /\ sublist notices (failureReport download status)
       /\ (notices <> [] -> reportable download status).
Proof.
  split; [ reflexivity | ]. exists []. rewrite app_nil_r.
  split; [ reflexivity | ]. split; [ apply sublist_nil_l | congruence ].
Qed.

(** What [reportFailure] adds when it falls through: nothing, or a part of
    the report, and only for a status that is reportable. *)
Lemma reportFailure_trace download status w :
  match reportFailure download status w with
  | Next _ w' =>
      files w' = files w
      /\ exists notices,
           controllerTrace w' = controllerTrace w ++ notices
           /\ sublist notices (failureReport download status)
           /\ (notices <> [] -> reportable download status)
  | _ => True
  end.
Proof.
  unfold reportFailure. cbv zeta.
  destruct (status_geb (Status status) downloadFailed) eqn:Hge; simpl;
    [ | apply report_nothing ].
  destruct (HistoryCmd download) eqn:Hh; simpl; [ apply report_nothing | ].
  destruct (EmojiCmd download) eqn:He; simpl; [ apply report_nothing | ].
  destruct (isChannelRegistered (ChannelID (Message_ download))) eqn:Hreg;
    [ | apply report_nothing ].
  assert (Hrep : reportable download status) by (repeat split; assumption).
  unfold bindM, pure, modify, panic, failureReport.
  destruct (ErrorMessages _); [ destruct (hasPerms _ _) | ];
    destruct (Author (Message_ download)) as [author |];
    destruct (Error status) as [err |]; simpl; try exact I;
    (split; [ reflexivity | ]);
    rewrite ?controllerTrace_emit; simpl; rewrite <- ?app_assoc;
    eexists; (split; [ first [ reflexivity | exact (eq_sym (app_nil_r _)) ] | ]);
    (split; [ | intros _; exact Hrep ]);
    simpl; repeat first [ apply sublist_nil_l | apply sublist_skip | apply sublist_cons ].
Qed.

Lemma logLinksPath_keeps download logLinks status w :
  match logLinksPath download logLinks status w with
  | Next _ w' | Panic w' | Return _ w' =>
      files w' = files w /\ db w' = db w /\ controllerTrace w' = controllerTrace w
  | Hang => True
  end.
Proof.
  unfold logLinksPath. cbv zeta.
  destruct (DestinationIsFolder logLinks); [ | simpl; auto ].
  unfold bindM, getWorld, modify, pure, panic.
  destruct (os_MkdirAll_err _ _); simpl;
    [ rewrite controllerTrace_emit; simpl; rewrite app_nil_r; auto | ].
  destruct (DivideLogsByUser logLinks); [ destruct (Author _) | ]; simpl;
    rewrite controllerTrace_emit; simpl; rewrite app_nil_r; auto.
Qed.

Lemma logLine_keeps download logLinks w :
  match logLine download logLinks w with
  | Next _ w' | Panic w' | Return _ w' => w' = w
  | Hang => True
  end.
Proof.
  unfold logLine. cbv zeta. unfold bindM, pure, panic.
  destruct (UserData logLinks) as [[] |]; [ destruct (Author _) | | ]; reflexivity.
Qed.

Lemma append_empty_r (s : string) : s +:+ "" = s.
Proof.
  induction s as [| c s IH]; [ reflexivity | ].
  change (String c (s +:+ "") = String c s). rewrite IH. reflexivity.
Qed.

Lemma filesExtended_same a b : files b = files a -> filesExtended a b.
Proof.
  intros H path content Hp. exists "". rewrite H, Hp, append_empty_r. reflexivity.
Qed.

Lemma filesExtended_refl w : filesExtended w w.
Proof. apply filesExtended_same. reflexivity. Qed.

Lemma append_assoc (a b c : string) : (a +:+ b) +:+ c = a +:+ (b +:+ c).
Proof.
  induction a as [| x a IH]; [ reflexivity | ].
  change (String x ((a +:+ b) +:+ c) = String x (a +:+ (b +:+ c))).
  rewrite IH. reflexivity.
Qed.

Lemma filesExtended_trans a b c :
  filesExtended a b -> filesExtended b c -> filesExtended a c.
Proof.
  intros Hab Hbc path content Hp.
  destruct (Hab path content Hp) as [m1 H1]. destruct (Hbc _ _ H1) as [m2 H2].
  exists (m1 +:+ m2). rewrite H2. f_equal. apply append_assoc.
Qed.

Lemma filesExtended_create path w :
  files w !! path = None -> filesExtended w (setFile path "" w).
Proof.
  intros Hfree p content Hp. exists "". simpl.
  rewrite lookup_insert_ne by congruence. rewrite Hp, append_empty_r. reflexivity.
Qed.

Lemma filesExtended_append path line w :
  filesExtended w (setFile path (default "" (files w !! path) +:+ line) w).
Proof.
  intros p content Hp. simpl. destruct (decide (p = path)) as [-> | Hne].
  - exists line. rewrite lookup_insert_eq, Hp. reflexivity.
  - exists "". rewrite lookup_insert_ne by congruence.
    rewrite Hp, append_empty_r. reflexivity.
Qed.

(** The link log only creates its file or appends to it, leaves the
    database alone, and sleeps and reports nothing. *)
Lemma logLink_keeps download status w :
  match logLink download status w with
  | Next _ w' | Panic w' | Return _ w' =>
      filesExtended w w' /\ db w' = db w /\ controllerTrace w' = controllerTrace w
  | Hang => True
  end.
Proof.
  assert (Hsame : forall a b, files b = files a -> db b = db a ->
                    controllerTrace b = controllerTrace a ->
                    filesExtended a b /\ db b = db a
                    /\ controllerTrace b = controllerTrace a).
  { intros a b Hf Hd Ht. split; [ apply filesExtended_same, Hf | auto ]. }
  unfold logLink. cbv zeta.
  destruct (isChannelRegistered _); [ | apply Hsame; reflexivity ].
  destruct (LogLinks _) as [logLinks |]; [ | apply Hsame; reflexivity ].
  destruct (negb _); [ | apply Hsame; reflexivity ].
  unfold bindM at 1.
  pose proof (logLinksPath_keeps download logLinks status w) as Hpath.
  destruct (logLinksPath download logLinks status w) as [logPath w1 | r w1 | w1 |];
    try exact I;
    try (destruct Hpath as (Hf & Hd & Ht); apply Hsame; assumption).
  destruct Hpath as (Hf1 & Hd1 & Ht1).
  unfold bindM at 1. unfold getWorld at 1.
  unfold bindM at 1.
  set (opened := negb (os_OpenFile_err w1 logPath)).
  assert (Hcreate : exists w2,
             when_ (R := downloadStatusStruct)
               (opened && bool_decide (files w1 !! logPath = None))
               (modify (setFile logPath "")) w1 = Next tt w2
             /\ filesExtended w1 w2 /\ db w2 = db w1
             /\ controllerTrace w2 = controllerTrace w1).
  { unfold when_, modify, pure.
    destruct (opened && bool_decide (files w1 !! logPath = None)) eqn:Hc.
    - eexists. split; [ reflexivity | ]. split; [ | split; reflexivity ].
      apply andb_true_iff in Hc. destruct Hc as [_ Hc].
      apply bool_decide_eq_true in Hc. apply filesExtended_create, Hc.
    - eexists. split; [ reflexivity | ]. apply Hsame; reflexivity. }
  destruct Hcreate as (w2 & -> & Hf2 & Hd2 & Ht2).
  assert (H12 : filesExtended w w2 /\ db w2 = db w
                /\ controllerTrace w2 = controllerTrace w).
  { split; [ | split; congruence ].
    eapply filesExtended_trans; [ apply filesExtended_same, Hf1 | exact Hf2 ]. }
  destruct (shouldLogLink _ _ _ _); [ | exact H12 ].
  unfold bindM at 1.
  pose proof (logLine_keeps download logLinks w2) as Hline.
  destruct (logLine download logLinks w2) as [newLine w3 | r w3 | w3 |];
    try exact I; subst w3; try exact H12.
  unfold bindM, getWorld, when_, modify, pure.
  destruct (opened && negb (file_WriteString_err w2 logPath)); [ | exact H12 ].
  destruct H12 as (Hf & Hd & Ht).
  split; [ | split; [ exact Hd | exact Ht ] ].
  eapply filesExtended_trans; [ exact Hf | apply filesExtended_append ].
Qed.

End Report.

(** X12.  What a call of [startDownload] that returns has done itself,
    beside the calls of the executor (which neither sleep nor report).  The
    calls it made form a run from the world it started in: each on the world
    the call before it left, a sleep of five seconds after every call that
    did not end the loop, and no call after one that did.  So it has slept
    once for every attempt that did not end the loop, which is every attempt
    but a last one that ended it, and then reported at most once.  A request
    whose attempts all fail sleeps [DownloadRetryMax] times, also after the
    last attempt; one that ends the loop sleeps fewer times than that; and
    the report is a part of "notice in the channel, line in the error log",
    made only for a final status of [downloadFailed] or above, outside
    history and emoji commands, in a registered channel. *)
Theorem startDownload_sleeps_after_each_failure_and_reports_once {E : Externals}
    (fuel : nat) (download : downloadRequestStruct) (w : World)
    (r : downloadStatusStruct) (w' : World) :
  DownloadRetryMax config < 2 ^ 63 ->
  (Z.to_nat (DownloadRetryMax config) < fuel)%nat ->
  startDownload fuel download w = Returned r w' ->
  exists attempts w1 sleeps notices,
    attemptsFrom (tryDownload fuel) download w attempts w1
    /\ r = default (mDownloadStatus downloadFailed []) (last attempts)
    /\ Z.of_nat (length attempts) <= Z.max 0 (DownloadRetryMax config)
    /\ sleeps = length (List.filter retried attempts)
    /\ sleeps = (length attempts
                 - if (negb (bool_decide (attempts = [])) && stopsRetry (Status r))%bool
                   then 1 else 0)%nat
    /\ controllerTrace w1 = controllerTrace w ++ repeat (EvSleep 5) sleeps
    /\ controllerTrace w' = controllerTrace w ++ repeat (EvSleep 5) sleeps ++ notices
    /\ (stopsRetry (Status r) = true ->
        Z.of_nat sleeps < Z.max 0 (DownloadRetryMax config))
    /\ (stopsRetry (Status r) = false ->
        Z.of_nat sleeps = Z.max 0 (DownloadRetryMax config))
    /\ sublist notices (failureReport download r)
    /\ (notices <> [] -> reportable download r).
Proof.
  intros Hmax Hfuel Hcall.
  destruct (startDownload_returned _ _ _ _ _ Hcall) as (w1 & w2 & Hloop & Hrep & Hlog).
  pose proof (retryLoop_bounded (tryDownload fuel) download fuel 0
                (mDownloadStatus downloadFailed []) w (Z.le_refl 0) Hmax) as Hspec.
  rewrite Z.sub_0_r in Hspec. specialize (Hspec Hfuel). rewrite Hloop in Hspec.
  destruct Hspec as (attempts & Hrun & Hfinal & Hlen & Hnil & Hfull).
  pose proof (attemptsFrom_trace (tryDownload fuel) download w attempts w1
                (fun w0 a w3 Hex => proj2 (tryDownload_bystander fuel download w0 a w3 Hex))
                Hrun) as Htrace.
  pose proof (attemptsFrom_retried (tryDownload fuel) download w attempts w1 Hrun)
    as Hcount.
  pose proof (reportFailure_trace download r w1) as Hr. rewrite Hrep in Hr.
  destruct Hr as (_ & notices & Hnot & Hsub & Hwhy).
  pose proof (logLink_keeps download r w2) as Hl. rewrite Hlog in Hl.
  destruct Hl as (_ & _ & Hl).
  set (sleeps := length (List.filter retried attempts)) in *.
  assert (Hsleeps : sleeps
                    = (length attempts
                       - if (negb (bool_decide (attempts = []))
                             && stopsRetry (Status r))%bool
                         then 1 else 0)%nat).
  { rewrite Hcount. destruct attempts as [| a rest]; [ reflexivity | ].
    rewrite bool_decide_eq_false_2 by discriminate. simpl negb. cbn [andb].
    destruct (last (a :: rest)) as [b |] eqn:Hlast.
    - simpl in Hfinal. subst r. reflexivity.
    - rewrite last_cons in Hlast. destruct (last rest); discriminate Hlast. }
  exists attempts, w1, sleeps, notices.
  split; [ exact Hrun | ]. split; [ exact Hfinal | ]. split; [ exact Hlen | ].
  split; [ reflexivity | ]. split; [ exact Hsleeps | ]. split; [ exact Htrace | ].
  split; [ rewrite Hl, Hnot, Htrace, <- app_assoc; reflexivity | ].
  split; [ | split; [ | split; [ exact Hsub | exact Hwhy ] ] ].
  - intros Hstop. rewrite Hsleeps. destruct attempts as [| a rest].
    + simpl in Hfinal. subst r. discriminate Hstop.
    + rewrite bool_decide_eq_false_2 by discriminate. rewrite Hstop.
      simpl negb. cbn [andb]. simpl length in *. lia.
  - intros Hstop. rewrite Hsleeps, Hstop, andb_false_r, Nat.sub_0_r.
    destruct (last attempts) as [a |] eqn:Hlast.
    + simpl in Hfinal. subst a. specialize (Hfull r eq_refl Hstop). lia.
    + destruct attempts as [| a rest];
        [ | rewrite last_cons in Hlast; destruct (last rest); discriminate Hlast ].
      specialize (Hnil eq_refl). simpl. lia.
Qed.

(** A network that refuses every connection, under a bound of three
    attempts: three calls of the executor, a sleep after each, then the
    notice and the line in the error log. *)
Lemma startDownload_sleeps_after_each_failure_and_reports_once_witness :
  let E := Demo.env (Demo.channelConfig true) false Demo.refuses 3 in
  let download := Demo.download "http://example.com/a.png" "" in
  let refused := {| Status := downloadFailedDownloadingResponse;
                    Error := Some "connection refused" |} in
  exists r w',
    DownloadRetryMax config < 2 ^ 63
    /\ (Z.to_nat (DownloadRetryMax config) < 5)%nat
    /\ startDownload 5 download Demo.emptyWorld = Returned r w'
    /\ r = refused
    /\ controllerTrace w'
       = [ EvSleep 5; EvSleep 5; EvSleep 5;
           EvFailureNotice "chan" "u1" "http://example.com/a.png" 3
             downloadFailedDownloadingResponse (Some "connection refused");
           EvLogErrorMessage downloadFailedDownloadingResponse "connection refused" ]
    /\ exists attempts w1 sleeps notices,
         attemptsFrom (tryDownload 5) download Demo.emptyWorld attempts w1
         /\ r = default (mDownloadStatus downloadFailed []) (last attempts)
         /\ Z.of_nat (length attempts) <= Z.max 0 (DownloadRetryMax config)
         /\ sleeps = length (List.filter retried attempts)
         /\ sleeps = (length attempts
                      - if (negb (bool_decide (attempts = []))
                            && stopsRetry (Status r))%bool
                        then 1 else 0)%nat
         /\ controllerTrace w1
            = controllerTrace Demo.emptyWorld ++ repeat (EvSleep 5) sleeps
         /\ controllerTrace w'
            = controllerTrace Demo.emptyWorld ++ repeat (EvSleep 5) sleeps ++ notices
         /\ (stopsRetry (Status r) = true ->
             Z.of_nat sleeps < Z.max 0 (DownloadRetryMax config))
         /\ (stopsRetry (Status r) = false ->
             Z.of_nat sleeps = Z.max 0 (DownloadRetryMax config))
         /\ sublist notices (failureReport download r)
         /\ (notices <> [] -> reportable download r).
Proof.
  intros E download refused.
  destruct (startDownload 5 download Demo.emptyWorld) as [r w' | w' |] eqn:Hcall;
    [ | vm_compute in Hcall; discriminate Hcall .. ].
  exists r, w'.
  assert (Hmax : DownloadRetryMax config < 2 ^ 63) by reflexivity.
  assert (Hfuel : (Z.to_nat (DownloadRetryMax config) < 5)%nat) by (vm_compute; lia).
  split; [ exact Hmax | ]. split; [ exact Hfuel | ]. split; [ reflexivity | ].
  pose proof (startDownload_sleeps_after_each_failure_and_reports_once
                5 download Demo.emptyWorld r w' Hmax Hfuel Hcall) as H.
  assert (Hrun : r = refused
                 /\ controllerTrace w'
                    = [ EvSleep 5; EvSleep 5; EvSleep 5;
                        EvFailureNotice "chan" "u1" "http://example.com/a.png" 3
                          downloadFailedDownloadingResponse (Some "connection refused");
                        EvLogErrorMessage downloadFailedDownloadingResponse
                          "connection refused" ]).
  { vm_compute in Hcall. injection Hcall as <- <-. split; reflexivity. }
  destruct Hrun as [Hs Ht]. split; [ exact Hs | ]. split; [ exact Ht | exact H ].
Defined.

(** X13.  A call of [startDownload] that returns, returns the generic
    [downloadFailed] exactly when the bound on attempts is zero or less, so
    that no attempt was made; otherwise what it returns is one of the
    sixteen statuses of the executor, and never [downloadSkipped] or
    [downloadFailedRequesting]. *)
Theorem startDownload_generic_failure_means_no_attempt {E : Externals}
    (fuel : nat) (download : downloadRequestStruct) (w : World)
    (r : downloadStatusStruct) (w' : World) :
  DownloadRetryMax config < 2 ^ 63 ->
  (Z.to_nat (DownloadRetryMax config) < fuel)%nat ->
  startDownload fuel download w = Returned r w' ->
  (Status r = downloadFailed <-> DownloadRetryMax config <= 0)
  /\ (0 < DownloadRetryMax config -> In (Status r) executorStatuses)
  /\ Status r <> downloadSkipped /\ Status r <> downloadFailedRequesting.
Proof.
  intros Hmax Hfuel Hcall.
  destruct (Z.le_gt_cases (DownloadRetryMax config) 0) as [Hle | Hpos].
  - destruct (startDownload_returned _ _ _ _ _ Hcall) as (w1 & w2 & Hloop & _ & _).
    destruct fuel as [| fuel']; [ lia | ].
    rewrite (retryLoop_exhausted (tryDownload (S fuel')) download fuel' 0 _ w Hle)
      in Hloop.
    injection Hloop as <- _.
    split; [ split; [ intros _; exact Hle | reflexivity ] | ].
    split; [ lia | ]. split; discriminate.
  - destruct (startDownload_attempted fuel download w r w' (conj Hpos Hmax) Hfuel Hcall)
      as [Hst Hne].
    split; [ split; [ intros Hs; contradiction | lia ] | ].
    split; [ intros _; exact Hst | ].
    split; intros Hs; rewrite Hs in Hst; simpl in Hst;
      repeat (destruct Hst as [Hst | Hst]; [ discriminate Hst | ]); contradiction.
Qed.

(** With no attempt allowed the answer is the generic failure. *)
Lemma startDownload_generic_failure_means_no_attempt_witness :
  let E := Demo.noAttempts in
  let download := Demo.download "http://example.com/a.png" "" in
  exists r w',
    DownloadRetryMax config < 2 ^ 63
    /\ (Z.to_nat (DownloadRetryMax config) < 5)%nat
    /\ startDownload 5 download Demo.emptyWorld = Returned r w'
    /\ Status r = downloadFailed
    /\ (Status r = downloadFailed <-> DownloadRetryMax config <= 0)
    /\ (0 < DownloadRetryMax config -> In (Status r) executorStatuses)
    /\ Status r <> downloadSkipped /\ Status r <> downloadFailedRequesting.
Proof.
  intros E download.
  destruct (startDownload 5 download Demo.emptyWorld) as [r w' | w' |] eqn:Hcall;
    [ | vm_compute in Hcall; discriminate Hcall .. ].
  exists r, w'.
  assert (Hmax : DownloadRetryMax config < 2 ^ 63) by reflexivity.
  assert (Hfuel : (Z.to_nat (DownloadRetryMax config) < 5)%nat) by (vm_compute; lia).
  split; [ exact Hmax | ]. split; [ exact Hfuel | ]. split; [ reflexivity | ].
  pose proof (startDownload_generic_failure_means_no_attempt
                5 download Demo.emptyWorld r w' Hmax Hfuel Hcall) as H.
  split; [ | exact H ].
  vm_compute in Hcall. injection Hcall as <- _. reflexivity.
Defined.

Lemma reportFailure_files {E : Externals} download status w :
  match reportFailure download status w with
  | Next _ w' | Return _ w' | Panic w' => files w' = files w /\ db w' = db w
  | Hang => True
  end.
Proof. unfold reportFailure. crunch. Qed.

Lemma keptButStore_same {E : Externals} a b :
  (forall p, p <> imgStorePath -> files b !! p = files a !! p) -> keptButStore a b.
Proof.
  intros H path content Hp Hold. exists "".
  rewrite (H path Hp), Hold, append_empty_r. reflexivity.
Qed.

Lemma keptButStore_trans {E : Externals} a b c :
  keptButStore a b -> keptButStore b c -> keptButStore a c.
Proof.
  intros Hab Hbc path content Hp Hold.
  destruct (Hab path content Hp Hold) as [m1 H1].
  destruct (Hbc _ _ Hp H1) as [m2 H2].
  exists (m1 +:+ m2). rewrite H2. f_equal. apply append_assoc.
Qed.

Lemma keptButStore_extended {E : Externals} a b : filesExtended a b -> keptButStore a b.
Proof. intros H path content _ Hold. apply (H path content Hold). Qed.

(** When [os.Stat] never fails a call of the executor that ends has kept
    every file but that of the image store. *)
Lemma tryDownload_keeps_files {E : Externals} fuel download w w' :
  (forall w q, os_Stat_err w q = false) ->
  worldAfter (tryDownload fuel download w) = Some w' -> keptButStore w w'.
Proof.
  intros Hstat Hcall.
  destruct (tryDownload_files_grow fuel download w w' Hstat Hcall)
    as [Hsame | (path & body & Hfree & Hnew)].
  - apply keptButStore_same, Hsame.
  - intros p c Hp Hold. exists "". rewrite (Hnew p Hp), append_empty_r.
    rewrite lookup_insert_ne by congruence. exact Hold.
Qed.

(** X14.  When [os.Stat] itself never fails, a call of [startDownload] that
    ends, by returning or by a panic, has removed and shortened no file but
    the one the image store is kept in: every other file that existed is
    still there, and its content starts with the content it had.  (The
    downloads go to paths that were free, and the link log is only appended
    to; the file of the image store is emptied and rewritten by every
    success, when duplicate images are filtered.) *)
Theorem startDownload_only_adds_and_appends {E : Externals} (fuel : nat)
    (download : downloadRequestStruct) (w w' : World) :
  (forall w q, os_Stat_err w q = false) ->
  worldAfter (startDownload fuel download w) = Some w' ->
  forall path content, path <> imgStorePath -> files w !! path = Some content ->
    exists more, files w' !! path = Some (content +:+ more).
Proof.
  intros Hstat Hcall. change (keptButStore w w').
  assert (Hrun : forall attempts w1,
             attemptsFrom (tryDownload fuel) download w attempts w1 -> keptButStore w w1).
  { intros attempts w1.
    apply (attemptsFrom_keeps (tryDownload fuel) download keptButStore).
    - intros w0. apply keptButStore_same. reflexivity.
    - exact keptButStore_trans.
    - intros w0. apply keptButStore_same. reflexivity.
    - intros w0 a w3 Hex. apply (tryDownload_keeps_files fuel download w0 w3 Hstat).
      rewrite Hex. reflexivity. }
  unfold startDownload, call, startDownloadBody in Hcall. cbv zeta in Hcall.
  unfold bindM at 1 in Hcall.
  pose proof (retryLoop_attempts (tryDownload fuel) download fuel 0
                (mDownloadStatus downloadFailed []) w) as Hloop.
  destruct (retryLoop (tryDownload fuel) fuel 0 download
              (mDownloadStatus downloadFailed []) w) as [final w1 | r1 w1 | w1 |];
    simpl in Hcall; try discriminate Hcall; try contradiction.
  2:{ injection Hcall as <-.
      destruct Hloop as (attempts & w0 & Hchain & _ & Hpanic).
      eapply keptButStore_trans; [ exact (Hrun _ _ Hchain) | ].
      apply (tryDownload_keeps_files fuel download w0 w1 Hstat).
      rewrite Hpanic. reflexivity. }
  destruct Hloop as (attempts & Hchain & _).
  pose proof (Hrun _ _ Hchain) as H1.
  unfold bindM at 1 in Hcall.
  pose proof (reportFailure_files download final w1) as Hrep.
  assert (Hsame : forall w2, files w2 = files w1 -> keptButStore w w2).
  { intros w2 Hf. eapply keptButStore_trans; [ exact H1 | ].
    apply keptButStore_same. intros p _. rewrite Hf. reflexivity. }
  destruct (reportFailure download final w1) as [[] w2 | r2 w2 | w2 |];
    simpl in Hcall; try discriminate Hcall;
    try (injection Hcall as <-; exact (Hsame _ (proj1 Hrep))).
  unfold bindM at 1 in Hcall.
  pose proof (logLink_keeps download final w2) as Hlog.
  pose proof (Hsame _ (proj1 Hrep)) as H2.
  destruct (logLink download final w2) as [[] w3 | r3 w3 | w3 |];
    simpl in Hcall; try discriminate Hcall;
    injection Hcall as <-;
    exact (keptButStore_trans _ _ _ H2 (keptButStore_extended _ _ (proj1 Hlog))).
Qed.

(** A download into a folder that holds a file of the same name, a link log
    and the file of the image store: the file keeps its content, the log
    gets one more line, and the file of the image store is rewritten. *)
Lemma startDownload_only_adds_and_appends_witness :
  let E := Demo.standard in
  let download := Demo.download "http://example.com/a.png" "" in
  let w := Demo.worldWith ["dl/a.png"; "links.txt"; "cache/imgStore"] in
  exists w',
    (forall w q, os_Stat_err w q = false)
    /\ worldAfter (startDownload 5 download w) = Some w'
    /\ files w' !! "dl/a.png" = Some "old"
    /\ files w' !! "links.txt" = Some ("old" +:+ newline +:+ "http://example.com/a.png")
    /\ files w !! imgStorePath = Some "old"
    /\ files w' !! imgStorePath = Some "PNG;"
    /\ forall path content, path <> imgStorePath -> files w !! path = Some content ->
         exists more, files w' !! path = Some (content +:+ more).
Proof.
  intros E download w.
  destruct (worldAfter (startDownload 5 download w)) as [w' |] eqn:Hcall;
    [ | vm_compute in Hcall; discriminate Hcall ].
  exists w'. split; [ reflexivity | ]. split; [ reflexivity | ].
  pose proof (startDownload_only_adds_and_appends 5 download w w' (fun _ _ => eq_refl) Hcall)
    as H.
  assert (Hrun : files w' !! "dl/a.png" = Some "old"
                 /\ files w' !! "links.txt"
                    = Some ("old" +:+ newline +:+ "http://example.com/a.png")
                 /\ files w' !! imgStorePath = Some "PNG;").
  { vm_compute in Hcall. injection Hcall as <-. repeat split; reflexivity. }
  destruct Hrun as (Ha & Hb & Hc).
  split; [ exact Ha | ]. split; [ exact Hb | ]. split; [ reflexivity | ].
  split; [ exact Hc | exact H ].
Defined.

(** X15.  A call of [startDownload] that returns has added a record to the
    database exactly when it returns [downloadSuccess], however many
    attempts it took: then one record, for the URL and the channel of the
    request and for the author of the message (the bot when there is none),
    whose destination is a file that starts with a body the network gave for
    the URL of the request (the file is that body, unless the link log is
    the same file and a line was appended); with any other final status the
    database is as it was.  (Only a destination that is the file of the
    image store itself does not hold the body: the success has rewritten it
    with the image store.) *)
Theorem startDownload_records_exactly_one_success {E : Externals} (fuel : nat)
    (download : downloadRequestStruct) (w : World) (r : downloadStatusStruct) (w' : World) :
  startDownload fuel download w = Returned r w' ->
  (Status r = downloadSuccess ->
     exists item body more,
       db w' = db w ++ [item]
       /\ item_URL item = InputURL download
       /\ item_ChannelID item = ChannelID (Message_ download)
       /\ item_UserID item = recordUser download
       /\ fetched download body
       /\ (item_Destination item <> imgStorePath ->
           files w' !! item_Destination item = Some (body +:+ more)))
  /\ (Status r <> downloadSuccess -> db w' = db w).
Proof.
  intros Hcall.
  destruct (startDownload_returned _ _ _ _ _ Hcall) as (w1 & w2 & Hloop & Hrep & Hlog).
  pose proof (reportFailure_files download r w1) as Hr. rewrite Hrep in Hr.
  destruct Hr as [Hf12 Hd12].
  pose proof (logLink_keeps download r w2) as Hl. rewrite Hlog in Hl.
  destruct Hl as (Hf2 & Hd2 & _).
  assert (Hlast : recorded download w r w1).
  { pose proof (retryLoop_attempts (tryDownload fuel) download fuel 0
                  (mDownloadStatus downloadFailed []) w) as H.
    rewrite Hloop in H. destruct H as (attempts & Hrun & Hfinal).
    assert (Hretried : forall a s b, tryDownload fuel download a = Returned s b ->
                         stopsRetry (Status s) = false -> db b = db a).
    { intros a s b Hab Hs. pose proof (tryDownload_record fuel download a) as Hrec.
      rewrite Hab in Hrec. apply Hrec.
      intros Heq. rewrite Heq in Hs. discriminate Hs. }
    destruct (attemptsFrom_last (tryDownload fuel) download (fun a b => db b = db a)
                (fun _ => eq_refl) (fun a b c Hab Hbc => eq_trans Hbc Hab)
                (fun _ => eq_refl) w attempts w1 Hretried Hrun)
      as [[-> ->] | [(a & Ha & Hs & Hd) | (a & w0 & Ha & Hs & Hd & Hex)]].
    - simpl in Hfinal. subst r. split; [ discriminate | reflexivity ].
    - rewrite Ha in Hfinal. simpl in Hfinal. subst a.
      split; [ intros Heq; rewrite Heq in Hs; discriminate Hs | intros _; exact Hd ].
    - rewrite Ha in Hfinal. simpl in Hfinal. subst a.
      pose proof (tryDownload_record fuel download w0) as Hrec.
      rewrite Hex in Hrec. destruct Hrec as [Hyes Hno].
      rewrite Hd in Hyes, Hno. split; assumption. }
  destruct Hlast as [Hyes Hno]. split.
  - intros Hs. destruct (Hyes Hs) as (item & body & Hdb & Hu & Hc & Hus & Hfile & Hfetched).
    assert (Hmore : exists more,
               item_Destination item <> imgStorePath ->
               files w' !! item_Destination item = Some (body +:+ more)).
    { destruct (decide (item_Destination item = imgStorePath)) as [Heq | Hne].
      - exists "". intros Hne. contradiction.
      - specialize (Hfile Hne). rewrite <- Hf12 in Hfile.
        destruct (Hf2 _ _ Hfile) as [more Hmore]. exists more. intros _. exact Hmore. }
    destruct Hmore as [more Hmore].
    exists item, body, more. split; [ congruence | ]. split; [ exact Hu | ].
    split; [ exact Hc | ]. split; [ exact Hus | ]. split; [ exact Hfetched | exact Hmore ].
  - intros Hs. rewrite Hd2, Hd12. apply Hno, Hs.
Qed.

(** A network that refuses the first attempt and answers the second: two
    attempts, one sleep, one record. *)
Lemma startDownload_records_exactly_one_success_witness :
  let E := Demo.env (Demo.channelConfig true) false Demo.flaky 3 in
  let download := Demo.download "http://example.com/a.png" "" in
  exists r w',
    startDownload 5 download Demo.emptyWorld = Returned r w'
    /\ Status r = downloadSuccess
    /\ cachedDownloadID w' = 2
    /\ (item_Destination <$> db w') = ["dl/a.png"]
    /\ files w' !! "dl/a.png" = Some "PNG"
    /\ (Status r = downloadSuccess ->
          exists item body more,
            db w' = db Demo.emptyWorld ++ [item]
            /\ item_URL item = InputURL download
            /\ item_ChannelID item = ChannelID (Message_ download)
            /\ item_UserID item = recordUser download
            /\ fetched download body
            /\ (item_Destination item <> imgStorePath ->
                files w' !! item_Destination item = Some (body +:+ more)))
    /\ (Status r <> downloadSuccess -> db w' = db Demo.emptyWorld).
Proof.
  intros E download.
  destruct (startDownload 5 download Demo.emptyWorld) as [r w' | w' |] eqn:Hcall;
    [ | vm_compute in Hcall; discriminate Hcall .. ].
  exists r, w'. split; [ reflexivity | ].
  pose proof (startDownload_records_exactly_one_success 5 download Demo.emptyWorld r w' Hcall)
    as H.
  assert (Hrun : Status r = downloadSuccess /\ cachedDownloadID w' = 2
                 /\ (item_Destination <$> db w') = ["dl/a.png"]
                 /\ files w' !! "dl/a.png" = Some "PNG").
  { vm_compute in Hcall. injection Hcall as <- <-. repeat split; reflexivity. }
  destruct Hrun as (Hs & Hid & Hd & Hf).
  split; [ exact Hs | ]. split; [ exact Hid | ]. split; [ exact Hd | ].
  split; [ exact Hf | exact H ].
Defined.

(** ** The reaction *)

Lemma onlySeeded_refl w : onlySeeded w w.
Proof. repeat split. Qed.

(** The emoji the loop ends with is one of the list that is neither
    animated nor blacklisted, and the loop changes nothing but the seed. *)
Lemma pickRandomEmoji_sound {E : Externals} fuel emojis blacklist :
  forall w e w',
    pickRandomEmoji fuel emojis blacklist w = Next e w' ->
    onlySeeded w w'
    /\ exists emoji, In emoji emojis /\ APIName emoji = e
                     /\ Animated emoji = false /\ stringInSlice e blacklist = false.
Proof.
  induction fuel as [| fuel IH]; intros w e w'; simpl; [ discriminate | ].
  unfold bindM at 1. unfold getWorld at 1. unfold bindM at 1. unfold modify at 1.
  destruct (_ && _); [ | discriminate ].
  destruct (emojis !! Z.to_nat _) as [chosen |] eqn:Hk; [ | discriminate ].
  destruct (negb (Animated chosen)) eqn:Ha; simpl.
  - destruct (negb (stringInSlice (APIName chosen) blacklist)) eqn:Hb; simpl.
    + unfold pure. intros H. injection H as <- <-.
      split; [ repeat split | ].
      exists chosen. split; [ | split; [ reflexivity | ] ].
      * apply list_elem_of_lookup_2 in Hk. apply list_elem_of_In, Hk.
      * split; [ destruct (Animated chosen); [ discriminate Ha | reflexivity ] | ].
        destruct (stringInSlice _ _); [ discriminate Hb | reflexivity ].
    + intros H. destruct (IH _ _ _ H) as [Hs He]. split; [ | exact He ].
      destruct Hs as (? & ? & ? & ? & ?). repeat split; assumption.
  - intros H. destruct (IH _ _ _ H) as [Hs He]. split; [ | exact He ].
    destruct Hs as (? & ? & ? & ? & ?). repeat split; assumption.
Qed.

(** X16.  The reaction that is chosen: the configured emoji when one is
    configured; otherwise the default reaction, or the empty string when the
    guild of the message cannot be found, or an emoji of that guild that is
    neither animated nor blacklisted.  Choosing it changes nothing but the
    seed of the random numbers. *)
Theorem reaction_is_configured_default_or_eligible {E : Externals} (fuel : nat)
    (download : downloadRequestStruct) (channelConfig : configurationChannel)
    (w : World) (reaction : string) (w' : World) :
  chooseReaction fuel download channelConfig w = Next reaction w' ->
  onlySeeded w w'
  /\ (ReactWhenDownloadedEmoji channelConfig <> "" ->
      reaction = ReactWhenDownloadedEmoji channelConfig)
  /\ (ReactWhenDownloadedEmoji channelConfig = "" ->
      reaction = defaultReact
      \/ (reaction = "" /\ State_Guild (GuildID (Message_ download)) = None)
      \/ exists guild,
           State_Guild (GuildID (Message_ download)) = Some guild
           /\ eligibleEmoji guild (BlacklistReactEmojis channelConfig) reaction).
Proof.
  unfold chooseReaction. cbv zeta.
  destruct (String.eqb_spec (ReactWhenDownloadedEmoji channelConfig) "") as [Hcfg | Hcfg].
  2:{ unfold pure. intros H. injection H as <- <-.
      split; [ apply onlySeeded_refl | ]. split; [ reflexivity | contradiction ]. }
  destruct (negb _).
  2:{ unfold pure. intros H. injection H as <- <-.
      split; [ apply onlySeeded_refl | ]. split; [ contradiction | auto ]. }
  destruct (State_Guild _) as [guild |] eqn:Hguild.
  2:{ unfold pure. intros H. injection H as <- <-.
      split; [ apply onlySeeded_refl | ]. split; [ contradiction | auto ]. }
  destruct (_ <? _)%nat.
  2:{ unfold pure. intros H. injection H as <- <-.
      split; [ apply onlySeeded_refl | ]. split; [ contradiction | auto ]. }
  intros H. destruct (pickRandomEmoji_sound _ _ _ _ _ _ H) as [Hs He].
  split; [ exact Hs | ]. split; [ contradiction | ].
  intros _. right. right. exists guild. split; [ reflexivity | exact He ].
Qed.

(** A direct message: no guild, so the default reaction. *)
Lemma reaction_is_configured_default_or_eligible_witness :
  let E := Demo.standard in
  let download := Demo.download "http://example.com/a.png" "" in
  let channelConfig := Demo.channelConfig true in
  let w := Demo.emptyWorld in
  chooseReaction 5 download channelConfig w = Next "ok" w
  /\ onlySeeded w w
  /\ (ReactWhenDownloadedEmoji channelConfig <> "" ->
      "ok" = ReactWhenDownloadedEmoji channelConfig)
  /\ (ReactWhenDownloadedEmoji channelConfig = "" ->
      "ok" = defaultReact
      \/ ("ok" = "" /\ State_Guild (GuildID (Message_ download)) = None)
      \/ exists guild,
           State_Guild (GuildID (Message_ download)) = Some guild
           /\ eligibleEmoji guild (BlacklistReactEmojis channelConfig) "ok").
Proof.
  intros E download channelConfig w.
  split; [ reflexivity | ].
  apply (reaction_is_configured_default_or_eligible 5 download channelConfig w "ok" w).
  reflexivity.
Defined.

(** ** The destination folder *)

Lemma substring_whole (s : string) : String.substring 0 (strLen s) s = s.
Proof. induction s as [| c s IH]; simpl; [ reflexivity | rewrite IH; reflexivity ]. Qed.

Lemma substring_suffix (stem rest : string) :
  String.substring (strLen stem) (strLen rest) (stem +:+ rest) = rest.
Proof.
  induction stem as [| c stem IH]; [ apply substring_whole | exact IH ].
Qed.

Lemma strings_HasSuffix_append (stem suffix : string) :
  strings_HasSuffix (stem +:+ suffix) suffix = true.
Proof.
  unfold strings_HasSuffix. rewrite strLen_append.
  replace (strLen stem + strLen suffix - strLen suffix)%nat with (strLen stem) by lia.
  rewrite substring_suffix, String.eqb_refl.
  apply andb_true_iff. split; [ apply Nat.leb_le; lia | reflexivity ].
Qed.

(** X17.  Cleaning the destination folder is idempotent: when [cleanPath]
    lets a request through, the folder it leaves ends with the separator and
    is the given one, with the separator added if it was missing, the world
    and the rest of the request are untouched, and cleaning the result again
    changes nothing. *)
Theorem cleanPath_is_idempotent (download download' : downloadRequestStruct) (w w' : World) :
  cleanPath download w = Next download' w' ->
  w' = w
  /\ strings_HasSuffix (Path download') pathSeparator = true
  /\ (Path download' = Path download \/ Path download' = Path download +:+ pathSeparator)
  /\ Filename download' = Filename download
  /\ sameRequest download download'
  /\ cleanPath download' w' = Next download' w'.
Proof.
  unfold cleanPath.
  destruct (String.eqb (Path download) "" || String.eqb (Path download) pathSeparator)
    eqn:Hbad; [ discriminate | ].
  destruct (strings_HasSuffix (Path download) pathSeparator) eqn:Hsuf; simpl;
    unfold pure; intros H; injection H as <- <-.
  - split; [ reflexivity | ]. split; [ exact Hsuf | ]. split; [ auto | ].
    split; [ reflexivity | ]. split; [ apply sameRequest_refl | ].
    rewrite Hbad, Hsuf. reflexivity.
  - split; [ reflexivity | ]. simpl Path.
    split; [ apply strings_HasSuffix_append | ]. split; [ auto | ].
    split; [ reflexivity | ]. split; [ repeat split | ].
    change (Path (setPath download (Path download +:+ pathSeparator)))
      with (Path download +:+ pathSeparator).
    rewrite strings_HasSuffix_append.
    assert (Hok : String.eqb (Path download +:+ pathSeparator) ""
                  || String.eqb (Path download +:+ pathSeparator) pathSeparator = false).
    { apply orb_false_iff in Hbad. destruct Hbad as [Hne _].
      destruct (Path download) as [| c rest]; [ discriminate Hne | ].
      destruct rest as [| c' rest]; simpl.
      - destruct (Ascii.eqb c "/"); reflexivity.
      - destruct (Ascii.eqb c "/"); [ | reflexivity ].
        destruct (Ascii.eqb c' "/"); reflexivity. }
    rewrite Hok. reflexivity.
Qed.

(** The folder "dl" becomes "dl/", and stays "dl/". *)
Lemma cleanPath_is_idempotent_witness :
  let download := Demo.download "http://example.com/a.png" "" in
  let download' := setPath download "dl/" in
  let w := Demo.emptyWorld in
  cleanPath download w = Next download' w
  /\ w = w
  /\ strings_HasSuffix (Path download') pathSeparator = true
  /\ (Path download' = Path download \/ Path download' = Path download +:+ pathSeparator)
  /\ Filename download' = Filename download
  /\ sameRequest download download'
  /\ cleanPath download' w = Next download' w.
Proof.
  intros download download' w. split; [ reflexivity | ].
  apply (cleanPath_is_idempotent download download' w w). reflexivity.
Defined.

(** ** The link log and the failures *)

(** X18.  In a registered channel whose link log has [LogFailures] off, a
    final status other than [downloadSuccess] (ignored and skipped requests
    are failures for this gate) adds no line to any file: when [logLink]
    falls through, the files are as they were, except that the log file has
    been created, empty, when it was missing. *)
Theorem failures_are_not_logged_with_log_failures_off {E : Externals}
    (download : downloadRequestStruct) (status : downloadStatusStruct)
    (logLinks : configurationChannel_Log) (w w' : World) :
  isChannelRegistered (ChannelID (Message_ download)) = true ->
  LogLinks (getChannelConfig (ChannelID (Message_ download))) = Some logLinks ->
  LogFailures logLinks = false ->
  Status status <> downloadSuccess ->
  logLink download status w = Next tt w' ->
  files w' = files w
  \/ exists logPath, files w !! logPath = None /\ files w' = <[logPath := ""]> (files w).
Proof.
  intros Hreg Hcfg Hoff Hstatus. unfold logLink. cbv zeta. rewrite Hreg, Hcfg.
  destruct (negb _); [ | unfold pure; intros H; injection H as <-; left; reflexivity ].
  unfold bindM at 1.
  pose proof (logLinksPath_keeps download logLinks status w) as Hpath.
  destruct (logLinksPath download logLinks status w) as [logPath w1 | | |];
    try discriminate.
  destruct Hpath as (Hf1 & _ & _).
  unfold bindM at 1. unfold getWorld at 1. unfold bindM at 1.
  rewrite (proj1 (shouldLogLink_gates logLinks (Status status) _ (InputURL download))
             Hstatus Hoff).
  unfold when_, modify, pure.
  destruct (negb (os_OpenFile_err w1 logPath) && bool_decide (files w1 !! logPath = None))
    eqn:Hc; intros H; injection H as <-.
  - right. exists logPath.
    apply andb_true_iff in Hc. destruct Hc as [_ Hc]. apply bool_decide_eq_true in Hc.
    rewrite Hf1 in Hc. split; [ exact Hc | ]. simpl. rewrite Hf1. reflexivity.
  - left. exact Hf1.
Qed.

(** A resource that is gone, logged nowhere: the log file is created and
    stays empty. *)
Lemma failures_are_not_logged_with_log_failures_off_witness :
  let E := Demo.gone in
  let download := Demo.download "http://example.com/a.png" "" in
  let status := {| Status := downloadFailed404; Error := None |} in
  let w := Demo.emptyWorld in
  let w' := setFile "links.txt" "" w in
  isChannelRegistered (ChannelID (Message_ download)) = true
  /\ LogLinks (getChannelConfig (ChannelID (Message_ download))) = Some Demo.logLinks
  /\ LogFailures Demo.logLinks = false
  /\ Status status <> downloadSuccess
  /\ logLink download status w = Next tt w'
  /\ (files w' = files w
      \/ exists logPath,
           files w !! logPath = None /\ files w' = <[logPath := ""]> (files w)).
Proof.
  intros E download status w w'.
  assert (Hs : Status status <> downloadSuccess) by (simpl; discriminate).
  split; [ reflexivity | ]. split; [ reflexivity | ]. split; [ reflexivity | ].
  split; [ exact Hs | ]. split; [ reflexivity | ].
  apply (failures_are_not_logged_with_log_failures_off download status Demo.logLinks w w');
    [ reflexivity | reflexivity | reflexivity | exact Hs | reflexivity ].
Defined.

(** ** Where the executor can panic *)

Lemma neverPanics_bind {A B} (v1 : A -> Prop) (v2 : B -> Prop)
    (m : Step A) (k : A -> Step B) :
  neverPanics v1 m -> (forall a, v1 a -> neverPanics v2 (k a)) ->
  neverPanics v2 (bindM m k).
Proof.
  intros Hm Hk w. rewrite wp_bind.
  apply (wp_mono _ _ _ _ _ _ _ _ (Hm w)); auto.
  intros a w' Ha. apply Hk, Ha.
Qed.

Section Panics.
Context {E : Externals}.

(** Blocks that have no panic in them. *)
Ltac calm := intros w; unfold wp; crunch; try exact I.

Lemma validateSource_calm download : neverPanics anyResult (validateSource download).
Proof. unfold validateSource, anyResult. calm. Qed.

Lemma cleanPath_calm download :
  neverPanics (sameRequest download) (cleanPath download).
Proof.
  unfold cleanPath. intros w. unfold wp, fail, returnWith, pure.
  destruct (_ || _); [ exact I | ]. destruct (negb _); repeat split.
Qed.

Lemma mkdirAll_calm path status : neverPanics anyResult (mkdirAll path status).
Proof. unfold mkdirAll, anyResult. calm. Qed.

Lemma request_calm download :
  (forall w err, http_Get w (InputURL download) <> NewRequestError err) ->
  neverPanics (fun resp => exists w, http_Get w (InputURL download) = Responded (fst resp))
    (request download).
Proof.
  intros Hbuilt w. unfold request, wp, bindM, getWorld, fail, returnWith, pure.
  destruct (http_Get w (InputURL download)) as [err | err | response] eqn:Hget.
  - exact (Hbuilt w err Hget).
  - exact I.
  - destruct (Body response); [ | exact I ].
    destruct (_ =? _); [ exact I | ]. exists w. exact Hget.
Qed.

Lemma chooseFilename_calm download response :
  Header response !! "Content-Disposition" <> Some [] ->
  neverPanics (sameRequest download) (chooseFilename download response).
Proof.
  intros Hheader w. unfold chooseFilename, wp, pure, panic. cbv zeta.
  destruct (String.eqb _ _); [ | apply sameRequest_refl ].
  destruct (Header response !! "Content-Disposition") as [[| h0 rest] |];
    [ contradiction Hheader; reflexivity | | repeat split ].
  destruct (mime_ParseMediaType h0); [ | repeat split ].
  destruct (negb _); repeat split.
Qed.

Lemma checkExtension_calm channelConfig extension :
  neverPanics anyResult (checkExtension channelConfig extension).
Proof. unfold checkExtension, anyResult. calm. Qed.

Lemma checkDomain_calm channelConfig parsedHost :
  (AllowedDomains (Filters channelConfig) = None
   /\ BlockedDomains (Filters channelConfig) = None)
  \/ parsedHost <> None ->
  neverPanics anyResult (checkDomain channelConfig parsedHost).
Proof.
  intros Hhost w. unfold checkDomain, anyResult, wp, fail, returnWith, pure, panic. cbv zeta.
  destruct Hhost as [[-> ->] | Hhost].
  - rewrite !bool_decide_eq_false_2 by (intros H; apply H; reflexivity). exact I.
  - destruct (_ || _); [ | exact I ].
    destruct parsedHost; [ | contradiction Hhost; reflexivity ].
    destruct (filterShouldAbort _ _ _); exact I.
Qed.

Lemma checkContentType_calm channelConfig contentTypeFound :
  neverPanics anyResult (checkContentType channelConfig contentTypeFound).
Proof. unfold checkContentType, anyResult. calm. Qed.

Lemma duplicateImageFilter_calm bodyOfResp extension contentTypeFound :
  neverPanics anyResult (duplicateImageFilter bodyOfResp extension contentTypeFound).
Proof. unfold duplicateImageFilter, anyResult. calm. Qed.

Lemma addSubfolder_calm download subfolder subfolderSuffix :
  neverPanics anyResult (addSubfolder download subfolder subfolderSuffix).
Proof. unfold addSubfolder, mkdirAll, anyResult. calm. Qed.

Lemma buildSubfolder_calm download channelConfig sourceName sourceChannelName
    contentTypeFound :
  neverPanics anyResult
    (buildSubfolder download channelConfig sourceName sourceChannelName contentTypeFound).
Proof.
  unfold buildSubfolder. cbv zeta.
  apply (neverPanics_bind anyResult).
  - destruct (Author _) as [author |]; [ | intros w; exact I ].
    apply (neverPanics_bind anyResult);
      [ destruct (DivideFoldersByServer _);
        [ apply addSubfolder_calm | intros w; exact I ] | intros s1 _ ].
    apply (neverPanics_bind anyResult);
      [ destruct (DivideFoldersByChannel _);
        [ apply addSubfolder_calm | intros w; exact I ] | intros s2 _ ].
    destruct (DivideFoldersByUser _); [ apply addSubfolder_calm | intros w; exact I ].
  - intros s _. destruct (_ && _); [ apply addSubfolder_calm | intros w; exact I ].
Qed.

Lemma composePath_calm download channelConfig subfolder :
  neverPanics anyResult (composePath download channelConfig subfolder).
Proof. unfold composePath, anyResult. calm. Qed.

Lemma suffixedPath_fits tmpPath i :
  (strLen (filepathExtension tmpPath) <= strLen tmpPath)%nat ->
  suffixedPath tmpPath i <> None.
Proof.
  intros Hfits. unfold suffixedPath, sliceTo. cbv zeta.
  destruct (Z.ltb_spec (Z.of_nat (strLen tmpPath)
                        - Z.of_nat (strLen (filepathExtension tmpPath))) 0);
    [ lia | discriminate ].
Qed.

Lemma probeFreePath_calm fuel tmpPath :
  (strLen (filepathExtension tmpPath) <= strLen tmpPath)%nat ->
  forall i, neverPanics anyResult (probeFreePath fuel tmpPath i).
Proof.
  intros Hfits. induction fuel as [| fuel IH]; intros i w; simpl; [ exact I | ].
  pose proof (suffixedPath_fits tmpPath i Hfits) as Hdef.
  destruct (suffixedPath tmpPath i) as [completePath |]; [ | contradiction Hdef; reflexivity ].
  unfold wp, bindM, getWorld.
  destruct (os_Stat w completePath); try apply IH. exact I.
Qed.

Lemma resolveCollision_calm fuel channelConfig completePath :
  (strLen (filepathExtension completePath) <= strLen completePath)%nat ->
  neverPanics anyResult (resolveCollision fuel channelConfig completePath).
Proof.
  intros Hfits w. unfold resolveCollision, wp, bindM, getWorld.
  destruct (os_Stat w completePath); try exact I.
  destruct (SavePossibleDuplicates channelConfig); [ | exact I ].
  apply (probeFreePath_calm fuel completePath Hfits 1 w).
Qed.

Lemma writeFile_calm download completePath bodyOfResp :
  neverPanics anyResult (writeFile download completePath bodyOfResp).
Proof. unfold writeFile, anyResult. calm. Qed.

Lemma storeRecord_calm download completePath :
  neverPanics anyResult (storeRecord download completePath).
Proof. unfold storeRecord, anyResult. calm. Qed.

Lemma pickRandomEmoji_calm fuel emojis blacklist :
  (forall seed n, 0 < n -> 0 <= rand_Intn seed n < n) ->
  (0 < length emojis)%nat ->
  neverPanics anyResult (pickRandomEmoji fuel emojis blacklist).
Proof.
  intros Hrand Hlen. induction fuel as [| fuel IH]; intros w; simpl; [ exact I | ].
  unfold wp, bindM at 1, getWorld at 1. unfold bindM at 1, modify at 1.
  specialize (Hrand (clock w) (Z.of_nat (length emojis)) ltac:(lia)).
  destruct (Z.leb_spec 0 (rand_Intn (clock w) (Z.of_nat (length emojis)))); [ | lia ].
  destruct (Z.ltb_spec (rand_Intn (clock w) (Z.of_nat (length emojis)))
              (Z.of_nat (length emojis))); [ | lia ].
  simpl.
  destruct (lookup_lt_is_Some_2 emojis
              (Z.to_nat (rand_Intn (clock w) (Z.of_nat (length emojis)))) ltac:(lia))
    as [chosen ->].
  destruct (_ && _); [ exact I | apply IH ].
Qed.

Lemma react_calm fuel download channelConfig :
  (forall seed n, 0 < n -> 0 <= rand_Intn seed n < n) ->
  neverPanics anyResult (react fuel download channelConfig).
Proof.
  intros Hrand. unfold react. cbv zeta.
  destruct (_ && _); [ | intros w; exact I ].
  apply (neverPanics_bind anyResult).
  - unfold chooseReaction. cbv zeta.
    destruct (String.eqb _ _); [ | intros w; exact I ].
    destruct (negb _); [ | intros w; exact I ].
    destruct (State_Guild _) as [guild |]; [ | intros w; exact I ].
    destruct (Nat.ltb_spec 1 (length (Emojis guild))); [ | intros w; exact I ].
    apply pickRandomEmoji_calm; [ exact Hrand | lia ].
  - intros reaction _. unfold anyResult. calm.
Qed.

Lemma afterSuccess_calm download channelConfig thisDownloadID :
  neverPanics anyResult (afterSuccess download channelConfig thisDownloadID).
Proof. unfold afterSuccess, persistImgStore, anyResult. calm. Qed.

(** Under the five assumptions no block of the executor panics. *)
Lemma tryDownloadBody_calm fuel download :
  wellBehaved download -> neverPanics anyResult (tryDownloadBody fuel download).
Proof.
  intros [Hbuilt Hheader Hhost Hfits Hrand]. unfold tryDownloadBody.
  apply (neverPanics_bind anyResult); [ intros w; exact I | intros _ _ ].
  apply (neverPanics_bind anyResult); [ intros w; exact I | intros w0 _ ].
  change (stringInSlice (ChannelID (Message_ download)) getAllChannels
          || EmojiCmd download || ManualDownload download) with (enrolled download).
  destruct (enrolled download); [ | intros w; exact I ].
  cbv zeta.
  change (if isChannelRegistered (ChannelID (Message_ download))
          then getChannelConfig (ChannelID (Message_ download))
          else channelDefault) with (configOf download) in *.
  apply (neverPanics_bind anyResult); [ apply validateSource_calm | intros _ _ ].
  eapply neverPanics_bind; [ apply cleanPath_calm | intros download1 Hsame1 ].
  assert (Hurl1 : InputURL download1 = InputURL download) by (symmetry; apply Hsame1).
  apply (neverPanics_bind anyResult); [ apply mkdirAll_calm | intros _ _ ].
  eapply neverPanics_bind;
    [ apply request_calm; rewrite Hurl1; exact Hbuilt | intros resp [wq Hget] ].
  rewrite Hurl1 in Hget.
  eapply neverPanics_bind;
    [ apply chooseFilename_calm; exact (Hheader wq _ Hget) | intros download2 Hsame2 ].
  apply (neverPanics_bind anyResult); [ apply checkExtension_calm | intros _ _ ].
  apply (neverPanics_bind anyResult).
  { apply checkDomain_calm.
    destruct Hhost as [Hnone | Hhost]; [ left; exact Hnone | right ].
    assert (Hurl : InputURL download2 = InputURL download)
      by (symmetry; apply (sameRequest_trans _ _ _ Hsame1 Hsame2)).
    rewrite Hurl. exact Hhost. }
  intros _ _.
  apply (neverPanics_bind anyResult); [ apply checkContentType_calm | intros _ _ ].
  apply (neverPanics_bind anyResult); [ apply duplicateImageFilter_calm | intros _ _ ].
  apply (neverPanics_bind anyResult); [ apply buildSubfolder_calm | intros subfolder _ ].
  apply (neverPanics_bind anyResult); [ apply composePath_calm | intros completePath _ ].
  apply (neverPanics_bind anyResult);
    [ apply resolveCollision_calm, Hfits | intros completePath' _ ].
  apply (neverPanics_bind anyResult); [ apply writeFile_calm | intros _ _ ].
  apply (neverPanics_bind anyResult); [ apply storeRecord_calm | intros _ _ ].
  apply (neverPanics_bind anyResult); [ apply react_calm, Hrand | intros _ _ ].
  apply (neverPanics_bind anyResult); [ apply afterSuccess_calm | intros _ _ ].
  intros w; exact I.
Qed.

End Panics.

(** X19.  Where [tryDownload] can panic, with the message and the channel
    settings present as the model has them.  When [http.NewRequest] accepts
    the URL, a [Content-Disposition] header that is present has a value, the
    host name of the URL can be read if a domain filter is configured,
    [filepathExtension] returns no more than the path it is given, and
    [rand.Intn(n)] stays below [n], then no call of [tryDownload] for that
    request panics, in any world and with any fuel. *)
Theorem executor_panics_only_on_five_unchecked_answers {E : Externals}
    (download : downloadRequestStruct) :
  wellBehaved download ->
  forall fuel w w', tryDownload fuel download w <> Panicked w'.
Proof.
  intros Hwell fuel w w' Hcall.
  pose proof (tryDownloadBody_calm fuel download Hwell w) as H.
  unfold tryDownload, call in Hcall. unfold wp in H.
  destruct (tryDownloadBody fuel download w); try discriminate Hcall. exact H.
Qed.

Lemma Demo_ext_fits (s : string) : (strLen (Demo.ext s) <= strLen s)%nat.
Proof.
  induction s as [| c s IH]; simpl; [ lia | ].
  destruct (negb _); [ unfold strLen in *; lia | ].
  destruct (Demo.hasSlash s); [ simpl; lia | ].
  destruct (Ascii.eqb c "."); simpl; lia.
Qed.

(** The standard environment answers well. *)
Lemma executor_panics_only_on_five_unchecked_answers_witness :
  let E := Demo.standard in
  let download := Demo.download "http://example.com/a.png" "" in
  wellBehaved download
  /\ forall fuel w w', tryDownload fuel download w <> Panicked w'.
Proof.
  intros E download.
  assert (Hwell : wellBehaved download).
  { split.
    - intros w err. discriminate.
    - intros w response H. injection H as <-. simpl. discriminate.
    - left. split; reflexivity.
    - exact Demo_ext_fits.
    - intros seed n Hn. simpl. lia. }
  split; [ exact Hwell | ].
  exact (executor_panics_only_on_five_unchecked_answers download Hwell).
Defined.

(** X20.  For a message that has an author, a call of [startDownload]
    panics only when a call of [tryDownload] panics, and goes on for ever
    only when a call of [tryDownload] does; so it never panics for a request
    to which the outside world answers well.  (Without an author the failure
    notice and the link log can panic: they read the author's id and name
    without a check.) *)
Theorem startDownload_fails_to_return_only_with_the_executor {E : Externals}
    (fuel : nat) (download : downloadRequestStruct) (w : World) :
  DownloadRetryMax config < 2 ^ 63 ->
  (Z.to_nat (DownloadRetryMax config) < fuel)%nat ->
  Author (Message_ download) <> None ->
  (forall w', startDownload fuel download w = Panicked w' ->
     exists w0 w1, tryDownload fuel download w0 = Panicked w1)
  /\ (startDownload fuel download w = Diverged ->
      exists w0, tryDownload fuel download w0 = Diverged)
  /\ (wellBehaved download ->
      forall w', startDownload fuel download w <> Panicked w').
Proof.
  intros Hmax Hfuel Hauthor.
  assert (Hcases : match startDownload fuel download w with
                   | Returned _ _ => True
                   | Panicked _ => exists w0 w1, tryDownload fuel download w0 = Panicked w1
                   | Diverged => exists w0, tryDownload fuel download w0 = Diverged
                   end).
  { unfold startDownload, call, startDownloadBody. cbv zeta. unfold bindM at 1.
    pose proof (retryLoop_bounded (tryDownload fuel) download fuel 0
                  (mDownloadStatus downloadFailed []) w (Z.le_refl 0) Hmax) as Hspec.
    rewrite Z.sub_0_r in Hspec. specialize (Hspec Hfuel).
    destruct (retryLoop (tryDownload fuel) fuel 0 download
                (mDownloadStatus downloadFailed []) w) as [final w1 | | |];
      [ | exact I
        | destruct Hspec as (attempts & wa & _ & _ & _ & Hpanic); eauto
        | destruct Hspec as (attempts & wa & _ & _ & _ & Hhang); eauto ].
    unfold bindM at 1.
    pose proof (reportFailure_fallsThrough download final w1) as Hrep.
    destruct (reportFailure download final w1) as [[] w2 | | |];
      try contradiction; try exact I.
    unfold bindM at 1.
    pose proof (logLink_fallsThrough download final w2) as Hlog.
    destruct (logLink download final w2) as [[] w3 | | |];
      try contradiction; exact I. }
  split; [ | split ].
  - intros w' Hcall. rewrite Hcall in Hcases. exact Hcases.
  - intros Hcall. rewrite Hcall in Hcases. exact Hcases.
  - intros Hwell w' Hcall. rewrite Hcall in Hcases.
    destruct Hcases as (w0 & w1 & Hpanic).
    pose proof (tryDownloadBody_calm fuel download Hwell w0) as H.
    unfold tryDownload, call in Hpanic. unfold wp in H.
    destruct (tryDownloadBody fuel download w0); try discriminate Hpanic. exact H.
Qed.

(** The standard environment, and a message with an author. *)
Lemma startDownload_fails_to_return_only_with_the_executor_witness :
  let E := Demo.standard in
  let download := Demo.download "http://example.com/a.png" "" in
  let w := Demo.emptyWorld in
  DownloadRetryMax config < 2 ^ 63
  /\ (Z.to_nat (DownloadRetryMax config) < 5)%nat
  /\ Author (Message_ download) <> None
  /\ (forall w', startDownload 5 download w = Panicked w' ->
        exists w0 w1, tryDownload 5 download w0 = Panicked w1)
  /\ (startDownload 5 download w = Diverged ->
      exists w0, tryDownload 5 download w0 = Diverged)
  /\ (wellBehaved download ->
      forall w', startDownload 5 download w <> Panicked w').
Proof.
  intros E download w.
  assert (Hmax : DownloadRetryMax config < 2 ^ 63) by reflexivity.
  assert (Hfuel : (Z.to_nat (DownloadRetryMax config) < 5)%nat) by (vm_compute; lia).
  assert (Hauthor : Author (Message_ download) <> None) by (simpl; discriminate).
  split; [ exact Hmax | ]. split; [ exact Hfuel | ]. split; [ exact Hauthor | ].
  exact (startDownload_fails_to_return_only_with_the_executor 5 download w
           Hmax Hfuel Hauthor).
Defined.

(** ** The folder of the content type *)

(** X21.  A content type that passes "Check content type" is one of the
    five the bot knows, so with [DivideFoldersByType] the last segment of
    the subfolder is never missing: for a message with an author,
    [buildSubfolder] ends the subfolder with the folder of that type
    ("images", "videos", "audio", "text" or "applications"), and the last
    thing it does is to create that directory. *)
Theorem permitted_type_always_has_its_folder {E : Externals}
    (download : downloadRequestStruct) (channelConfig : configurationChannel)
    (sourceName sourceChannelName contentTypeFound : string)
    (w0 w0' w w' : World) (subfolder : string) :
  checkContentType channelConfig contentTypeFound w0 = Next tt w0' ->
  DivideFoldersByType channelConfig = true ->
  Author (Message_ download) <> None ->
  buildSubfolder download channelConfig sourceName sourceChannelName contentTypeFound w
  = Next subfolder w' ->
  exists before folder,
    subfolder = before +:+ folder +:+ pathSeparator
    /\ In (contentTypeFound, folder) typeFolders
    /\ last (effects w') = Some (EvMkdirAll (Path download +:+ subfolder)).
Proof.
  intros Hcheck Htype Hauthor.
  assert (Hfolder : exists folder,
             In (contentTypeFound, folder) typeFolders
             /\ (if String.eqb contentTypeFound "image" then "images"
                 else if String.eqb contentTypeFound "video" then "videos"
                 else if String.eqb contentTypeFound "audio" then "audio"
                 else if String.eqb contentTypeFound "text" then "text"
                 else if String.eqb contentTypeFound "application" then "applications"
                 else "") = folder
             /\ folder <> "").
  { unfold checkContentType in Hcheck. unfold typeFolders.
    destruct (String.eqb_spec contentTypeFound "image") as [-> | _];
      [ exists "images"; simpl; split; [ tauto | split; [ reflexivity | discriminate ] ] | ].
    destruct (String.eqb_spec contentTypeFound "video") as [-> | _];
      [ exists "videos"; simpl; split; [ tauto | split; [ reflexivity | discriminate ] ] | ].
    destruct (String.eqb_spec contentTypeFound "audio") as [-> | _];
      [ exists "audio"; simpl; split; [ tauto | split; [ reflexivity | discriminate ] ] | ].
    destruct (String.eqb_spec contentTypeFound "text") as [-> | _];
      [ exists "text"; simpl; split; [ tauto | split; [ reflexivity | discriminate ] ] | ].
    destruct (String.eqb_spec contentTypeFound "application") as [-> | _];
      [ exists "applications"; simpl;
        split; [ tauto | split; [ reflexivity | discriminate ] ] | ].
    rewrite !andb_false_r in Hcheck. simpl in Hcheck. discriminate Hcheck. }
  destruct Hfolder as (folder & Hin & Hchain & Hne).
  unfold buildSubfolder. cbv zeta. rewrite Hchain, Htype.
  rewrite bool_decide_eq_true_2 by exact Hauthor. simpl andb.
  unfold bindM at 1.
  match goal with
  | |- match ?m w with _ => _ end = _ -> _ =>
      destruct (m w) as [before w1 | | |]; try discriminate
  end.
  unfold addSubfolder.
  assert (Hnot : negb (String.eqb folder "") = true).
  { destruct (String.eqb_spec folder ""); [ contradiction | reflexivity ]. }
  rewrite Hnot. cbv zeta.
  unfold mkdirAll, bindM, getWorld, modify, fail, returnWith, pure.
  destruct (os_MkdirAll_err w1 _); [ discriminate | ].
  intros H. injection H as <- <-.
  exists before, folder. split; [ reflexivity | ]. split; [ exact Hin | ].
  simpl. apply last_snoc.
Qed.

(** A picture, in a channel that divides by type only. *)
Lemma permitted_type_always_has_its_folder_witness :
  let E := Demo.standard in
  let download := setPath (Demo.download "http://example.com/a.png" "") "dl/" in
  let channelConfig :=
    {| ErrorMessages := true; LogLinks := None;
       Filters := {| AllowedExtensions := None; BlockedExtensions := None;
                     AllowedDomains := None; BlockedDomains := None |};
       SaveImages := true; SaveVideos := false; SaveAudioFiles := false;
       SaveTextFiles := false; SaveOtherFiles := false;
       DivideFoldersByServer := false; DivideFoldersByChannel := false;
       DivideFoldersByUser := false; DivideFoldersByType := true;
       OverwriteFilenameDateFormat := None; SavePossibleDuplicates := true;
       ReactWhenDownloaded := None; ReactWhenDownloadedHistory := None;
       ReactWhenDownloadedEmoji := ""; BlacklistReactEmojis := [];
       UpdatePresence := false |} in
  let w := Demo.emptyWorld in
  let w' := emit (EvMkdirAll "dl/images/") w in
  checkContentType channelConfig "image" w = Next tt w
  /\ DivideFoldersByType channelConfig = true
  /\ Author (Message_ download) <> None
  /\ buildSubfolder download channelConfig "UNKNOWN" "chan" "image" w = Next "images/" w'
  /\ exists before folder,
       "images/" = before +:+ folder +:+ pathSeparator
       /\ In ("image", folder) typeFolders
       /\ last (effects w') = Some (EvMkdirAll (Path download +:+ "images/")).
Proof.
  intros E download channelConfig w w'.
  assert (Hauthor : Author (Message_ download) <> None) by (simpl; discriminate).
  split; [ reflexivity | ]. split; [ reflexivity | ]. split; [ exact Hauthor | ].
  split; [ reflexivity | ].
  apply (permitted_type_always_has_its_folder download channelConfig "UNKNOWN" "chan"
           "image" w w w w' "images/");
    [ reflexivity | reflexivity | exact Hauthor | reflexivity ].
Defined.

(** ** What follows a success *)

Lemma followUps_emit e w :
  followUps (emit e w) = followUps w ++ (if followUp e then [e] else []).
Proof.
  unfold followUps. simpl. rewrite List.filter_app. simpl.
  destruct (followUp e); reflexivity.
Qed.

Lemma frame_followUps : Frame setupAction (fun a b => followUps b = followUps a).
Proof.
  split; try reflexivity.
  - intros a b c Hab Hbc. congruence.
  - intros e w He. rewrite followUps_emit.
    destruct e; try contradiction; simpl; apply app_nil_r.
Qed.

Section FollowUps.
Context {E : Externals}.

Lemma pickRandomEmoji_effects fuel emojis blacklist : forall w,
  match pickRandomEmoji fuel emojis blacklist w with
  | Next _ w' | Panic w' => effects w' = effects w
  | Return _ _ => False
  | Hang => True
  end.
Proof.
  induction fuel as [| fuel IH]; intros w; simpl; [ exact I | ].
  unfold bindM at 1, getWorld at 1. unfold bindM at 1, modify at 1.
  destruct (_ && _); [ | reflexivity ].
  destruct (emojis !! _) as [chosen |]; [ | reflexivity ].
  destruct (_ && _); [ reflexivity | ].
  specialize (IH (tick w)).
  destruct (pickRandomEmoji fuel emojis blacklist (tick w)); exact IH.
Qed.

Lemma chooseReaction_effects fuel download channelConfig w :
  match chooseReaction fuel download channelConfig w with
  | Next _ w' | Panic w' => effects w' = effects w
  | Return _ _ => False
  | Hang => True
  end.
Proof.
  unfold chooseReaction. cbv zeta.
  destruct (String.eqb _ _); [ | reflexivity ].
  destruct (negb _); [ | reflexivity ].
  destruct (State_Guild _) as [guild |]; [ | reflexivity ].
  destruct (_ <? _)%nat; [ apply pickRandomEmoji_effects | reflexivity ].
Qed.

(** The block "React" adds at most the reaction to the message of the
    request, and that only with an author and with the permission. *)
Lemma react_followUps fuel download channelConfig w :
  match react fuel download channelConfig w with
  | Next _ w' =>
      exists (reacted : bool) reaction,
        followUps w'
        = followUps w
          ++ (if reacted
              then [ EvReactionAdd (ChannelID (Message_ download))
                       (msg_ID (Message_ download)) reaction ]
              else [])
        /\ (reacted = true ->
            Author (Message_ download) <> None
            /\ hasPerms (ChannelID (Message_ download)) "AddReactions" = true)
  | Panic w' => followUps w' = followUps w
  | Return _ _ => False
  | Hang => True
  end.
Proof.
  assert (Hnone : forall w0 : World, followUps w0 = followUps w ->
            exists (reacted : bool) (reaction : string),
              followUps w0
              = followUps w
                ++ (if reacted
                    then [ EvReactionAdd (ChannelID (Message_ download))
                             (msg_ID (Message_ download)) reaction ]
                    else [])
              /\ (reacted = true ->
                  Author (Message_ download) <> None
                  /\ hasPerms (ChannelID (Message_ download)) "AddReactions" = true)).
  { intros w0 H. exists false, "". rewrite app_nil_r. split; [ exact H | discriminate ]. }
  unfold react. cbv zeta.
  destruct (bool_decide (Author (Message_ download) <> None)) eqn:Hauthor;
    [ | apply Hnone; reflexivity ].
  apply bool_decide_eq_true in Hauthor. simpl andb.
  match goal with
  | |- context [if ?c then _ else _] => destruct c; [ | apply Hnone; reflexivity ]
  end.
  unfold bindM at 1.
  pose proof (chooseReaction_effects fuel download channelConfig w) as Hc.
  destruct (chooseReaction fuel download channelConfig w) as [reaction w1 | | |];
    try exact Hc; [ | unfold followUps; rewrite Hc; reflexivity ].
  assert (Hf : followUps w1 = followUps w) by (unfold followUps; rewrite Hc; reflexivity).
  unfold when_, modify, pure.
  destruct (hasPerms (ChannelID (Message_ download)) "AddReactions") eqn:Hperm.
  - exists true, reaction. rewrite followUps_emit, Hf. simpl. auto.
  - apply Hnone, Hf.
Qed.

(** Saving the image store always falls through, and is recorded once. *)
Lemma persistImgStore_followUps w :
  exists w',
    persistImgStore w = Next tt w'
    /\ followUps w' = followUps w ++ [ EvPersistImgStore (imgStore w) ].
Proof.
  unfold persistImgStore, bindM, when_, modify, getWorld, pure.
  destruct (imgStore_GobEncode (imgStore w)) as [encodedStore | err];
    [ destruct (os_OpenFile_err w imgStorePath);
      [ | destruct (negb (file_Write_err _ imgStorePath)) ] | ];
    eexists; (split; [ reflexivity | ]);
    unfold followUps; simpl; rewrite List.filter_app; reflexivity.
Qed.

(** What follows the reaction always falls through, with at most the
    presence update, outside history commands, and the saving of the image
    store. *)
Lemma afterSuccess_followUps download channelConfig thisDownloadID w :
  exists w' (updated saved : bool),
    afterSuccess download channelConfig thisDownloadID w = Next tt w'
    /\ followUps w'
       = followUps w
         ++ (if updated then [ EvUpdatePresence ] else [])
         ++ (if saved then [ EvPersistImgStore (imgStore w) ] else [])
    /\ (HistoryCmd download = true -> updated = false).
Proof.
  unfold afterSuccess. unfold bindM at 1. unfold when_ at 1.
  destruct (negb (HistoryCmd download) && UpdatePresence channelConfig) eqn:Hp;
    unfold modify, pure, when_;
    destruct ((0 <? thisDownloadID) && FilterDuplicateImages config).
  - destruct (persistImgStore_followUps (emit EvUpdatePresence w)) as (w' & Hrun & Hf).
    exists w', true, true. split; [ exact Hrun | ].
    split; [ rewrite Hf, followUps_emit; simpl; rewrite <- app_assoc; reflexivity | ].
    intros Hh. rewrite Hh in Hp. discriminate Hp.
  - exists (emit EvUpdatePresence w), true, false.
    split; [ reflexivity | ]. split; [ rewrite followUps_emit; reflexivity | ].
    intros Hh. rewrite Hh in Hp. discriminate Hp.
  - destruct (persistImgStore_followUps w) as (w' & Hrun & Hf).
    exists w', false, true. split; [ exact Hrun | ]. split; [ exact Hf | auto ].
  - exists w, false, false. split; [ reflexivity | ].
    split; [ simpl; symmetry; apply app_nil_r | auto ].
Qed.

(** From the write on: only a call that is about to return success reacts,
    updates the presence or saves the image store. *)
Lemma fromWrite_followUps fuel download channelConfig completePath bodyOfResp id w :
  match fromWrite fuel download channelConfig completePath bodyOfResp id w with
  | Next r w' =>
      Status r = downloadSuccess
      /\ exists l, followUps w' = followUps w ++ l /\ celebration download l
  | Return r w' => Status r <> downloadSuccess /\ followUps w' = followUps w
  | Panic _ | Hang => True
  end.
Proof.
  unfold fromWrite. unfold bindM at 1.
  pose proof (writeFile_written download completePath bodyOfResp w) as Hw.
  destruct (writeFile download completePath bodyOfResp w) as [[] w1 | r w' | |];
    [ | | contradiction | exact I ].
  2:{ destruct Hw as (-> & err & _ & ->). split; [ discriminate | reflexivity ]. }
  assert (H1 : followUps w1 = followUps w).
  { destruct Hw as [_ [-> | ->]]; [ reflexivity | ].
    rewrite followUps_emit. simpl. apply app_nil_r. }
  unfold bindM at 1.
  assert (Hst : storeRecord download completePath w1
                = match dbInsertDownload_err w1 (recordFor download completePath w1) with
                  | Some err => Return (mDownloadStatus downloadFailedWritingDatabase [Some err]) w1
                  | None => Next tt (addRecord (recordFor download completePath w1) w1)
                  end).
  { unfold storeRecord, bindM, getWorld, fail, returnWith, modify. cbv zeta.
    destruct (dbInsertDownload_err _ _); reflexivity. }
  rewrite Hst. clear Hst.
  destruct (dbInsertDownload_err w1 (recordFor download completePath w1)) as [err |].
  { split; [ discriminate | exact H1 ]. }
  set (w2 := addRecord _ w1).
  assert (H2 : followUps w2 = followUps w) by exact H1.
  unfold bindM at 1.
  pose proof (react_followUps fuel download channelConfig w2) as Hreact.
  destruct (react fuel download channelConfig w2) as [[] w3 | | |];
    [ | contradiction | exact I | exact I ].
  destruct Hreact as (reacted & reaction & H3 & Hwhy).
  unfold bindM at 1.
  destruct (afterSuccess_followUps download channelConfig id w3)
    as (w4 & updated & saved & -> & H4 & Hhist).
  unfold pure. split; [ reflexivity | ].
  eexists. split; [ rewrite H4, H3, H2, <- app_assoc; reflexivity | ].
  exists reaction, (imgStore w3). split; [ | split ].
  - destruct reacted, updated, saved; simpl;
      repeat first [ apply sublist_nil_l | apply sublist_skip | apply sublist_cons ].
  - intros Hin. destruct reacted; [ apply Hwhy; reflexivity | ].
    exfalso. destruct updated, saved; simpl in Hin; intuition discriminate.
  - intros Hh Hin. rewrite (Hhist Hh) in Hin.
    destruct reacted, saved; simpl in Hin; intuition discriminate.
Qed.

End FollowUps.

(** Only a call of the executor that returns success has reacted, updated
    the presence or saved the image store. *)
Lemma tryDownload_followUps {E : Externals} (fuel : nat)
    (download : downloadRequestStruct) (w : World) (r : downloadStatusStruct) (w' : World) :
  tryDownload fuel download w = Returned r w' ->
  (Status r <> downloadSuccess -> followUps w' = followUps w)
  /\ (Status r = downloadSuccess ->
      exists l, followUps w' = followUps w ++ l /\ celebration download l).
Proof.
  intros Hcall.
  set (P := fun (r : downloadStatusStruct) (w' : World) =>
              (Status r <> downloadSuccess -> followUps w' = followUps w)
              /\ (Status r = downloadSuccess ->
                  exists l, followUps w' = followUps w ++ l /\ celebration download l)).
  assert (Hwp : wp (tryDownloadBody fuel download) P P (fun _ => True) w).
  { apply (tryDownloadBody_wp setupAction _ frame_followUps (fun _ => I)).
    - intros _. split; [ reflexivity | discriminate ].
    - intros _. split; [ | split; [ exact (fun _ _ => I) | ] ].
      + intros r0 w1 Hf Hin. split; [ intros _; exact Hf | ].
        intros Hs. rewrite Hs in Hin. simpl in Hin.
        repeat (destruct Hin as [Hin | Hin]; [ discriminate Hin | ]). contradiction.
      + intros download' completePath bodyOfResp w1 Hf1 Hsame _ _.
        simpl in Hf1.
        pose proof (fromWrite_followUps fuel download' (configOf download) completePath
                      bodyOfResp (cachedDownloadID (nextDownloadID w)) w1) as Ht.
        unfold wp.
        destruct (fromWrite fuel download' (configOf download) completePath bodyOfResp
                    (cachedDownloadID (nextDownloadID w)) w1) as [r1 w2 | r1 w2 | |];
          try exact I.
        * destruct Ht as (Hs & l & Hl & Hcel).
          split; [ intros Hne; contradiction | ].
          intros _. exists l. split; [ rewrite Hl, Hf1; reflexivity | ].
          destruct Hsame as (_ & Hmsg & _ & Hhist & _).
          unfold celebration in *. rewrite Hmsg, Hhist. exact Hcel.
        * destruct Ht as [Hne Hl].
          split; [ intros _; rewrite Hl; exact Hf1 | intros Hs; contradiction ]. }
  unfold wp in Hwp. unfold tryDownload, call in Hcall.
  destruct (tryDownloadBody fuel download w); try discriminate Hcall;
    injection Hcall as <- <-; exact Hwp.
Qed.

Section AfterLoopFollowUps.
Context {E : Externals}.

Lemma reportFailure_followUps download status w :
  match reportFailure download status w with
  | Next _ w' | Return _ w' | Panic w' => followUps w' = followUps w
  | Hang => True
  end.
Proof.
  unfold reportFailure. crunch; rewrite ?followUps_emit; simpl;
    rewrite ?app_nil_r; reflexivity.
Qed.

Lemma logLink_followUps download status w :
  match logLink download status w with
  | Next _ w' | Return _ w' | Panic w' => followUps w' = followUps w
  | Hang => True
  end.
Proof.
  unfold logLink. cbv zeta.
  destruct (isChannelRegistered _); [ | reflexivity ].
  destruct (LogLinks _) as [logLinks |]; [ | reflexivity ].
  destruct (negb _); [ | reflexivity ].
  unfold bindM at 1.
  assert (Hpath : match logLinksPath download logLinks status w with
                  | Next _ w' | Return _ w' | Panic w' => followUps w' = followUps w
                  | Hang => True
                  end).
  { unfold logLinksPath. cbv zeta.
    destruct (DestinationIsFolder logLinks); [ | reflexivity ].
    unfold bindM, getWorld, modify, pure, panic.
    destruct (os_MkdirAll_err _ _); simpl;
      [ rewrite followUps_emit; simpl; apply app_nil_r | ].
    destruct (DivideLogsByUser logLinks); [ destruct (Author _) | ]; simpl;
      rewrite followUps_emit; simpl; apply app_nil_r. }
  destruct (logLinksPath download logLinks status w) as [logPath w1 | r w1 | w1 |];
    try exact Hpath.
  unfold bindM at 1. unfold getWorld at 1. unfold bindM at 1.
  unfold when_ at 1. unfold modify at 1, pure at 1.
  set (w2 := if negb (os_OpenFile_err w1 logPath)
                && bool_decide (files w1 !! logPath = None)
             then setFile logPath "" w1 else w1).
  assert (H2 : followUps w2 = followUps w).
  { unfold w2. destruct (_ && _); exact Hpath. }
  replace ((if negb (os_OpenFile_err w1 logPath)
               && bool_decide (files w1 !! logPath = None)
            then fun w0 : World => Next tt (setFile logPath "" w0)
            else fun w0 : World => Next tt w0) w1)
    with (@Next downloadStatusStruct unit tt w2)
    by (unfold w2; destruct (_ && _); reflexivity).
  destruct (shouldLogLink _ _ _ _); [ | exact H2 ].
  unfold bindM at 1.
  pose proof (logLine_keeps download logLinks w2) as Hline.
  destruct (logLine download logLinks w2) as [newLine w3 | r w3 | w3 |];
    try exact I; subst w3; try exact H2.
  unfold bindM, getWorld, when_, modify, pure.
  destruct (negb (os_OpenFile_err w1 logPath) && negb (file_WriteString_err w2 logPath));
    exact H2.
Qed.

End AfterLoopFollowUps.

(** X22.  The bot reacts, updates its presence and saves the image store
    only after a success, however many attempts it takes.  A call of
    [startDownload] that returns another status has done none of the three;
    one that returns [downloadSuccess] has done each at most once, in this
    order: the reaction goes to the message of the request, and only for a
    message with an author and with the permission to add reactions; the
    presence is not updated for a history command. *)
Theorem only_a_success_is_followed_up {E : Externals} (fuel : nat)
    (download : downloadRequestStruct) (w : World) (r : downloadStatusStruct) (w' : World) :
  startDownload fuel download w = Returned r w' ->
  (Status r <> downloadSuccess -> followUps w' = followUps w)
  /\ (Status r = downloadSuccess ->
      exists l, followUps w' = followUps w ++ l /\ celebration download l).
Proof.
  intros Hcall.
  destruct (startDownload_returned _ _ _ _ _ Hcall) as (w1 & w2 & Hloop & Hrep & Hlog).
  pose proof (reportFailure_followUps download r w1) as Hr. rewrite Hrep in Hr.
  pose proof (logLink_followUps download r w2) as Hl. rewrite Hlog in Hl.
  rewrite Hl, Hr. clear Hl Hr Hrep Hlog.
  pose proof (retryLoop_attempts (tryDownload fuel) download fuel 0
                (mDownloadStatus downloadFailed []) w) as H.
  rewrite Hloop in H. destruct H as (attempts & Hrun & Hfinal).
  assert (Hsleep : forall a, followUps (emit (EvSleep 5) a) = followUps a).
  { intros a. rewrite followUps_emit. simpl. apply app_nil_r. }
  assert (Hretried : forall a s b, tryDownload fuel download a = Returned s b ->
                       stopsRetry (Status s) = false -> followUps b = followUps a).
  { intros a s b Hab Hs. apply (tryDownload_followUps fuel download a s b Hab).
    intros Heq. rewrite Heq in Hs. discriminate Hs. }
  destruct (attemptsFrom_last (tryDownload fuel) download
              (fun a b => followUps b = followUps a)
              (fun _ => eq_refl) (fun a b c Hab Hbc => eq_trans Hbc Hab)
              Hsleep w attempts w1 Hretried Hrun)
    as [[-> ->] | [(a & Ha & Hs & Hf) | (a & w0 & Ha & Hs & Hf & Hex)]].
  - simpl in Hfinal. subst r. split; [ reflexivity | discriminate ].
  - rewrite Ha in Hfinal. simpl in Hfinal. subst a.
    split; [ intros _; exact Hf | ].
    intros Heq. rewrite Heq in Hs. discriminate Hs.
  - rewrite Ha in Hfinal. simpl in Hfinal. subst a.
    destruct (tryDownload_followUps fuel download w0 r w1 Hex) as [Hno Hyes].
    rewrite Hf in Hno, Hyes. split; assumption.
Qed.

(** A picture that is downloaded: the reaction, then the image store. *)
Lemma only_a_success_is_followed_up_witness :
  let E := Demo.standard in
  let download := Demo.download "http://example.com/a.png" "" in
  exists r w',
    startDownload 5 download Demo.emptyWorld = Returned r w'
    /\ Status r = downloadSuccess
    /\ followUps w' = [ EvReactionAdd "chan" "m1" "ok"; EvPersistImgStore [(1, "PNG")] ]
    /\ (Status r <> downloadSuccess -> followUps w' = followUps Demo.emptyWorld)
    /\ (Status r = downloadSuccess ->
        exists l, followUps w' = followUps Demo.emptyWorld ++ l /\ celebration download l).
Proof.
  intros E download.
  destruct (startDownload 5 download Demo.emptyWorld) as [r w' | w' |] eqn:Hcall;
    [ | vm_compute in Hcall; discriminate Hcall .. ].
  exists r, w'. split; [ reflexivity | ].
  pose proof (only_a_success_is_followed_up 5 download Demo.emptyWorld r w' Hcall) as H.
  assert (Hrun : Status r = downloadSuccess
                 /\ followUps w'
                    = [ EvReactionAdd "chan" "m1" "ok"; EvPersistImgStore [(1, "PNG")] ]).
  { vm_compute in Hcall. injection Hcall as <- <-. split; reflexivity. }
  destruct Hrun as [Hs Hf]. split; [ exact Hs | ]. split; [ exact Hf | exact H ].
Defined.
